(** * stereo-es2gears: stereo mode negotiation and the display swap pipeline

    A shallow embedding of the mode selection, layout, connector discovery,
    option parsing and buffer swap code of [stereo-es2gears.c], with the
    properties of its specification stated and settled on that embedding.

    Conventions.  C integers are modelled as [Z]; the conversion to a
    [uint32_t] lvalue is written out with [u32].  A pointer that may be
    [NULL] is an [option].  Arrays with their element count are lists.
    Calls that leave the program (libdrm, gbm, EGL, libc) are answered by an
    explicit environment and recorded in a trace, in program order. *)

From Stdlib Require Import ZArith List String Ascii Bool Lia.
Import ListNotations.

Local Open Scope string_scope.
Local Open Scope list_scope.
Local Open Scope Z_scope.

(* ================================================================== *)
(** * Machine integers and outcomes *)

Definition wrap (w x : Z) : Z := x mod 2 ^ w.
Definition u32 : Z -> Z := wrap 32.

(** The conversion to [int], and to [long] where that has 64 bits: the
    value modulo the width, read as a signed number. *)
Definition INT_MAX : Z := 2 ^ 31 - 1.
Definition LONG_MAX : Z := 2 ^ 63 - 1.
Definition LONG_MIN : Z := - 2 ^ 63.
Definition to_int (x : Z) : Z := wrap 32 (x + 2 ^ 31) - 2 ^ 31.

Definition in_u16 (x : Z) : Prop := 0 <= x < 2 ^ 16.
Definition in_u32 (x : Z) : Prop := 0 <= x < 2 ^ 32.

(** What a call of a C function can end in: it returns, it runs into
    [assert(0)], or it dereferences a [NULL] pointer. *)
Inductive outcome (A : Type) : Type :=
| Ret (a : A)
| Abort
| Fault.

Arguments Ret {A} a.
Arguments Abort {A}.
Arguments Fault {A}.

Definition bind {A B : Type} (c : outcome A) (k : A -> outcome B) : outcome B :=
  match c with
  | Ret a => k a
  | Abort => Abort
  | Fault => Fault
  end.

Declare Scope outcome_scope.
Delimit Scope outcome_scope with outcome.
Notation "x <- c ;; k" := (bind c (fun x => k))
  (at level 100, c at next level, right associativity) : outcome_scope.
Notation "' p <- c ;; k" := (bind c (fun x => match x with p => k end))
  (at level 100, p pattern, c at next level, right associativity) : outcome_scope.
Local Open Scope outcome_scope.

(** [strcmp] of libc on NUL-free strings: zero exactly on equal strings. *)
Definition strcmp (a b : string) : Z :=
  match String.compare a b with
  | Eq => 0
  | Lt => -1
  | Gt => 1
  end.

(* ================================================================== *)
(** * Constants of the headers the program includes

    These come from [drm_mode.h], [errno.h] and [stdlib.h]; they are not
    defined by the program. *)

Definition DRM_MODE_FLAG_3D_MASK : Z := Z.shiftl 31 14.
Definition DRM_MODE_FLAG_3D_NONE : Z := Z.shiftl 0 14.
Definition DRM_MODE_FLAG_3D_FRAME_PACKING : Z := Z.shiftl 1 14.
Definition DRM_MODE_FLAG_3D_FIELD_ALTERNATIVE : Z := Z.shiftl 2 14.
Definition DRM_MODE_FLAG_3D_LINE_ALTERNATIVE : Z := Z.shiftl 3 14.
Definition DRM_MODE_FLAG_3D_SIDE_BY_SIDE_FULL : Z := Z.shiftl 4 14.
Definition DRM_MODE_FLAG_3D_L_DEPTH : Z := Z.shiftl 5 14.
Definition DRM_MODE_FLAG_3D_L_DEPTH_GFX_GFX_DEPTH : Z := Z.shiftl 6 14.
Definition DRM_MODE_FLAG_3D_TOP_AND_BOTTOM : Z := Z.shiftl 7 14.
Definition DRM_MODE_FLAG_3D_SIDE_BY_SIDE_HALF : Z := Z.shiftl 8 14.

Definition DRM_MODE_CONNECTED : Z := 1.
Definition DRM_MODE_DISCONNECTED : Z := 2.
Definition DRM_MODE_UNKNOWNCONNECTION : Z := 3.

Definition DRM_MODE_PAGE_FLIP_EVENT : Z := 1.

Definition ENOENT : Z := 2.
Definition EXIT_FAILURE : Z := 1.

(* ================================================================== *)
(** * Data model *)

(** [drmModeModeInfo], with the fields the program reads and the ones
    that tell two timings of one size apart. *)
Record drmModeModeInfo : Type := {
  clock : Z;
  hdisplay : Z;       (* uint16_t *)
  vdisplay : Z;       (* uint16_t *)
  vtotal : Z;         (* uint16_t *)
  vrefresh : Z;
  flags : Z           (* uint32_t *)
}.

Definition mode_ok (m : drmModeModeInfo) : Prop :=
  in_u16 (hdisplay m) /\ in_u16 (vdisplay m) /\ in_u16 (vtotal m) /\
  in_u32 (flags m).

Record mode_layout : Type := {
  buffer_width : Z;
  buffer_height : Z;
  eye_width : Z;
  eye_height : Z;
  virtual_eye_width : Z;
  virtual_eye_height : Z;
  right_eye_x : Z;
  left_eye_y : Z
}.

Definition zero_layout : mode_layout :=
  {| buffer_width := 0; buffer_height := 0; eye_width := 0; eye_height := 0;
     virtual_eye_width := 0; virtual_eye_height := 0;
     right_eye_x := 0; left_eye_y := 0 |}.

Definition zero_mode : drmModeModeInfo :=
  {| clock := 0; hdisplay := 0; vdisplay := 0; vtotal := 0; vrefresh := 0;
     flags := 0 |}.

(** [drmModeCrtc]: a controller configuration as [drmModeGetCrtc] reports it. *)
Record drmModeCrtc : Type := {
  crtc_id : Z;
  buffer_id : Z;
  crtc_x : Z;
  crtc_y : Z;
  crtc_mode : drmModeModeInfo
}.

Record gbm_dev : Type := {
  fd : Z;
  layout : mode_layout;
  mode : drmModeModeInfo;
  conn : Z;
  crtc : Z;
  saved_crtc : option drmModeCrtc;
  pending_swap : Z
}.

Record stereo_options : Type := {
  card : option string;
  stereo_layout : option string;
  connector : Z
}.

Record stereo_mode : Type := {
  mode_number : Z;
  short_name : string;
  long_name : string
}.

Definition stereo_modes : list stereo_mode :=
  [ {| mode_number := DRM_MODE_FLAG_3D_NONE;
       short_name := "none"; long_name := "none" |};
    {| mode_number := DRM_MODE_FLAG_3D_FRAME_PACKING;
       short_name := "fp"; long_name := "frame packing" |};
    {| mode_number := DRM_MODE_FLAG_3D_FIELD_ALTERNATIVE;
       short_name := "fa"; long_name := "field alternative" |};
    {| mode_number := DRM_MODE_FLAG_3D_LINE_ALTERNATIVE;
       short_name := "la"; long_name := "line alternative" |};
    {| mode_number := DRM_MODE_FLAG_3D_SIDE_BY_SIDE_FULL;
       short_name := "sbsf"; long_name := "side by side full" |};
    {| mode_number := DRM_MODE_FLAG_3D_L_DEPTH;
       short_name := "ld"; long_name := "l depth" |};
    {| mode_number := DRM_MODE_FLAG_3D_L_DEPTH_GFX_GFX_DEPTH;
       short_name := "ldggd"; long_name := "l depth gfx gfx depth" |};
    {| mode_number := DRM_MODE_FLAG_3D_TOP_AND_BOTTOM;
       short_name := "tb"; long_name := "top and bottom" |};
    {| mode_number := DRM_MODE_FLAG_3D_SIDE_BY_SIDE_HALF;
       short_name := "sbsh"; long_name := "side by side half" |} ].

(** The packing tags of the enumeration, and the flag bits of each. *)
Inductive packing : Type :=
| PNone | FramePacking | FieldAlternative | LineAlternative
| SideBySideFull | LDepth | LDepthGfxGfxDepth | TopAndBottom
| SideBySideHalf.

Definition packing_flag (p : packing) : Z :=
  match p with
  | PNone => DRM_MODE_FLAG_3D_NONE
  | FramePacking => DRM_MODE_FLAG_3D_FRAME_PACKING
  | FieldAlternative => DRM_MODE_FLAG_3D_FIELD_ALTERNATIVE
  | LineAlternative => DRM_MODE_FLAG_3D_LINE_ALTERNATIVE
  | SideBySideFull => DRM_MODE_FLAG_3D_SIDE_BY_SIDE_FULL
  | LDepth => DRM_MODE_FLAG_3D_L_DEPTH
  | LDepthGfxGfxDepth => DRM_MODE_FLAG_3D_L_DEPTH_GFX_GFX_DEPTH
  | TopAndBottom => DRM_MODE_FLAG_3D_TOP_AND_BOTTOM
  | SideBySideHalf => DRM_MODE_FLAG_3D_SIDE_BY_SIDE_HALF
  end.

Definition all_packings : list packing :=
  [PNone; FramePacking; FieldAlternative; LineAlternative; SideBySideFull;
   LDepth; LDepthGfxGfxDepth; TopAndBottom; SideBySideHalf].

(** The stereo bits of a mode: [mode->flags & DRM_MODE_FLAG_3D_MASK]. *)
Definition mode_3d (m : drmModeModeInfo) : Z :=
  Z.land (flags m) DRM_MODE_FLAG_3D_MASK.

Definition has_packing (m : drmModeModeInfo) (p : packing) : Prop :=
  mode_3d m = packing_flag p.

(* ================================================================== *)
(** * Mode selection *)

(** [get_stereo_mode]: the first table entry with that number, or [NULL]. *)
Definition get_stereo_mode (number : Z) : option stereo_mode :=
  find (fun s => mode_number s =? number) stereo_modes.

Definition ranks : list Z :=
  [ DRM_MODE_FLAG_3D_NONE;
    DRM_MODE_FLAG_3D_SIDE_BY_SIDE_HALF;
    DRM_MODE_FLAG_3D_TOP_AND_BOTTOM;
    DRM_MODE_FLAG_3D_SIDE_BY_SIDE_FULL;
    DRM_MODE_FLAG_3D_FRAME_PACKING ].

(** The scan [for (i = 0; i < n; i++) if (ranks[i] == layout) return i;]
    over the rest of the table, [i] being the index of its head. *)
Fixpoint rank_scan (rest : list Z) (i : Z) (lay : Z) : Z :=
  match rest with
  | [] => -1
  | r :: rest' => if r =? lay then i else rank_scan rest' (i + 1) lay
  end.

Definition get_mode_rank (m : option drmModeModeInfo) : Z :=
  match m with
  | None => -1
  | Some m => rank_scan ranks 0 (mode_3d m)
  end.

Definition is_chosen_mode (m : drmModeModeInfo) (options : stereo_options)
    (old_mode : option drmModeModeInfo) : outcome bool :=
  let stereo_mode := get_stereo_mode (mode_3d m) in
  rejected <-
    match stereo_layout options with
    | None => Ret false
    | Some want =>
        match stereo_mode with
        | None => Fault
        | Some s => Ret (negb (strcmp (short_name s) want =? 0))
        end
    end ;;
  if rejected then Ret false
  else
    let mode_rank := get_mode_rank (Some m) in
    Ret (negb (mode_rank =? -1) && (get_mode_rank old_mode <? mode_rank)).

(** [drmModeConnector]: [modes] and [encoders] are the arrays with their
    counts. *)
Record drmModeConnector : Type := {
  connector_id : Z;
  encoder_id : Z;
  connection : Z;
  modes : list drmModeModeInfo;
  encoders : list Z
}.

Definition set_mode (dev : gbm_dev) (m : drmModeModeInfo) : gbm_dev :=
  {| fd := fd dev; layout := layout dev; mode := m; conn := conn dev;
     crtc := crtc dev; saved_crtc := saved_crtc dev;
     pending_swap := pending_swap dev |}.

Definition set_layout (dev : gbm_dev) (l : mode_layout) : gbm_dev :=
  {| fd := fd dev; layout := l; mode := mode dev; conn := conn dev;
     crtc := crtc dev; saved_crtc := saved_crtc dev;
     pending_swap := pending_swap dev |}.

Definition set_crtc (dev : gbm_dev) (c : Z) : gbm_dev :=
  {| fd := fd dev; layout := layout dev; mode := mode dev; conn := conn dev;
     crtc := c; saved_crtc := saved_crtc dev;
     pending_swap := pending_swap dev |}.

Definition set_saved_crtc (dev : gbm_dev) (s : option drmModeCrtc) : gbm_dev :=
  {| fd := fd dev; layout := layout dev; mode := mode dev; conn := conn dev;
     crtc := crtc dev; saved_crtc := s;
     pending_swap := pending_swap dev |}.

Definition set_pending_swap (dev : gbm_dev) (p : Z) : gbm_dev :=
  {| fd := fd dev; layout := layout dev; mode := mode dev; conn := conn dev;
     crtc := crtc dev; saved_crtc := saved_crtc dev;
     pending_swap := p |}.

(** A pointer into [conn->modes] is the index of its element. *)
Definition deref (arr : list drmModeModeInfo) (p : option nat)
    : option drmModeModeInfo :=
  match p with
  | None => None
  | Some j => nth_error arr j
  end.

(** The loop of [find_mode] from index [i] on, [rest] being the elements of
    [arr] from [i]; [old_mode] points into [arr]. *)
Fixpoint find_mode_from (arr : list drmModeModeInfo) (options : stereo_options)
    (rest : list drmModeModeInfo) (i : nat) (dev : gbm_dev)
    (old_mode : option nat) : outcome (gbm_dev * option nat) :=
  match rest with
  | [] => Ret (dev, old_mode)
  | m :: rest' =>
      chosen <- is_chosen_mode m options (deref arr old_mode) ;;
      if chosen : bool
      then find_mode_from arr options rest' (S i) (set_mode dev m) (Some i)
      else find_mode_from arr options rest' (S i) dev old_mode
  end.

Definition find_mode (dev : gbm_dev) (c : drmModeConnector)
    (options : stereo_options) : outcome (Z * gbm_dev) :=
  ' (dev', old_mode) <- find_mode_from (modes c) options (modes c) 0 dev None ;;
  Ret (match old_mode with Some _ => 0 | None => - ENOENT end, dev').

(* ================================================================== *)
(** * Layout *)

(** Every case but the default one assigns all eight fields, so the result
    does not depend on what [*layout] held before. *)
Definition get_layout_for_mode (m : drmModeModeInfo) : outcome mode_layout :=
  let tag := mode_3d m in
  if tag =? DRM_MODE_FLAG_3D_NONE then
    let bw := u32 (hdisplay m) in
    let bh := u32 (vdisplay m) in
    let ew := bw in
    let eh := bh in
    Ret {| buffer_width := bw; buffer_height := bh;
           eye_width := ew; eye_height := eh;
           virtual_eye_width := ew; virtual_eye_height := eh;
           right_eye_x := ew; left_eye_y := 0 |}
  else if tag =? DRM_MODE_FLAG_3D_SIDE_BY_SIDE_HALF then
    let bw := u32 (hdisplay m) in
    let bh := u32 (vdisplay m) in
    let ew := u32 (Z.quot (hdisplay m) 2) in
    let eh := u32 (vdisplay m) in
    Ret {| buffer_width := bw; buffer_height := bh;
           eye_width := ew; eye_height := eh;
           virtual_eye_width := bw; virtual_eye_height := eh;
           right_eye_x := ew; left_eye_y := 0 |}
  else if tag =? DRM_MODE_FLAG_3D_SIDE_BY_SIDE_FULL then
    let bw := u32 (hdisplay m * 2) in
    let bh := u32 (vdisplay m) in
    let ew := u32 (hdisplay m) in
    let eh := u32 (vdisplay m) in
    Ret {| buffer_width := bw; buffer_height := bh;
           eye_width := ew; eye_height := eh;
           virtual_eye_width := ew; virtual_eye_height := eh;
           right_eye_x := ew; left_eye_y := 0 |}
  else if tag =? DRM_MODE_FLAG_3D_TOP_AND_BOTTOM then
    let bw := u32 (hdisplay m) in
    let bh := u32 (vdisplay m) in
    let ew := u32 (hdisplay m) in
    let eh := u32 (Z.quot (vdisplay m) 2) in
    Ret {| buffer_width := bw; buffer_height := bh;
           eye_width := ew; eye_height := eh;
           virtual_eye_width := ew; virtual_eye_height := bh;
           right_eye_x := 0; left_eye_y := eh |}
  else if tag =? DRM_MODE_FLAG_3D_FRAME_PACKING then
    let bw := u32 (hdisplay m) in
    let bh := u32 (vtotal m + vdisplay m) in
    let ew := u32 (hdisplay m) in
    let eh := u32 (vdisplay m) in
    Ret {| buffer_width := bw; buffer_height := bh;
           eye_width := ew; eye_height := eh;
           virtual_eye_width := ew; virtual_eye_height := eh;
           right_eye_x := 0; left_eye_y := u32 (vtotal m) |}
  else Abort.

(** The rectangle [set_eye] hands to [glViewport]. *)
Record viewport : Type := { vx : Z; vy : Z; vw : Z; vh : Z }.

Definition set_eye (l : mode_layout) (eye : Z) : viewport :=
  if eye =? 0
  then {| vx := 0; vy := left_eye_y l; vw := eye_width l; vh := eye_height l |}
  else {| vx := right_eye_x l; vy := 0; vw := eye_width l; vh := eye_height l |}.

(** A viewport that lies inside the buffer of the layout. *)
Definition inside_buffer (l : mode_layout) (v : viewport) : Prop :=
  0 <= vx v /\ 0 <= vy v /\
  vx v + vw v <= buffer_width l /\ vy v + vh v <= buffer_height l.

(* ================================================================== *)
(** * Output discovery *)

Record drmModeEncoder : Type := {
  enc_id : Z;
  enc_crtc_id : Z;
  possible_crtcs : Z
}.

Record drmModeRes : Type := {
  connectors : list Z;
  crtcs : list Z
}.

(** The device behind the file descriptor, as libdrm answers for it, and
    what the memory of an encoder holds at [crtc_id] once
    [drmModeFreeEncoder] has freed it: [stereo_find_crtc] reads the field
    after the free, which C leaves undefined. *)
Record drm_device : Type := {
  drmModeGetResources : option drmModeRes;
  drmModeGetConnector : Z -> option drmModeConnector;
  drmModeGetEncoder : Z -> option drmModeEncoder;
  crtc_id_after_free : drmModeEncoder -> Z
}.

(** The inner loop of [stereo_find_crtc] over the global controllers, from
    index [j] on: the first non-zero controller the encoder can drive.
    [1 << j] is a shift of an [int], which C defines for [j] up to 30; at
    31 the compilers give the sign bit, and from 32 on the processor takes
    the count modulo 32.  The model shifts by [j mod 32] and reads the
    result as the [uint32_t] the [&] converts it to. *)
Fixpoint scan_crtcs (enc : drmModeEncoder) (rest : list Z) (j : Z) : option Z :=
  match rest with
  | [] => None
  | c :: rest' =>
      if Z.land (possible_crtcs enc) (u32 (Z.shiftl 1 (j mod 32))) =? 0
      then scan_crtcs enc rest' (j + 1)
      else if 0 <? c then Some c
      else scan_crtcs enc rest' (j + 1)
  end.

(** The outer loop over [conn->encoders]. *)
Fixpoint scan_encoders (drm : drm_device) (res : drmModeRes) (rest : list Z)
    : option Z :=
  match rest with
  | [] => None
  | e :: rest' =>
      match drmModeGetEncoder drm e with
      | None => scan_encoders drm res rest'
      | Some enc =>
          match scan_crtcs enc (crtcs res) 0 with
          | Some c => Some c
          | None => scan_encoders drm res rest'
          end
      end
  end.

(** The attached encoder is dereferenced without a check.  Its [crtc_id]
    is tested before [drmModeFreeEncoder] and read once more after it:
    what is stored in [dev->crtc] is what the freed memory holds. *)
Definition stereo_find_crtc (drm : drm_device) (res : drmModeRes)
    (c : drmModeConnector) (dev : gbm_dev) : outcome (Z * gbm_dev) :=
  attached <-
    (if encoder_id c =? 0 then Ret None
     else match drmModeGetEncoder drm (encoder_id c) with
          | None => Fault
          | Some enc =>
              if 0 <? enc_crtc_id enc
              then Ret (Some (crtc_id_after_free drm enc))
              else Ret None
          end) ;;
  match attached with
  | Some id => Ret (0, set_crtc dev id)
  | None =>
      match scan_encoders drm res (encoders c) with
      | Some id => Ret (0, set_crtc dev id)
      | None => Ret (- ENOENT, dev)
      end
  end.

Definition stereo_setup_dev (drm : drm_device) (res : drmModeRes)
    (c : drmModeConnector) (options : stereo_options) (dev : gbm_dev)
    : outcome (Z * gbm_dev) :=
  if negb (connection c =? DRM_MODE_CONNECTED) then Ret (- ENOENT, dev)
  else
    ' (ret, dev) <- find_mode dev c options ;;
    if negb (ret =? 0) then Ret (ret, dev)
    else
      l <- get_layout_for_mode (mode dev) ;;
      let dev := set_layout dev l in
      (* the message reads get_stereo_mode(mode_3d)->long_name *)
      _ <- match get_stereo_mode (mode_3d (mode dev)) with
           | None => Fault
           | Some s => Ret (long_name s)
           end ;;
      stereo_find_crtc drm res c dev.

(** The loop of [get_connector] over [res->connectors]. *)
Fixpoint get_connector_from (drm : drm_device) (rest : list Z)
    (options : stereo_options) : option drmModeConnector :=
  match rest with
  | [] => None
  | id :: rest' =>
      match drmModeGetConnector drm id with
      | None => None
      | Some c =>
          if (connector options =? 0) || (connector_id c =? connector options)
          then Some c
          else get_connector_from drm rest' options
      end
  end.

Definition get_connector (drm : drm_device) (res : drmModeRes)
    (options : stereo_options) : option drmModeConnector :=
  get_connector_from drm (connectors res) options.

(** The device structure after [xmalloc] and [memset]. *)
Definition fresh_dev (fd0 conn0 : Z) : gbm_dev :=
  {| fd := fd0; layout := zero_layout; mode := zero_mode; conn := conn0;
     crtc := 0; saved_crtc := None; pending_swap := 0 |}.

Definition stereo_prepare_dev (drm : drm_device) (fd0 : Z)
    (options : stereo_options) : outcome (option gbm_dev) :=
  match drmModeGetResources drm with
  | None => Ret None
  | Some res =>
      match get_connector drm res options with
      | None => Ret None
      | Some c =>
          let dev := fresh_dev fd0 (connector_id c) in
          ' (ret, dev) <- stereo_setup_dev drm res c options dev ;;
          if negb (ret =? 0) then Ret None else Ret (Some dev)
      end
  end.

(* ================================================================== *)
(** * Presenting a frame *)

Record gbm_bo : Type := {
  bo_width : Z;
  bo_height : Z;
  bo_stride : Z;
  bo_handle : Z
}.

(** The part of [struct gbm_context] that changes while frames are shown;
    the gbm and EGL handles stay what [stereo_prepare_context] made them. *)
Record gbm_context : Type := {
  current_fb_id : Z;
  current_bo : option gbm_bo
}.

(** [winsys->dev] and [winsys->context]; [context->dev] is the same
    device structure. *)
Record stereo_winsys : Type := {
  dev : gbm_dev;
  context : gbm_context
}.

(** The calls that leave the program while a frame is presented, with
    their arguments and, where the program looks at it, their answer. *)
Inductive call : Type :=
| EglSwapBuffers
| LockFrontBuffer (bo : gbm_bo)
| AddFB (width height depth bpp stride handle : Z) (fb_id : option Z)
| GetCrtc (id : Z) (answer : option drmModeCrtc)
| SetCrtc (id fb x y : Z) (conns : list Z) (m : drmModeModeInfo) (ret : Z)
| PageFlip (id fb flip_flags : Z) (ret : Z)
| HandleEvent (flip_completed : bool)
| RmFB (fb : Z)
| ReleaseBuffer (bo : gbm_bo)
| Stderr (msg : string).

(** How the outside answers during one call of [swap]. *)
Record swap_env : Type := {
  front_buffer : gbm_bo;           (* gbm_surface_lock_front_buffer *)
  add_fb : option Z;               (* drmModeAddFB: the id, or a failure *)
  get_crtc : option drmModeCrtc;   (* drmModeGetCrtc *)
  set_crtc_ret : Z;                (* drmModeSetCrtc *)
  set_crtc_errno : Z;              (* errno when set_initial_crtc returns it *)
  page_flip_ret : Z;               (* drmModePageFlip *)
  events : list bool               (* per drmHandleEvent: was the handler run *)
}.

(** Whether a call came back, or is still inside [wait_swap] with every
    answer of the environment used up. *)
Inductive status : Type := Returned | Blocked.

Definition free_current_bo (ctx : gbm_context) : gbm_context * list call :=
  let '(ctx, t1) :=
    if negb (current_fb_id ctx =? 0)
    then ({| current_fb_id := 0; current_bo := current_bo ctx |},
          [RmFB (current_fb_id ctx)])
    else (ctx, []) in
  let '(ctx, t2) :=
    match current_bo ctx with
    | Some bo => ({| current_fb_id := current_fb_id ctx; current_bo := None |},
                  [ReleaseBuffer bo])
    | None => (ctx, [])
    end in
  (ctx, t1 ++ t2).

Definition page_flip_handler (d : gbm_dev) : gbm_dev := set_pending_swap d 0.

(** [while (dev->pending_swap) drmHandleEvent(...)], one answer of
    [evs] per round. *)
Fixpoint wait_swap (evs : list bool) (d : gbm_dev)
    : status * gbm_dev * list call :=
  if pending_swap d =? 0 then (Returned, d, [])
  else
    match evs with
    | [] => (Blocked, d, [])
    | completed :: evs' =>
        let d' := if completed : bool then page_flip_handler d else d in
        let '(s, d'', t) := wait_swap evs' d' in
        (s, d'', HandleEvent completed :: t)
    end.

Definition set_initial_crtc (env : swap_env) (d : gbm_dev) (fb_id : Z)
    : Z * gbm_dev * list call :=
  let d := set_saved_crtc d (get_crtc env) in
  let t := [GetCrtc (crtc d) (get_crtc env);
            SetCrtc (crtc d) fb_id 0 0 [conn d] (mode d) (set_crtc_ret env)] in
  if negb (set_crtc_ret env =? 0)
  then (set_crtc_errno env, d, t ++ [Stderr "Failed to set drm mode: %m\n"])
  else (0, d, t).

Definition swap (env : swap_env) (w : stereo_winsys)
    : status * stereo_winsys * list call :=
  let d := dev w in
  let ctx := context w in
  let bo := front_buffer env in
  let t0 := [EglSwapBuffers; LockFrontBuffer bo;
             AddFB (bo_width bo) (bo_height bo) 24 32 (bo_stride bo)
                   (bo_handle bo) (add_fb env)] in
  match add_fb env with
  | None =>
      (Returned, w,
       t0 ++ [Stderr "Failed to create new back buffer handle: %m\n"])
  | Some fb_id =>
      let '(ret, d, t1) :=
        match saved_crtc d with
        | None => set_initial_crtc env d fb_id
        | Some _ => (0, d, [])
        end in
      if negb (ret =? 0)
      then (Returned, {| dev := d; context := ctx |}, t0 ++ t1)
      else
        let t2 := [PageFlip (crtc d) fb_id DRM_MODE_PAGE_FLIP_EVENT
                            (page_flip_ret env)] in
        if negb (page_flip_ret env =? 0)
        then (Returned, {| dev := d; context := ctx |},
              t0 ++ t1 ++ t2 ++ [Stderr "Failed to page flip: %m\n"])
        else
          let d := set_pending_swap d 1 in
          let '(s, d, t3) := wait_swap (events env) d in
          match s with
          | Blocked =>
              (Blocked, {| dev := d; context := ctx |}, t0 ++ t1 ++ t2 ++ t3)
          | Returned =>
              let '(ctx, t4) := free_current_bo ctx in
              let ctx := {| current_fb_id := fb_id; current_bo := Some bo |} in
              (Returned, {| dev := d; context := ctx |},
               t0 ++ t1 ++ t2 ++ t3 ++ t4)
          end
  end.

(** The presenting half of [main_loop]: one [swap] per frame until [quit]
    is seen, [frames] holding the answers of the outside for each round. *)
Fixpoint main_loop (frames : list swap_env) (w : stereo_winsys)
    : status * stereo_winsys * list call :=
  match frames with
  | [] => (Returned, w, [])
  | env :: frames' =>
      let '(s, w', t) := swap env w in
      match s with
      | Blocked => (Blocked, w', t)
      | Returned =>
          let '(s', w'', t') := main_loop frames' w' in
          (s', w'', t ++ t')
      end
  end.

(** Observations on a trace. *)
Definition is_release (c : call) : bool :=
  match c with
  | RmFB _ | ReleaseBuffer _ => true
  | _ => false
  end.

Definition is_modeset (c : call) : bool :=
  match c with
  | SetCrtc _ _ _ _ _ _ _ => true
  | _ => false
  end.

Definition is_capture (c : call) : bool :=
  match c with
  | GetCrtc _ _ => true
  | _ => false
  end.

Definition is_flip (c : call) : bool :=
  match c with
  | PageFlip _ _ _ _ => true
  | _ => false
  end.

Definition count (p : call -> bool) (t : list call) : nat :=
  List.length (filter p t).

Definition reaches_display (env : swap_env) : bool :=
  match add_fb env with
  | Some _ => true
  | None => false
  end.

(* ================================================================== *)
(** * Command line *)

Definition code (c : ascii) : Z := Z.of_N (N_of_ascii c).

(** [strchr] of libc: the rest of [s] from the first [c] on, or [NULL]. *)
Fixpoint strchr (s : string) (c : ascii) : option string :=
  match s with
  | EmptyString => None
  | String a s' => if Ascii.eqb a c then Some s else strchr s' c
  end.

(** The variables [getopt] of libc keeps between calls. *)
Record getopt_state : Type := {
  optind : nat;
  nextchar : string;
  optarg : option string
}.

Definition getopt_init : getopt_state :=
  {| optind := 1; nextchar := ""; optarg := None |}.

(** [getopt] at the option character [c], [rest] being what follows it in
    its element of [argv]; [spec] is the option string without its mode
    character. *)
Definition getopt_char (argv : list string) (spec : string) (c : ascii)
    (rest : string) (st : getopt_state) : Z * getopt_state :=
  let ind := match rest with
             | EmptyString => S (optind st)
             | _ => optind st
             end in
  let unknown := (code "?", {| optind := ind; nextchar := rest; optarg := None |}) in
  match strchr spec c with
  | None => unknown
  | Some temp =>
      if Ascii.eqb c ":" || Ascii.eqb c ";" then unknown
      else
        match temp with
        | String _ (String ":" (String ":" _)) =>
            match rest with
            | EmptyString =>
                (code c, {| optind := ind; nextchar := ""; optarg := None |})
            | _ =>
                (code c, {| optind := S ind; nextchar := ""; optarg := Some rest |})
            end
        | String _ (String ":" _) =>
            match rest with
            | EmptyString =>
                match nth_error argv ind with
                | None =>
                    (match spec with
                     | String ":" _ => code ":"
                     | _ => code "?"
                     end,
                     {| optind := ind; nextchar := ""; optarg := None |})
                | Some a =>
                    (code c, {| optind := S ind; nextchar := ""; optarg := Some a |})
                end
            | _ =>
                (code c, {| optind := S ind; nextchar := ""; optarg := Some rest |})
            end
        | _ => (code c, {| optind := ind; nextchar := rest; optarg := None |})
        end
  end.

(** One call of [getopt(argc, argv, optstring)] of the GNU C library for
    short options.  An option string that starts with ['-'] hands every
    argument that is no option back as the argument of option code 1; the
    model stops at the first such argument otherwise. *)
Definition getopt (argv : list string) (optstring : string)
    (st : getopt_state) : Z * getopt_state :=
  let in_order := match optstring with
                  | String "-" _ => true
                  | _ => false
                  end in
  let spec := match optstring with
              | String "-" s => s
              | String "+" s => s
              | s => s
              end in
  match nextchar st with
  | String c rest => getopt_char argv spec c rest st
  | EmptyString =>
      match nth_error argv (optind st) with
      | None => (-1, {| optind := optind st; nextchar := ""; optarg := None |})
      | Some arg =>
          if String.eqb arg "--"
          then (-1, {| optind := S (optind st); nextchar := ""; optarg := None |})
          else
            match arg with
            | String "-" (String c rest) => getopt_char argv spec c rest st
            | _ =>
                if in_order : bool
                then (1, {| optind := S (optind st); nextchar := "";
                            optarg := Some arg |})
                else (-1, {| optind := optind st; nextchar := ""; optarg := None |})
            end
      end
  end.

(** [atoi] as glibc has it, [(int) strtol (nptr, NULL, 10)]: white space,
    an optional sign and the digits that follow; [strtol] gives [LONG_MAX]
    or [LONG_MIN] for a number outside [long], and the conversion to [int]
    keeps the low 32 bits. *)
Definition is_space (c : ascii) : bool :=
  let n := code c in (n =? 32) || ((9 <=? n) && (n <=? 13)).

Definition is_digit (c : ascii) : bool :=
  let n := code c in (48 <=? n) && (n <=? 57).

Fixpoint skip_spaces (s : string) : string :=
  match s with
  | String c s' => if is_space c then skip_spaces s' else s
  | EmptyString => s
  end.

Fixpoint digits (s : string) (acc : Z) : Z :=
  match s with
  | String c s' => if is_digit c then digits s' (acc * 10 + (code c - 48)) else acc
  | EmptyString => acc
  end.

Definition strtol (s : string) : Z :=
  let n := match skip_spaces s with
           | String "-" s' => - digits s' 0
           | String "+" s' => digits s' 0
           | s' => digits s' 0
           end in
  Z.max LONG_MIN (Z.min LONG_MAX n).

Definition atoi (s : string) : Z := to_int (strtol s).

Definition args : string := "-c:l:h".

(** How [process_options] ends: it returns, [usage] leaves the process,
    [atoi] is handed [NULL], or the rounds allowed are used up. *)
Inductive cli_result : Type :=
| Parsed (ret : Z) (options : stereo_options)
| Exited (exit_status : Z)
| Crashed
| Unfinished.

Definition set_card (o : stereo_options) (c : option string) : stereo_options :=
  {| card := c; stereo_layout := stereo_layout o; connector := connector o |}.

Definition set_stereo_layout (o : stereo_options) (l : option string)
    : stereo_options :=
  {| card := card o; stereo_layout := l; connector := connector o |}.

Definition set_connector (o : stereo_options) (c : Z) : stereo_options :=
  {| card := card o; stereo_layout := stereo_layout o; connector := c |}.

(** The [while ((opt = getopt(...)) != -1) switch (opt)] loop. *)
Fixpoint process_options_from (rounds : nat) (argv : list string)
    (st : getopt_state) (options : stereo_options) : cli_result :=
  match rounds with
  | O => Unfinished
  | S rounds' =>
      let '(opt, st) := getopt argv args st in
      if opt =? -1 then Parsed 0 options
      else if opt =? code "h" then Exited 0
      else if opt =? code "d" then
        process_options_from rounds' argv st (set_card options (optarg st))
      else if opt =? code "c" then
        match optarg st with
        | None => Crashed
        | Some a =>
            process_options_from rounds' argv st
              (set_connector options (u32 (atoi a)))
        end
      else if opt =? code "l" then
        process_options_from rounds' argv st
          (set_stereo_layout options (optarg st))
      else Parsed EXIT_FAILURE options
  end.

(** The characters and elements of [argv] from index [i] on. *)
Definition chars_from (argv : list string) (i : nat) : nat :=
  fold_right (fun a n => S (String.length a) + n)%nat O (skipn i argv).

(** What [getopt] has still to go through: the rest of the element it is
    in, and the elements after it. *)
Definition work_left (argv : list string) (st : getopt_state) : nat :=
  (String.length (nextchar st)
   + chars_from argv (match nextchar st with
                      | EmptyString => optind st
                      | _ => S (optind st)
                      end))%nat.

(** Every round uses up a character or an element of [argv]. *)
Definition rounds_for (argv : list string) : nat :=
  S (chars_from argv 0).

Definition process_options (argv : list string) : cli_result :=
  process_options_from (rounds_for argv) argv getopt_init
    {| card := None; stereo_layout := None; connector := 0 |}.

(** What [open] and [drmSetClientCap] answer, and [errno] after each. *)
Record os : Type := {
  sys_open : string -> Z;
  open_errno : Z;
  drmSetClientCap : Z -> Z;
  cap_errno : Z
}.

(** The path [stereo_open] opens. *)
Definition device_path (options : stereo_options) : string :=
  match card options with
  | None => "/dev/dri/card0"
  | Some c => c
  end.

(** The return value, and [*out] when it is written. *)
Definition stereo_open (sys : os) (options : stereo_options) : Z * option Z :=
  let fd0 := sys_open sys (device_path options) in
  if fd0 <? 0 then (- open_errno sys, None)
  else if negb (drmSetClientCap sys fd0 =? 0) then (- cap_errno sys, None)
  else (0, Some fd0).

(* ================================================================== *)
(** * Set-up and tear-down *)

(** Constants of [gbm.h] and [EGL/egl.h]. *)
Definition GBM_BO_FORMAT_XRGB8888 : Z := 0.
Definition GBM_BO_USE_SCANOUT : Z := Z.shiftl 1 0.
Definition GBM_BO_USE_RENDERING : Z := Z.shiftl 1 2.
Definition EGL_NO_DISPLAY : Z := 0.
Definition EGL_NO_SURFACE : Z := 0.
Definition EGL_NO_CONTEXT : Z := 0.

(** The handles of [struct gbm_context]; a handle is 0 when it is [NULL]
    or the [EGL_NO_...] value of its kind. *)
Record gbm_handles : Type := {
  gbm : Z;
  gbm_surface : Z;
  edpy : Z;
  egl_config : Z;
  egl_surface : Z;
  egl_context : Z
}.

(** [struct gbm_context] but for [dev], which is [winsys->dev] itself. *)
Record full_context : Type := {
  handles : gbm_handles;
  shown : gbm_context
}.

(** [struct stereo_winsys]: the descriptor, and the device structure with
    the context that points back at it.  A context is there only with its
    device structure, as [winsys_connect] makes them. *)
Record winsys : Type := {
  winsys_fd : Z;
  winsys_bound : option (gbm_dev * option full_context)
}.

(** The calls that leave the program over its whole run, but for memory
    blocks, messages, signal handling and drawing.  [Shown] is a call of the
    kinds the presenting half makes. *)
Inductive sys_call : Type :=
| Shown (c : call)
| Open (path : string) (ret : Z)
| SetClientCap (fd0 ret : Z)
| Close (fd0 : Z)
| GbmCreateDevice (fd0 h : Z)
| EglGetDisplay (native h : Z)
| EglInitialize (dpy : Z) (ok : bool)
| GbmSurfaceCreate (device width height format usage h : Z)
| EglChooseConfig (dpy : Z) (ok : bool) (found : Z)
| EglCreateWindowSurface (dpy config window h : Z)
| EglCreateContext (dpy config h : Z)
| EglMakeCurrent (dpy draw read ctx : Z) (ok : bool)
| EglDestroyContext (dpy ctx : Z)
| EglDestroySurface (dpy surface : Z)
| GbmSurfaceDestroy (surface : Z)
| EglTerminate (dpy : Z)
| GbmDeviceDestroy (device : Z)
| FreeCrtc (cfg : drmModeCrtc)
| CreateRenderer (l : mode_layout).

(** How gbm and EGL answer while the context is made, and what the memory
    [xmalloc] hands out holds where [current_fb_id] and [current_bo] lie:
    [stereo_prepare_context] does not write them. *)
Record egl_env : Type := {
  heap : gbm_context;
  gbm_create_device : Z;
  eglGetDisplay : Z;
  eglInitialize : bool;
  gbm_surface_create : Z;
  eglChooseConfig : bool;
  config_count : Z;
  chosen_config : Z;
  eglCreateWindowSurface : Z;
  eglCreateContext : Z;
  eglMakeCurrent : bool
}.

(** The answers tear-down gets and does not look at. *)
Record teardown_env : Type := {
  restore_ret : Z;
  unbind_ok : bool
}.

Definition restore_saved_crtc (te : teardown_env) (d : gbm_dev)
    : gbm_dev * list sys_call :=
  match saved_crtc d with
  | Some s =>
      (set_saved_crtc d None,
       [Shown (SetCrtc (crtc_id s) (buffer_id s) (crtc_x s) (crtc_y s)
                       [conn d] (crtc_mode s) (restore_ret te));
        FreeCrtc s])
  | None => (d, [])
  end.

Definition stereo_cleanup_dev (te : teardown_env) (d : gbm_dev)
    : list sys_call :=
  snd (restore_saved_crtc te d).

(** The labels of [stereo_prepare_context], from the innermost out. *)
Definition error_gbm_device (h : gbm_handles) : list sys_call :=
  [GbmDeviceDestroy (gbm h)].

Definition error_egl_display (h : gbm_handles) : list sys_call :=
  EglTerminate (edpy h) :: error_gbm_device h.

Definition error_gbm_surface (h : gbm_handles) : list sys_call :=
  GbmSurfaceDestroy (gbm_surface h) :: error_egl_display h.

Definition error_egl_surface (h : gbm_handles) : list sys_call :=
  EglDestroySurface (edpy h) (egl_surface h) :: error_gbm_surface h.

Definition error_egl_context (h : gbm_handles) : list sys_call :=
  EglDestroyContext (edpy h) (egl_context h) :: error_egl_surface h.

Definition stereo_prepare_context (env : egl_env) (d : gbm_dev)
    : option full_context * list sys_call :=
  let h := {| gbm := gbm_create_device env;
              gbm_surface := gbm_surface_create env;
              edpy := eglGetDisplay env;
              egl_config := chosen_config env;
              egl_surface := eglCreateWindowSurface env;
              egl_context := eglCreateContext env |} in
  let t := [GbmCreateDevice (fd d) (gbm h)] in
  if gbm h =? 0 then (None, t)
  else
    let t := t ++ [EglGetDisplay (gbm h) (edpy h)] in
    if edpy h =? EGL_NO_DISPLAY then (None, t ++ error_gbm_device h)
    else
      let t := t ++ [EglInitialize (edpy h) (eglInitialize env)] in
      if negb (eglInitialize env) then (None, t ++ error_gbm_device h)
      else
        let t := t ++ [GbmSurfaceCreate (gbm h)
                         (buffer_width (layout d)) (buffer_height (layout d))
                         GBM_BO_FORMAT_XRGB8888
                         (Z.lor GBM_BO_USE_SCANOUT GBM_BO_USE_RENDERING)
                         (gbm_surface h)] in
        if gbm_surface h =? 0 then (None, t ++ error_egl_display h)
        else
          let t := t ++ [EglChooseConfig (edpy h) (eglChooseConfig env)
                           (config_count env)] in
          if negb (eglChooseConfig env) || (config_count env <? 1)
          then (None, t ++ error_gbm_surface h)
          else
            let t := t ++ [EglCreateWindowSurface (edpy h) (egl_config h)
                             (gbm_surface h) (egl_surface h)] in
            if egl_surface h =? EGL_NO_SURFACE
            then (None, t ++ error_gbm_surface h)
            else
              let t := t ++ [EglCreateContext (edpy h) (egl_config h)
                               (egl_context h)] in
              if egl_context h =? EGL_NO_CONTEXT
              then (None, t ++ error_egl_surface h)
              else
                let t := t ++ [EglMakeCurrent (edpy h) (egl_surface h)
                                 (egl_surface h) (egl_context h)
                                 (eglMakeCurrent env)] in
                if negb (eglMakeCurrent env)
                then (None, t ++ error_egl_context h)
                else (Some {| handles := h; shown := heap env |}, t).

(** [stereo_cleanup_context] writes [saved_crtc] of the device structure
    the context points at: it hands that structure back. *)
Definition stereo_cleanup_context (te : teardown_env) (d : gbm_dev)
    (ctx : full_context) : gbm_dev * list sys_call :=
  let '(d, t1) := restore_saved_crtc te d in
  let '(_, t2) := free_current_bo (shown ctx) in
  let h := handles ctx in
  (d,
   t1 ++ map Shown t2
   ++ [EglMakeCurrent (edpy h) EGL_NO_SURFACE EGL_NO_SURFACE EGL_NO_CONTEXT
         (unbind_ok te)]
   ++ error_egl_context h).

Definition winsys_disconnect (te : teardown_env) (w : winsys)
    : winsys * list sys_call :=
  let t_bound :=
    match winsys_bound w with
    | Some (d, octx) =>
        let '(d, t1) :=
          match octx with
          | Some ctx => stereo_cleanup_context te d ctx
          | None => (d, [])
          end in
        t1 ++ stereo_cleanup_dev te d
    | None => []
    end in
  let t_fd := if winsys_fd w =? -1 then [] else [Close (winsys_fd w)] in
  ({| winsys_fd := -1; winsys_bound := None |}, t_bound ++ t_fd).

(** The calls [stereo_open] makes. *)
Definition stereo_open_calls (sys : os) (options : stereo_options)
    : list sys_call :=
  let fd0 := sys_open sys (device_path options) in
  Open (device_path options) fd0
  :: (if fd0 <? 0 then []
      else SetClientCap fd0 (drmSetClientCap sys fd0)
           :: (if negb (drmSetClientCap sys fd0 =? 0) then [Close fd0]
               else [])).

Definition winsys_connect (sys : os) (drm : drm_device) (env : egl_env)
    (te : teardown_env) (options : stereo_options) (w : winsys)
    : outcome (Z * winsys * list sys_call) :=
  let '(ret, out) := stereo_open sys options in
  let t := stereo_open_calls sys options in
  let w := match out with
           | Some fd0 => {| winsys_fd := fd0; winsys_bound := winsys_bound w |}
           | None => w
           end in
  if negb (ret =? 0)
  then let '(w, t') := winsys_disconnect te w in Ret (ret, w, t ++ t')
  else
    od <- stereo_prepare_dev drm (winsys_fd w) options ;;
    match od with
    | None =>
        let '(w, t') := winsys_disconnect te w in Ret (- ENOENT, w, t ++ t')
    | Some d =>
        let w := {| winsys_fd := winsys_fd w; winsys_bound := Some (d, None) |} in
        let '(octx, t_ctx) := stereo_prepare_context env d in
        match octx with
        | None =>
            let '(w, t') := winsys_disconnect te w in
            Ret (- ENOENT, w, t ++ t_ctx ++ t')
        | Some ctx =>
            Ret (0,
                 {| winsys_fd := winsys_fd w;
                    winsys_bound := Some (d, Some ctx) |},
                 t ++ t_ctx)
        end
    end.

(** [winsys_free] after a failed [winsys_connect] disconnects once more. *)
Definition create_winsys (sys : os) (drm : drm_device) (env : egl_env)
    (te : teardown_env) (options : stereo_options)
    : outcome (option winsys * list sys_call) :=
  ' (ret, w, t) <- winsys_connect sys drm env te options
                     {| winsys_fd := -1; winsys_bound := None |} ;;
  if negb (ret =? 0)
  then let '(_, t') := winsys_disconnect te w in Ret (None, t ++ t')
  else Ret (Some w, t).

(** How [main] ends: with an exit status, or never, inside [wait_swap]. *)
Inductive main_end : Type :=
| Exit (exit_code : Z)
| Hangs.

(** [main], with [frames] the rounds of the loop before [quit] is seen.
    The renderer stands for [create_renderer]; its drawing is not traced. *)
Definition main (sys : os) (drm : drm_device) (env : egl_env)
    (te : teardown_env) (argv : list string) (frames : list swap_env)
    : outcome (main_end * list sys_call) :=
  match process_options argv with
  | Exited code0 => Ret (Exit code0, [])
  | Crashed => Fault
  | Unfinished => Fault
  | Parsed ret options =>
      if negb (ret =? 0) then Ret (Exit ret, [])
      else
        ' (ow, t) <- create_winsys sys drm env te options ;;
        match ow with
        | None => Ret (Exit EXIT_FAILURE, t)
        | Some w =>
            match winsys_bound w with
            | Some (d, Some ctx) =>
                let t := t ++ [CreateRenderer (layout d)] in
                let '(s, sw, t_loop) :=
                  main_loop frames {| dev := d; context := shown ctx |} in
                match s with
                | Blocked => Ret (Hangs, t ++ map Shown t_loop)
                | Returned =>
                    let w :=
                      {| winsys_fd := winsys_fd w;
                         winsys_bound :=
                           Some (dev sw,
                                 Some {| handles := handles ctx;
                                         shown := context sw |}) |} in
                    let '(_, t_down) := winsys_disconnect te w in
                    Ret (Exit 0, t ++ map Shown t_loop ++ t_down)
                end
            | _ => Fault
            end
        end
  end.

(** What a run holds on to: a descriptor, a gbm device, an initialised
    display, a gbm surface, an EGL surface, an EGL context. *)
Inductive resource : Type :=
| RFile (fd0 : Z)
| RGbmDevice (h : Z)
| RDisplay (h : Z)
| RGbmSurface (h : Z)
| REglSurface (h : Z)
| REglContext (h : Z).

Definition acquired (t : list sys_call) : list resource :=
  flat_map (fun c =>
              match c with
              | Open _ ret => if ret <? 0 then [] else [RFile ret]
              | GbmCreateDevice _ h => if h =? 0 then [] else [RGbmDevice h]
              | EglInitialize dpy ok => if ok then [RDisplay dpy] else []
              | GbmSurfaceCreate _ _ _ _ _ h =>
                  if h =? 0 then [] else [RGbmSurface h]
              | EglCreateWindowSurface _ _ _ h =>
                  if h =? 0 then [] else [REglSurface h]
              | EglCreateContext _ _ h =>
                  if h =? 0 then [] else [REglContext h]
              | _ => []
              end) t.

Definition given_up (t : list sys_call) : list resource :=
  flat_map (fun c =>
              match c with
              | Close fd0 => [RFile fd0]
              | GbmDeviceDestroy h => [RGbmDevice h]
              | EglTerminate h => [RDisplay h]
              | GbmSurfaceDestroy h => [RGbmSurface h]
              | EglDestroySurface _ h => [REglSurface h]
              | EglDestroyContext _ h => [REglContext h]
              | _ => []
              end) t.

(** The configurations put back and freed. *)
Definition restored (t : list sys_call) : list drmModeCrtc :=
  flat_map (fun c => match c with FreeCrtc s => [s] | _ => [] end) t.

(** The calls of the presenting kinds among the calls of a run. *)
Definition display_calls (t : list sys_call) : list call :=
  flat_map (fun c => match c with Shown c' => [c'] | _ => [] end) t.

(** What a context holds, in the order it was taken. *)
Definition held (h : gbm_handles) : list resource :=
  [RGbmDevice (gbm h); RDisplay (edpy h); RGbmSurface (gbm_surface h);
   REglSurface (egl_surface h); REglContext (egl_context h)].

(** A window system that holds nothing, as [create_winsys] starts. *)
Definition unconnected : winsys :=
  {| winsys_fd := -1; winsys_bound := None |}.

(* ================================================================== *)
(** * The gear wheels *)

Definition STRIPS_PER_TOOTH : Z := 7.
Definition VERTICES_PER_TOOTH : Z := 34.

(** [struct vertex_strip]. *)
Record vertex_strip : Type := {
  strip_first : Z;
  strip_count : Z
}.

(** What [SET_NORMAL] is given: a face of the wheel, [SET_NORMAL(0, 0, z)],
    or the flank between two points of the tooth, as in
    [QUAD_WITH_NORMAL(p1, p2)]. *)
Inductive gear_normal : Type :=
| Face (z : Z)
| Flank (p1 p2 : Z).

(** A vertex as [vert] is asked to fill it: point [p[point]] of tooth
    [of_tooth], the sign of z and the normal.  The arithmetic on [GLfloat]
    that makes six numbers of these is left out. *)
Record GearVertex : Type := {
  of_tooth : Z;
  point : Z;
  sign : Z;
  normal : gear_normal
}.

(** Whether each allocation of [create_gear] gives a block. *)
Record gear_memory : Type := {
  malloc_gear : bool;
  calloc_strips : bool;
  calloc_vertices : bool
}.

(** The wheel while it is built.  [v] only ever moves on by one, and so
    does [cur_strip]: the vertices before [v] and the strips before
    [cur_strip] are kept as lists, with the number of elements the blocks
    of [calloc] have room for, and [first] of the strip at [cur_strip].
    A block that [calloc] did not give has room for nothing: [create_gear]
    does not look at what [calloc] returns. *)
Record gear_build : Type := {
  filled : list GearVertex;
  vertices_size : Z;
  finished : list vertex_strip;
  strips_size : Z;
  started : Z
}.

(** [vert]: a store outside the block, or through [NULL], is a fault. *)
Definition vert (b : gear_build) (x : GearVertex) : outcome gear_build :=
  if Z.of_nat (List.length (filled b)) <? vertices_size b
  then Ret {| filled := filled b ++ [x];
              vertices_size := vertices_size b;
              finished := finished b;
              strips_size := strips_size b;
              started := started b |}
  else Fault.

Definition GEAR_VERT (b : gear_build) (i : Z) (n : gear_normal)
    (point0 sign0 : Z) : outcome gear_build :=
  vert b {| of_tooth := i; point := point0; sign := sign0; normal := n |}.

Definition START_STRIP (b : gear_build) : outcome gear_build :=
  if Z.of_nat (List.length (finished b)) <? strips_size b
  then Ret {| filled := filled b;
              vertices_size := vertices_size b;
              finished := finished b;
              strips_size := strips_size b;
              started := Z.of_nat (List.length (filled b)) |}
  else Fault.

(** After [cur_strip++] the strip at [cur_strip] is as [calloc] left it. *)
Definition END_STRIP (b : gear_build) : outcome gear_build :=
  if Z.of_nat (List.length (finished b)) <? strips_size b
  then Ret {| filled := filled b;
              vertices_size := vertices_size b;
              finished :=
                finished b
                ++ [{| strip_first := started b;
                       strip_count :=
                         Z.of_nat (List.length (filled b)) - started b |}];
              strips_size := strips_size b;
              started := 0 |}
  else Fault.

Definition QUAD_WITH_NORMAL (b : gear_build) (i p1 p2 : Z)
    : outcome gear_build :=
  b <- GEAR_VERT b i (Flank p1 p2) p1 (-1) ;;
  b <- GEAR_VERT b i (Flank p1 p2) p1 1 ;;
  b <- GEAR_VERT b i (Flank p1 p2) p2 (-1) ;;
  GEAR_VERT b i (Flank p1 p2) p2 1.

(** The body of the loop of [create_gear]. *)
Definition tooth (i : Z) (b : gear_build) : outcome gear_build :=
  (* Front face *)
  b <- START_STRIP b ;;
  b <- GEAR_VERT b i (Face 1) 0 1 ;;
  b <- GEAR_VERT b i (Face 1) 1 1 ;;
  b <- GEAR_VERT b i (Face 1) 2 1 ;;
  b <- GEAR_VERT b i (Face 1) 3 1 ;;
  b <- GEAR_VERT b i (Face 1) 4 1 ;;
  b <- GEAR_VERT b i (Face 1) 5 1 ;;
  b <- GEAR_VERT b i (Face 1) 6 1 ;;
  b <- END_STRIP b ;;
  (* Inner face *)
  b <- START_STRIP b ;;
  b <- QUAD_WITH_NORMAL b i 4 6 ;;
  b <- END_STRIP b ;;
  (* Back face *)
  b <- START_STRIP b ;;
  b <- GEAR_VERT b i (Face (-1)) 6 (-1) ;;
  b <- GEAR_VERT b i (Face (-1)) 5 (-1) ;;
  b <- GEAR_VERT b i (Face (-1)) 4 (-1) ;;
  b <- GEAR_VERT b i (Face (-1)) 3 (-1) ;;
  b <- GEAR_VERT b i (Face (-1)) 2 (-1) ;;
  b <- GEAR_VERT b i (Face (-1)) 1 (-1) ;;
  b <- GEAR_VERT b i (Face (-1)) 0 (-1) ;;
  b <- END_STRIP b ;;
  (* Outer face *)
  b <- START_STRIP b ;;
  b <- QUAD_WITH_NORMAL b i 0 2 ;;
  b <- END_STRIP b ;;
  b <- START_STRIP b ;;
  b <- QUAD_WITH_NORMAL b i 1 0 ;;
  b <- END_STRIP b ;;
  b <- START_STRIP b ;;
  b <- QUAD_WITH_NORMAL b i 3 1 ;;
  b <- END_STRIP b ;;
  b <- START_STRIP b ;;
  b <- QUAD_WITH_NORMAL b i 5 3 ;;
  END_STRIP b.

(** [for (i = ...; i < teeth; i++)], with [n] the rounds still to go. *)
Fixpoint teeth_from (n : nat) (i : Z) (b : gear_build) : outcome gear_build :=
  match n with
  | O => Ret b
  | S n' => b <- tooth i b ;; teeth_from n' (i + 1) b
  end.

(** [struct gear], but for the buffer object. *)
Record gear : Type := {
  vertices : list GearVertex;
  nvertices : Z;
  strips : list vertex_strip;
  nstrips : Z
}.

(** [create_gear] for [teeth] teeth, a [GLint]: it returns [NULL] when
    [malloc] gives no wheel.  The products are products of [int]; a
    negative number of elements is more than [calloc] can give. *)
Definition create_gear (mem : gear_memory) (teeth : Z) : outcome (option gear) :=
  if negb (malloc_gear mem) then Ret None
  else
    b <- teeth_from (Z.to_nat teeth) 0
           {| filled := [];
              vertices_size :=
                if calloc_vertices mem
                then to_int (VERTICES_PER_TOOTH * teeth) else 0;
              finished := [];
              strips_size :=
                if calloc_strips mem
                then to_int (STRIPS_PER_TOOTH * teeth) else 0;
              started := 0 |} ;;
    Ret (Some {| vertices := filled b;
                 nvertices := to_int (Z.of_nat (List.length (filled b)));
                 strips := finished b;
                 nstrips := to_int (STRIPS_PER_TOOTH * teeth) |}).

(** The loop of [draw_gear]: the [first] and [count] of each
    [glDrawArrays], with [todo] the rounds still to go from [n] on. *)
Fixpoint draw_strips_from (todo n : nat) (g : gear) : outcome (list (Z * Z)) :=
  match todo with
  | O => Ret []
  | S todo' =>
      match nth_error (strips g) n with
      | Some s =>
          rest <- draw_strips_from todo' (S n) g ;;
          Ret ((strip_first s, strip_count s) :: rest)
      | None => Fault
      end
  end.

Definition draw_gear (g : gear) : outcome (list (Z * Z)) :=
  draw_strips_from (Z.to_nat (nstrips g)) 0 g.

(* ================================================================== *)
(** * What the specification says, and sample inputs *)

(** The ranks the specification gives the packing tags. *)
Definition spec_rank (p : packing) : Z :=
  match p with
  | PNone => 0
  | SideBySideHalf => 1
  | TopAndBottom => 2
  | SideBySideFull => 3
  | FramePacking => 4
  | _ => -1
  end.

Definition ranked (p : packing) : bool := 0 <=? spec_rank p.

(** A mode passes the filter of a requested layout name. *)
Definition candidate (options : stereo_options) (m : drmModeModeInfo) : bool :=
  match stereo_layout options with
  | None => true
  | Some want =>
      match get_stereo_mode (mode_3d m) with
      | Some s => strcmp (short_name s) want =? 0
      | None => false
      end
  end.

(** The stereo bits of a mode name an entry of [stereo_modes]. *)
Definition known_tag (m : drmModeModeInfo) : Prop :=
  get_stereo_mode (mode_3d m) <> None.

(** [is_chosen_mode] does not read through a [NULL] entry: no layout is
    requested, or every mode carries a tag of the table. *)
Definition selector_defined (options : stereo_options)
    (arr : list drmModeModeInfo) : Prop :=
  stereo_layout options = None \/ Forall known_tag arr.

(** The identities of the specification between eye and buffer sizes. *)
Definition size_identities (m : drmModeModeInfo) (l : mode_layout) : Prop :=
  (has_packing m SideBySideHalf \/ has_packing m SideBySideFull ->
   eye_width l * 2 = buffer_width l) /\
  (has_packing m TopAndBottom -> eye_height l * 2 = buffer_height l) /\
  (has_packing m FramePacking ->
   buffer_height l = vtotal m + vdisplay m).

Definition timing (h v vt : Z) (p : packing) : drmModeModeInfo :=
  {| clock := 148500; hdisplay := h; vdisplay := v; vtotal := vt;
     vrefresh := 60; flags := packing_flag p |}.

Definition no_options : stereo_options :=
  {| card := None; stereo_layout := None; connector := 0 |}.

(** What the loop of [find_mode] has established once it is past the
    modes [seen]: nothing was eligible so far, or [old_mode] points at the
    first of the eligible modes of highest rank and [dev->mode] is its copy. *)
Definition best_so_far (options : stereo_options)
    (seen : list drmModeModeInfo) (d : gbm_dev) (old_mode : option nat)
    : Prop :=
  match old_mode with
  | None =>
      forall m, In m seen -> candidate options m = true ->
                get_mode_rank (Some m) = -1
  | Some i =>
      exists m,
        nth_error seen i = Some m /\ mode d = m /\
        candidate options m = true /\ 0 <= get_mode_rank (Some m) /\
        (forall k mk, nth_error seen k = Some mk ->
                      candidate options mk = true ->
                      get_mode_rank (Some mk) <= get_mode_rank (Some m)) /\
        (forall k mk, (k < i)%nat -> nth_error seen k = Some mk ->
                      candidate options mk = true ->
                      get_mode_rank (Some mk) < get_mode_rank (Some m))
  end.

(** The test of [get_connector] on a connector it has retrieved. *)
Definition wanted (options : stereo_options) (c : drmModeConnector) : bool :=
  (connector options =? 0) || (connector_id c =? connector options).

(** [get_connector] retrieves the connector of that id, frees it and
    moves on. *)
Definition skipped (drm : drm_device) (options : stereo_options) (id : Z)
    : Prop :=
  exists c, drmModeGetConnector drm id = Some c /\ wanted options c = false.

(** A device with two outputs: a port with nothing plugged in, enumerated
    first, and a port with a 3D display. *)
Definition port_unplugged : drmModeConnector :=
  {| connector_id := 31; encoder_id := 0;
     connection := DRM_MODE_DISCONNECTED; modes := []; encoders := [50] |}.

Definition port_display : drmModeConnector :=
  {| connector_id := 40; encoder_id := 0;
     connection := DRM_MODE_CONNECTED;
     modes := [timing 1920 1080 1125 PNone;
               timing 1920 1080 1125 FramePacking];
     encoders := [51] |}.

Definition two_ports_res : drmModeRes :=
  {| connectors := [31; 40]; crtcs := [60; 61] |}.

Definition two_ports : drm_device :=
  {| drmModeGetResources := Some two_ports_res;
     drmModeGetConnector := fun id =>
       if id =? 31 then Some port_unplugged
       else if id =? 40 then Some port_display
       else None;
     drmModeGetEncoder := fun id =>
       if id =? 50
       then Some {| enc_id := 50; enc_crtc_id := 0; possible_crtcs := 1 |}
       else if id =? 51
       then Some {| enc_id := 51; enc_crtc_id := 0; possible_crtcs := 3 |}
       else None;
     crtc_id_after_free := fun _ => 2863311530 |}.

(** A trace that holds nothing but rounds of [drmHandleEvent]. *)
Definition only_events (t : list call) : Prop :=
  Forall (fun c => exists completed, c = HandleEvent completed) t.

(** The calls every [swap] starts with, up to the registration. *)
Definition registration (env : swap_env) : list call :=
  [EglSwapBuffers; LockFrontBuffer (front_buffer env);
   AddFB (bo_width (front_buffer env)) (bo_height (front_buffer env)) 24 32
         (bo_stride (front_buffer env)) (bo_handle (front_buffer env))
         (add_fb env)].

(** The capture and the modeset of [set_initial_crtc], back to back. *)
Definition capture_and_modeset (env : swap_env) (d : gbm_dev) (fb : Z)
    : list call :=
  [GetCrtc (crtc d) (get_crtc env);
   SetCrtc (crtc d) fb 0 0 [conn d] (mode d) (set_crtc_ret env)].

Definition flip_request (env : swap_env) (d : gbm_dev) (fb : Z) : call :=
  PageFlip (crtc d) fb DRM_MODE_PAGE_FLIP_EVENT (page_flip_ret env).

(** Frames and states to run [swap] on. *)
Definition sample_bo (handle : Z) : gbm_bo :=
  {| bo_width := 1920; bo_height := 1080; bo_stride := 7680;
     bo_handle := handle |}.

Definition console_config : drmModeCrtc :=
  {| crtc_id := 60; buffer_id := 12; crtc_x := 0; crtc_y := 0;
     crtc_mode := timing 1024 768 806 PNone |}.

Definition bound_dev : gbm_dev :=
  set_crtc (set_mode (fresh_dev 3 40) (timing 1920 1080 1125 PNone)) 60.

(** Right after [winsys_connect]: nothing shown, nothing captured. *)
Definition connected_winsys : stereo_winsys :=
  {| dev := bound_dev;
     context := {| current_fb_id := 0; current_bo := None |} |}.

(** In the middle of the loop: framebuffer 70 on buffer 1 is shown. *)
Definition showing_winsys : stereo_winsys :=
  {| dev := set_saved_crtc bound_dev (Some console_config);
     context := {| current_fb_id := 70; current_bo := Some (sample_bo 1) |} |}.

(** [drmModeAddFB] fails. *)
Definition frame_rejected : swap_env :=
  {| front_buffer := sample_bo 2; add_fb := None;
     get_crtc := Some console_config; set_crtc_ret := 0; set_crtc_errno := 0;
     page_flip_ret := 0; events := [true] |}.

(** Everything succeeds but [drmModeGetCrtc], which answers [NULL]. *)
Definition frame_uncaptured : swap_env :=
  {| front_buffer := sample_bo 1; add_fb := Some 70;
     get_crtc := None; set_crtc_ret := 0; set_crtc_errno := 0;
     page_flip_ret := 0; events := [true] |}.

(** Everything succeeds; the flip completes in the second round. *)
Definition frame_shown : swap_env :=
  {| front_buffer := sample_bo 2; add_fb := Some 71;
     get_crtc := Some console_config; set_crtc_ret := 0; set_crtc_errno := 0;
     page_flip_ret := 0; events := [false; true] |}.

(* ================================================================== *)
(** * Notions for the behaviour of the code beyond the specification *)

(** The encoder can drive the controller at index [k] of [res->crtcs]. *)
Definition drives (enc : drmModeEncoder) (k : nat) : Prop :=
  Z.testbit (possible_crtcs enc) (Z.of_nat k) = true.

(** The controller of the encoder the connector is attached to, when the
    connector names one that has a controller. *)
Definition attached_crtc (drm : drm_device) (c : drmModeConnector) : option Z :=
  if encoder_id c =? 0 then None
  else match drmModeGetEncoder drm (encoder_id c) with
       | Some enc => if 0 <? enc_crtc_id enc then Some (enc_crtc_id enc)
                     else None
       | None => None
       end.

(** Encoder [e] of the connector can be retrieved and drives the
    controller [id], listed at index [k] and not 0. *)
Definition usable_through (drm : drm_device) (res : drmModeRes) (e : Z)
    (k : nat) (id : Z) : Prop :=
  exists enc,
    drmModeGetEncoder drm e = Some enc /\
    nth_error (crtcs res) k = Some id /\ drives enc k /\ 0 < id.

Definition usable_crtc (drm : drm_device) (res : drmModeRes)
    (c : drmModeConnector) (id : Z) : Prop :=
  exists e k, In e (encoders c) /\ usable_through drm res e k id.

(** The short name [stereo_modes] gives a packing. *)
Definition packing_name (p : packing) : string :=
  match get_stereo_mode (packing_flag p) with
  | Some s => short_name s
  | None => ""
  end.

(** The framebuffers a trace registers and unregisters, and the buffers
    it locks and hands back, each in the order of the calls. *)
Definition registered (t : list call) : list Z :=
  flat_map (fun c => match c with
                     | AddFB _ _ _ _ _ _ (Some fb) => [fb]
                     | _ => []
                     end) t.

Definition unregistered (t : list call) : list Z :=
  flat_map (fun c => match c with
                     | RmFB fb => [fb]
                     | _ => []
                     end) t.

Definition locked (t : list call) : list gbm_bo :=
  flat_map (fun c => match c with
                     | LockFrontBuffer bo => [bo]
                     | _ => []
                     end) t.

Definition handed_back (t : list call) : list gbm_bo :=
  flat_map (fun c => match c with
                     | ReleaseBuffer bo => [bo]
                     | _ => []
                     end) t.

(** A frame in which the registration gives a framebuffer, the flip is
    accepted and its completion arrives. *)
Definition frame_succeeds (env : swap_env) : Prop :=
  (exists fb, add_fb env = Some fb /\ fb <> 0) /\
  page_flip_ret env = 0 /\ In true (events env).

(** The page flip is refused (EBUSY). *)
Definition frame_flip_refused : swap_env :=
  {| front_buffer := sample_bo 2; add_fb := Some 71;
     get_crtc := None; set_crtc_ret := 0; set_crtc_errno := 0;
     page_flip_ret := -16; events := [] |}.


(** Two rectangles that share no pixel. *)
Definition apart (a b : viewport) : Prop :=
  vx a + vw a <= vx b \/ vx b + vw b <= vx a \/
  vy a + vh a <= vy b \/ vy b + vh b <= vy a.

(** An option with its argument as a word of its own, the way it is
    spelt on the command line, and what it does to the options. *)
Inductive cli_option : Type :=
| Connector (arg : string)
| Layout (name : string).

Definition spell (o : cli_option) : list string :=
  match o with
  | Connector arg => ["-c"; arg]
  | Layout name => ["-l"; name]
  end.

Definition apply_option (options : stereo_options) (o : cli_option)
    : stereo_options :=
  match o with
  | Connector arg => set_connector options (u32 (atoi arg))
  | Layout name => set_stereo_layout options (Some name)
  end.

(** A word [getopt] does not take for an option: it is empty, a lone
    dash, or does not begin with a dash. *)
Definition plain_word (word : string) : Prop :=
  match word with
  | EmptyString => True
  | String c rest => rest = "" \/ c <> "-"%char
  end.

(** A display on a port that is attached to an encoder with a
    controller, on memory that holds something else once it is freed. *)
Definition port_attached : drmModeConnector :=
  {| connector_id := 40; encoder_id := 51;
     connection := DRM_MODE_CONNECTED;
     modes := [timing 1920 1080 1125 PNone];
     encoders := [51] |}.

Definition attached_res : drmModeRes :=
  {| connectors := [40]; crtcs := [60; 61] |}.

Definition attached_device : drm_device :=
  {| drmModeGetResources := Some attached_res;
     drmModeGetConnector := fun id =>
       if id =? 40 then Some port_attached else None;
     drmModeGetEncoder := fun id =>
       if id =? 51
       then Some {| enc_id := 51; enc_crtc_id := 60; possible_crtcs := 3 |}
       else None;
     crtc_id_after_free := fun _ => 2863311530 |}.

(** Memory that gives every block. *)
Definition memory_enough : gear_memory :=
  {| malloc_gear := true; calloc_strips := true; calloc_vertices := true |}.

(** A machine where only the default card opens, as descriptor 3. *)
Definition card0_only : os :=
  {| sys_open := fun path =>
       if String.eqb path "/dev/dri/card0" then 3 else -1;
     open_errno := 2;
     drmSetClientCap := fun _ => 0;
     cap_errno := 22 |}.

(** gbm and EGL that give every handle, on memory that holds zeroes. *)
Definition egl_ready : egl_env :=
  {| heap := {| current_fb_id := 0; current_bo := None |};
     gbm_create_device := 1001;
     eglGetDisplay := 1002;
     eglInitialize := true;
     gbm_surface_create := 1003;
     eglChooseConfig := true;
     config_count := 1;
     chosen_config := 7;
     eglCreateWindowSurface := 1004;
     eglCreateContext := 1005;
     eglMakeCurrent := true |}.

(** The same, but no configuration fits. *)
Definition egl_no_config : egl_env :=
  {| heap := {| current_fb_id := 0; current_bo := None |};
     gbm_create_device := 1001;
     eglGetDisplay := 1002;
     eglInitialize := true;
     gbm_surface_create := 1003;
     eglChooseConfig := true;
     config_count := 0;
     chosen_config := 0;
     eglCreateWindowSurface := 1004;
     eglCreateContext := 1005;
     eglMakeCurrent := true |}.

Definition quiet_teardown : teardown_env :=
  {| restore_ret := 0; unbind_ok := true |}.

(** Ranges that follow one another from [from] up to [upto], none of
    them empty. *)
Fixpoint tiles (ranges : list (Z * Z)) (from upto : Z) : Prop :=
  match ranges with
  | [] => from = upto
  | (f, c) :: rest => f = from /\ 0 < c /\ tiles rest (from + c) upto
  end.

Definition strip_range (s : vertex_strip) : Z * Z :=
  (strip_first s, strip_count s).

(* ================================================================== *)
(** * Facts on integers and strings *)

(** Split a goal into its conjuncts, and nothing else. *)
Ltac conjs := repeat match goal with |- _ /\ _ => split end.

Lemma u32_small (x : Z) : 0 <= x < 2 ^ 32 -> u32 x = x.
Proof. intros H. unfold u32, wrap. apply Z.mod_small. exact H. Qed.

Lemma strcmp_zero_iff (a b : string) : strcmp a b = 0 <-> a = b.
Proof.
  unfold strcmp. split.
  - destruct (String.compare a b) eqn:E; try discriminate.
    intros _. now apply String.compare_eq_iff.
  - intros ->. pose proof (String.compare_antisym b b) as A.
    destruct (String.compare b b); simpl in A; congruence.
Qed.

Lemma packing_flag_injective (p q : packing) :
  packing_flag p = packing_flag q -> p = q.
Proof. destruct p, q; intros H; try reflexivity; discriminate H. Qed.

(* ================================================================== *)
(** * Layout *)

Module LayoutFacts.

(** Decide the tests of a [switch] once its scrutinee is a constant. *)
Ltac decide_tests :=
  repeat match goal with
         | |- context [?a =? ?b] =>
             let v := eval vm_compute in (a =? b) in
             change (a =? b) with v; cbv iota
         end.

(** The five cases of the [switch], one equation each. *)
Lemma layout_none (m : drmModeModeInfo) :
  has_packing m PNone ->
  get_layout_for_mode m =
  Ret {| buffer_width := u32 (hdisplay m); buffer_height := u32 (vdisplay m);
         eye_width := u32 (hdisplay m); eye_height := u32 (vdisplay m);
         virtual_eye_width := u32 (hdisplay m);
         virtual_eye_height := u32 (vdisplay m);
         right_eye_x := u32 (hdisplay m); left_eye_y := 0 |}.
Proof.
  intros H. unfold has_packing in H. unfold get_layout_for_mode. cbv zeta.
  rewrite H.
  decide_tests. reflexivity.
Qed.

Lemma layout_side_by_side_half (m : drmModeModeInfo) :
  has_packing m SideBySideHalf ->
  get_layout_for_mode m =
  Ret {| buffer_width := u32 (hdisplay m); buffer_height := u32 (vdisplay m);
         eye_width := u32 (Z.quot (hdisplay m) 2);
         eye_height := u32 (vdisplay m);
         virtual_eye_width := u32 (hdisplay m);
         virtual_eye_height := u32 (vdisplay m);
         right_eye_x := u32 (Z.quot (hdisplay m) 2); left_eye_y := 0 |}.
Proof.
  intros H. unfold has_packing in H. unfold get_layout_for_mode. cbv zeta.
  rewrite H.
  decide_tests. reflexivity.
Qed.

Lemma layout_side_by_side_full (m : drmModeModeInfo) :
  has_packing m SideBySideFull ->
  get_layout_for_mode m =
  Ret {| buffer_width := u32 (hdisplay m * 2); buffer_height := u32 (vdisplay m);
         eye_width := u32 (hdisplay m); eye_height := u32 (vdisplay m);
         virtual_eye_width := u32 (hdisplay m);
         virtual_eye_height := u32 (vdisplay m);
         right_eye_x := u32 (hdisplay m); left_eye_y := 0 |}.
Proof.
  intros H. unfold has_packing in H. unfold get_layout_for_mode. cbv zeta.
  rewrite H.
  decide_tests. reflexivity.
Qed.

Lemma layout_top_and_bottom (m : drmModeModeInfo) :
  has_packing m TopAndBottom ->
  get_layout_for_mode m =
  Ret {| buffer_width := u32 (hdisplay m); buffer_height := u32 (vdisplay m);
         eye_width := u32 (hdisplay m);
         eye_height := u32 (Z.quot (vdisplay m) 2);
         virtual_eye_width := u32 (hdisplay m);
         virtual_eye_height := u32 (vdisplay m);
         right_eye_x := 0; left_eye_y := u32 (Z.quot (vdisplay m) 2) |}.
Proof.
  intros H. unfold has_packing in H. unfold get_layout_for_mode. cbv zeta.
  rewrite H.
  decide_tests. reflexivity.
Qed.

Lemma layout_frame_packing (m : drmModeModeInfo) :
  has_packing m FramePacking ->
  get_layout_for_mode m =
  Ret {| buffer_width := u32 (hdisplay m);
         buffer_height := u32 (vtotal m + vdisplay m);
         eye_width := u32 (hdisplay m); eye_height := u32 (vdisplay m);
         virtual_eye_width := u32 (hdisplay m);
         virtual_eye_height := u32 (vdisplay m);
         right_eye_x := 0; left_eye_y := u32 (vtotal m) |}.
Proof.
  intros H. unfold has_packing in H. unfold get_layout_for_mode. cbv zeta.
  rewrite H.
  decide_tests. reflexivity.
Qed.

Lemma layout_unranked (m : drmModeModeInfo) (p : packing) :
  has_packing m p -> ranked p = false -> get_layout_for_mode m = Abort.
Proof.
  intros H R. unfold has_packing in H. unfold get_layout_for_mode. cbv zeta.
  rewrite H.
  destruct p; try discriminate R; decide_tests; reflexivity.
Qed.

Lemma layout_ranked (m : drmModeModeInfo) (p : packing) :
  has_packing m p -> ranked p = true ->
  exists l, get_layout_for_mode m = Ret l.
Proof.
  intros H R. destruct p; try discriminate R; eexists.
  - now apply layout_none.
  - now apply layout_frame_packing.
  - now apply layout_side_by_side_full.
  - now apply layout_top_and_bottom.
  - now apply layout_side_by_side_half.
Qed.

(** The layout is defined exactly on the tags that have a rank. *)
Lemma layout_defined_iff_rank (m : drmModeModeInfo) :
  (exists l, get_layout_for_mode m = Ret l) <-> 0 <= get_mode_rank (Some m).
Proof.
  unfold get_layout_for_mode, get_mode_rank, ranks, rank_scan. cbv zeta.
  destruct (Z.eqb_spec (mode_3d m) DRM_MODE_FLAG_3D_NONE) as [->|N0].
  { split; [intros _; vm_compute; discriminate | intros _; eexists; reflexivity]. }
  destruct (Z.eqb_spec (mode_3d m) DRM_MODE_FLAG_3D_SIDE_BY_SIDE_HALF) as [->|N1].
  { split; [intros _; vm_compute; discriminate | intros _; eexists; reflexivity]. }
  destruct (Z.eqb_spec (mode_3d m) DRM_MODE_FLAG_3D_SIDE_BY_SIDE_FULL) as [->|N2].
  { split; [intros _; vm_compute; discriminate | intros _; eexists; reflexivity]. }
  destruct (Z.eqb_spec (mode_3d m) DRM_MODE_FLAG_3D_TOP_AND_BOTTOM) as [->|N3].
  { split; [intros _; vm_compute; discriminate | intros _; eexists; reflexivity]. }
  destruct (Z.eqb_spec (mode_3d m) DRM_MODE_FLAG_3D_FRAME_PACKING) as [->|N4].
  { split; [intros _; vm_compute; discriminate | intros _; eexists; reflexivity]. }
  rewrite !(Z.eqb_sym _ (mode_3d m)).
  rewrite (proj2 (Z.eqb_neq _ _) N0), (proj2 (Z.eqb_neq _ _) N1),
    (proj2 (Z.eqb_neq _ _) N2), (proj2 (Z.eqb_neq _ _) N3),
    (proj2 (Z.eqb_neq _ _) N4).
  split; [intros [l Hl]; discriminate Hl | intros H; exfalso; lia].
Qed.

(** A layout that was computed comes from one of the five ranked tags. *)
Lemma layout_inversion (m : drmModeModeInfo) (l : mode_layout) :
  get_layout_for_mode m = Ret l ->
  exists p, ranked p = true /\ has_packing m p.
Proof.
  unfold get_layout_for_mode, has_packing. cbv zeta.
  destruct (Z.eqb_spec (mode_3d m) DRM_MODE_FLAG_3D_NONE) as [E|_];
    [intros _; now exists PNone|].
  destruct (Z.eqb_spec (mode_3d m) DRM_MODE_FLAG_3D_SIDE_BY_SIDE_HALF) as [E|_];
    [intros _; now exists SideBySideHalf|].
  destruct (Z.eqb_spec (mode_3d m) DRM_MODE_FLAG_3D_SIDE_BY_SIDE_FULL) as [E|_];
    [intros _; now exists SideBySideFull|].
  destruct (Z.eqb_spec (mode_3d m) DRM_MODE_FLAG_3D_TOP_AND_BOTTOM) as [E|_];
    [intros _; now exists TopAndBottom|].
  destruct (Z.eqb_spec (mode_3d m) DRM_MODE_FLAG_3D_FRAME_PACKING) as [E|_];
    [intros _; now exists FramePacking|].
  discriminate.
Qed.

(** A mode has at most one packing. *)
Lemma has_packing_unique (m : drmModeModeInfo) (p q : packing) :
  has_packing m p -> has_packing m q -> p = q.
Proof.
  unfold has_packing. intros H1 H2. apply packing_flag_injective. congruence.
Qed.

(** The sizes of a well-formed mode survive the conversions to [uint32_t]. *)
Lemma sizes_fit (m : drmModeModeInfo) :
  mode_ok m ->
  u32 (hdisplay m) = hdisplay m /\ u32 (vdisplay m) = vdisplay m /\
  u32 (vtotal m) = vtotal m /\
  u32 (hdisplay m * 2) = hdisplay m * 2 /\
  u32 (vtotal m + vdisplay m) = vtotal m + vdisplay m /\
  u32 (Z.quot (hdisplay m) 2) = hdisplay m / 2 /\
  u32 (Z.quot (vdisplay m) 2) = vdisplay m / 2.
Proof.
  unfold mode_ok, in_u16, in_u32. intros (Hh & Hv & Ht & _).
  rewrite !Z.quot_div_nonneg by lia.
  repeat split; apply u32_small; try lia.
  - pose proof (Z.div_le_upper_bound (hdisplay m) 2 (2 ^ 16)).
    pose proof (Z.div_pos (hdisplay m) 2). lia.
  - pose proof (Z.div_le_upper_bound (vdisplay m) 2 (2 ^ 16)).
    pose proof (Z.div_pos (vdisplay m) 2). lia.
Qed.

End LayoutFacts.

(* ================================================================== *)
(** * Mode selection *)

Module SelectorFacts.

Lemma get_mode_rank_range (m : option drmModeModeInfo) :
  -1 <= get_mode_rank m <= 4.
Proof.
  destruct m as [m|]; unfold get_mode_rank; [|lia].
  unfold ranks, rank_scan. generalize (mode_3d m). intros z.
  repeat match goal with
         | |- context [if ?c then _ else _] => destruct c; [lia|]
         end.
  lia.
Qed.

Lemma get_mode_rank_packing (m : drmModeModeInfo) (p : packing) :
  has_packing m p -> get_mode_rank (Some m) = spec_rank p.
Proof.
  intros H. unfold has_packing in H. unfold get_mode_rank. rewrite H.
  destruct p; reflexivity.
Qed.

Lemma known_tag_packing (m : drmModeModeInfo) (p : packing) :
  has_packing m p -> known_tag m.
Proof.
  intros H. unfold has_packing in H. unfold known_tag. rewrite H.
  destruct p; discriminate.
Qed.

(** [is_chosen_mode] where it does not fault. *)
Lemma is_chosen_mode_defined (m : drmModeModeInfo) (options : stereo_options)
    (old_mode : option drmModeModeInfo) :
  stereo_layout options = None \/ known_tag m ->
  is_chosen_mode m options old_mode =
  Ret (candidate options m && (0 <=? get_mode_rank (Some m))
       && (get_mode_rank old_mode <? get_mode_rank (Some m))).
Proof.
  intros D. unfold is_chosen_mode, candidate, known_tag in *.
  pose proof (get_mode_rank_range (Some m)) as R.
  assert (E : negb (get_mode_rank (Some m) =? -1)
              = (0 <=? get_mode_rank (Some m))).
  { destruct (Z.eqb_spec (get_mode_rank (Some m)) (-1));
      destruct (Z.leb_spec 0 (get_mode_rank (Some m))); simpl; trivial; lia. }
  cbv zeta. destruct (stereo_layout options) as [want|].
  - destruct D as [D|D]; [discriminate D|].
    destruct (get_stereo_mode (mode_3d m)) as [s|]; [|congruence].
    unfold bind. destruct (strcmp (short_name s) want =? 0); cbn [negb andb].
    + now rewrite E.
    + reflexivity.
  - unfold bind. cbn [andb]. now rewrite E.
Qed.

(** The running best is replaced only by a mode of strictly higher rank. *)
Lemma is_chosen_mode_strict (m : drmModeModeInfo) (options : stereo_options)
    (old_mode : option drmModeModeInfo) :
  is_chosen_mode m options old_mode = Ret true ->
  candidate options m = true /\ 0 <= get_mode_rank (Some m) /\
  get_mode_rank old_mode < get_mode_rank (Some m).
Proof.
  intros H.
  assert (D : stereo_layout options = None \/ known_tag m).
  { unfold is_chosen_mode, known_tag in *.
    destruct (stereo_layout options); [right|now left].
    destruct (get_stereo_mode (mode_3d m)); [discriminate|discriminate H]. }
  rewrite (is_chosen_mode_defined _ _ _ D) in H. injection H as H.
  apply andb_prop in H as [H H3]. apply andb_prop in H as [H1 H2].
  repeat split; [exact H1|now apply Z.leb_le|now apply Z.ltb_lt].
Qed.

Lemma nth_error_snoc {A : Type} (l : list A) (a b : A) (k : nat) :
  nth_error (l ++ [a]) k = Some b ->
  nth_error l k = Some b \/ (k = List.length l /\ b = a).
Proof.
  intros H. destruct (Nat.lt_ge_cases k (List.length l)) as [L|G].
  - left. now rewrite nth_error_app1 in H.
  - right. rewrite nth_error_app2 in H by exact G.
    destruct (k - List.length l)%nat as [|j] eqn:E; simpl in H.
    + split; [lia|congruence].
    + destruct j; discriminate H.
Qed.

Lemma nth_error_in_range {A : Type} (l : list A) (a : A) (k : nat) :
  nth_error l k = Some a -> (k < List.length l)%nat.
Proof. intros H. apply nth_error_Some. congruence. Qed.

Lemma nth_error_prefix {A : Type} (l l' : list A) (a : A) (k : nat) :
  nth_error l k = Some a -> nth_error (l ++ l') k = Some a.
Proof.
  intros H. rewrite nth_error_app1; [exact H|].
  apply nth_error_Some. congruence.
Qed.

(** One round of the loop keeps [best_so_far]. *)
Lemma best_so_far_step (options : stereo_options)
    (seen : list drmModeModeInfo) (m : drmModeModeInfo) (d : gbm_dev)
    (old_mode : option nat) (rest : list drmModeModeInfo) :
  stereo_layout options = None \/ known_tag m ->
  best_so_far options seen d old_mode ->
  exists chosen : bool,
    is_chosen_mode m options (deref (seen ++ m :: rest) old_mode) = Ret chosen /\
    if chosen
    then best_so_far options (seen ++ [m]) (set_mode d m)
                     (Some (List.length seen))
    else best_so_far options (seen ++ [m]) d old_mode.
Proof.
  intros D B. rewrite (is_chosen_mode_defined _ _ _ D).
  eexists. split; [reflexivity|].
  pose proof (get_mode_rank_range (Some m)) as R.
  assert (O : get_mode_rank (deref (seen ++ m :: rest) old_mode) = -1 /\
              old_mode = None \/
              exists i mi, old_mode = Some i /\ nth_error seen i = Some mi /\
                get_mode_rank (deref (seen ++ m :: rest) old_mode)
                = get_mode_rank (Some mi)).
  { destruct old_mode as [i|]; [right|left; split; reflexivity].
    destruct B as (mi & N & _). exists i, mi. conjs; trivial.
    unfold deref. now rewrite (nth_error_prefix _ (m :: rest) _ _ N). }
  set (r := get_mode_rank (Some m)) in *.
  set (ro := get_mode_rank (deref (seen ++ m :: rest) old_mode)) in *.
  assert (Keep : candidate options m = true -> r <= ro \/ r = -1 ->
                 best_so_far options (seen ++ [m]) d old_mode).
  { intros Cm Low. destruct O as [[O ->]|(i & mi & -> & N & O)].
    - intros m' I C'. apply in_app_or in I as [I|[<-|[]]]; [now apply B|].
      fold r. lia.
    - destruct B as (mi' & N' & M & Ci & Ri & Le & Lt).
      assert (Emi : mi' = mi) by congruence.
      rewrite Emi in *. clear Emi N'.
      exists mi. conjs; trivial.
      + now apply nth_error_prefix.
      + intros k mk Hk Ck. apply nth_error_snoc in Hk as [Hk|[_ ->]];
          [now apply (Le k)|]. fold r. lia.
      + intros k mk Lk Hk Ck. apply nth_error_snoc in Hk as [Hk|[-> _]];
          [now apply (Lt k)|]. apply nth_error_in_range in N. lia. }
  destruct (candidate options m) eqn:C; cbn [andb].
  2:{ destruct old_mode as [i|].
      - destruct B as (mi & N & M & Ci & Ri & Le & Lt).
        exists mi. conjs; trivial.
        + now apply nth_error_prefix.
        + intros k mk Hk Ck. apply nth_error_snoc in Hk as [Hk|[_ ->]];
            [now apply (Le k)|congruence].
        + intros k mk Lk Hk Ck. apply nth_error_snoc in Hk as [Hk|[_ ->]];
            [now apply (Lt k)|congruence].
      - intros m' I C'. apply in_app_or in I as [I|[<-|[]]];
          [now apply B|congruence]. }
  destruct (Z.leb_spec 0 r) as [P|P]; cbn [andb];
    [|apply Keep; [reflexivity|lia]].
  destruct (Z.ltb_spec ro r) as [Q|Q]; [|apply Keep; [reflexivity|lia]].
  exists m. conjs; trivial.
  - rewrite nth_error_app2, Nat.sub_diag by lia. reflexivity.
  - intros k mk Hk Ck. apply nth_error_snoc in Hk as [Hk|[_ ->]];
      [|fold r; lia].
    destruct O as [[O ->]|(i & mi & -> & N & O)].
    + apply nth_error_In in Hk. rewrite (B mk Hk Ck). lia.
    + destruct B as (mi' & N' & M & Ci & Ri & Le & Lt).
      assert (Emi : mi' = mi) by congruence.
      rewrite Emi in *. clear Emi N'.
      specialize (Le k mk Hk Ck). fold r. lia.
  - intros k mk Lk Hk Ck. apply nth_error_snoc in Hk as [Hk|[-> _]]; [|lia].
    destruct O as [[O ->]|(i & mi & -> & N & O)].
    + apply nth_error_In in Hk. rewrite (B mk Hk Ck). fold r. lia.
    + destruct B as (mi' & N' & M & Ci & Ri & Le & Lt).
      assert (Emi : mi' = mi) by congruence.
      rewrite Emi in *. clear Emi N'.
      specialize (Le k mk Hk Ck). fold r. lia.
Qed.

(** The whole loop: it does not fault on defined input, and what it
    returns is the best of all the modes. *)
Lemma find_mode_from_best (options : stereo_options) :
  forall (rest seen : list drmModeModeInfo) (d : gbm_dev)
         (old_mode : option nat),
    stereo_layout options = None \/ Forall known_tag rest ->
    best_so_far options seen d old_mode ->
    exists d' old',
      find_mode_from (seen ++ rest) options rest (List.length seen) d old_mode
      = Ret (d', old') /\
      best_so_far options (seen ++ rest) d' old' /\
      (old' = None -> old_mode = None /\ d' = d).
Proof.
  induction rest as [|m rest IH]; intros seen d old_mode D B.
  - exists d, old_mode. rewrite app_nil_r. cbn [find_mode_from]. auto.
  - assert (Dm : stereo_layout options = None \/ known_tag m).
    { destruct D as [D|D]; [now left|right]. now inversion D. }
    assert (Dr : stereo_layout options = None \/ Forall known_tag rest).
    { destruct D as [D|D]; [now left|right]. now inversion D. }
    destruct (best_so_far_step options seen m d old_mode rest Dm B)
      as (chosen & E & B').
    cbn [find_mode_from]. rewrite E. cbn [bind].
    destruct chosen.
    + destruct (IH (seen ++ [m]) (set_mode d m) (Some (List.length seen)) Dr B')
        as (d' & old' & F & B'' & U).
      rewrite <- app_assoc, length_app, Nat.add_1_r in F. cbn [app] in F.
      rewrite <- app_assoc in B''. cbn [app] in B''.
      exists d', old'. conjs; trivial.
      intros N. destruct (U N) as [X _]. discriminate X.
    + destruct (IH (seen ++ [m]) d old_mode Dr B') as (d' & old' & F & B'' & U).
      rewrite <- app_assoc, length_app, Nat.add_1_r in F. cbn [app] in F.
      rewrite <- app_assoc in B''. cbn [app] in B''.
      exists d', old'. conjs; trivial.
Qed.

Lemma find_mode_best (d : gbm_dev) (c : drmModeConnector)
    (options : stereo_options) :
  selector_defined options (modes c) ->
  exists d' old',
    find_mode_from (modes c) options (modes c) 0 d None = Ret (d', old') /\
    find_mode d c options
    = Ret (match old' with Some _ => 0 | None => - ENOENT end, d') /\
    best_so_far options (modes c) d' old' /\
    (old' = None -> d' = d).
Proof.
  intros D.
  destruct (find_mode_from_best options (modes c) [] d None D)
    as (d' & old' & F & B & U).
  { intros m []. }
  cbn [app List.length] in F, B. exists d', old'. conjs; trivial.
  - unfold find_mode. rewrite F. reflexivity.
  - intros N. now destruct (U N).
Qed.

(** Whatever the loop returns with a mode chosen, that mode has a rank. *)
Lemma find_mode_from_ranked (options : stereo_options)
    (arr : list drmModeModeInfo) :
  forall (rest : list drmModeModeInfo) (i : nat) (d : gbm_dev)
         (old_mode : option nat) (d' : gbm_dev) (old' : option nat),
    (old_mode <> None -> 0 <= get_mode_rank (Some (mode d))) ->
    find_mode_from arr options rest i d old_mode = Ret (d', old') ->
    old' <> None -> 0 <= get_mode_rank (Some (mode d')).
Proof.
  induction rest as [|m rest IH]; intros i d old_mode d' old' H F.
  - cbn [find_mode_from] in F. injection F as <- <-. exact H.
  - cbn [find_mode_from] in F.
    destruct (is_chosen_mode m options (deref arr old_mode)) as [[|]| |] eqn:E;
      cbn [bind] in F; try discriminate F.
    + apply is_chosen_mode_strict in E as (_ & R & _).
      exact (IH (S i) (set_mode d m) (Some i) d' old' (fun _ => R) F).
    + exact (IH (S i) d old_mode d' old' H F).
Qed.

Lemma find_mode_success_ranked (d d' : gbm_dev) (c : drmModeConnector)
    (options : stereo_options) :
  find_mode d c options = Ret (0, d') ->
  0 <= get_mode_rank (Some (mode d')).
Proof.
  unfold find_mode. intros F.
  destruct (find_mode_from (modes c) options (modes c) 0 d None)
    as [[d'' old']| |] eqn:E; cbn [bind] in F; try discriminate F.
  destruct old' as [i|]; [|discriminate F].
  injection F as <-.
  apply (find_mode_from_ranked options (modes c) (modes c) 0%nat d None d''
           (Some i)); [congruence|exact E|discriminate].
Qed.

End SelectorFacts.

(* ================================================================== *)
(** * LayoutCalculator: the properties of the specification *)

Module LayoutCalculator.
Import LayoutFacts SelectorFacts.

(** With the layout of a mode at hand, go through the five tags it can
    carry and put the equation of each in place. *)
Ltac layout_cases m l E :=
  let p := fresh "p" in
  let R := fresh "R" in
  let P := fresh "P" in
  destruct (layout_inversion m l E) as (p & R & P);
  destruct p; try discriminate R;
  [ rewrite (layout_none m P) in E
  | rewrite (layout_frame_packing m P) in E
  | rewrite (layout_side_by_side_full m P) in E
  | rewrite (layout_top_and_bottom m P) in E
  | rewrite (layout_side_by_side_half m P) in E ];
  injection E as <-.

(** C1, as stated, fails: a mode tagged FieldAlternative, a tag of the
    enumeration, runs [get_layout_for_mode] into [assert(0)]. *)
Lemma field_alternative_has_no_layout :
  has_packing (timing 1920 1080 1125 FieldAlternative) FieldAlternative /\
  get_layout_for_mode (timing 1920 1080 1125 FieldAlternative) = Abort /\
  ~ (exists l,
        get_layout_for_mode (timing 1920 1080 1125 FieldAlternative) = Ret l).
Proof.
  split; [reflexivity|]. split; [reflexivity|].
  intros [l H]. discriminate H.
Qed.

(** C1, amended: [get_layout_for_mode] computes a geometry for exactly the
    five tags that have a rank (None, SideBySideHalf, TopAndBottom,
    SideBySideFull, FramePacking) and runs into the assertion for
    FieldAlternative, LineAlternative, LDepth and LDepthGfxGfxDepth; a mode
    that [find_mode] has selected always has a geometry, so the assertion
    is out of reach of the modes the program lays out. *)
Theorem layout_defined_on_ranked_tags :
  (forall (p : packing) (m : drmModeModeInfo),
      has_packing m p ->
      if ranked p
      then exists l, get_layout_for_mode m = Ret l
      else get_layout_for_mode m = Abort) /\
  (forall (d d' : gbm_dev) (c : drmModeConnector) (options : stereo_options),
      find_mode d c options = Ret (0, d') ->
      exists l, get_layout_for_mode (mode d') = Ret l).
Proof.
  split.
  - intros p m H. destruct (ranked p) eqn:R.
    + now apply (layout_ranked m p).
    + now apply (layout_unranked m p).
  - intros d d' c options F. apply layout_defined_iff_rank.
    now apply (find_mode_success_ranked d d' c options).
Qed.

Lemma layout_defined_on_ranked_tags_witness :
  (exists l, get_layout_for_mode (timing 1920 1080 1125 FramePacking) = Ret l) /\
  get_layout_for_mode (timing 1920 1080 1125 LDepth) = Abort /\
  (exists l,
      get_layout_for_mode
        (mode (set_mode (fresh_dev 3 7) (timing 1280 720 750 TopAndBottom)))
      = Ret l).
Proof.
  split; [|split].
  - exact (proj1 layout_defined_on_ranked_tags FramePacking
             (timing 1920 1080 1125 FramePacking) eq_refl).
  - exact (proj1 layout_defined_on_ranked_tags LDepth
             (timing 1920 1080 1125 LDepth) eq_refl).
  - exact (proj2 layout_defined_on_ranked_tags (fresh_dev 3 7)
             (set_mode (fresh_dev 3 7) (timing 1280 720 750 TopAndBottom))
             {| connector_id := 7; encoder_id := 0;
                connection := DRM_MODE_CONNECTED;
                modes := [timing 1280 720 750 PNone;
                          timing 1280 720 750 TopAndBottom];
                encoders := [] |}
             no_options eq_refl).
Defined.

(** C3, as stated, fails: with an odd active width the eye of a
    SideBySideHalf mode is half a pixel short, 682 * 2 is not 1365. *)
Lemma odd_width_breaks_size_identities :
  mode_ok (timing 1365 768 800 SideBySideHalf) /\
  has_packing (timing 1365 768 800 SideBySideHalf) SideBySideHalf /\
  exists l,
    get_layout_for_mode (timing 1365 768 800 SideBySideHalf) = Ret l /\
    eye_width l * 2 <> buffer_width l /\
    ~ size_identities (timing 1365 768 800 SideBySideHalf) l.
Proof.
  split; [vm_compute; intuition discriminate|].
  split; [reflexivity|].
  eexists. split; [reflexivity|]. split; [vm_compute; discriminate|].
  intros (H & _). specialize (H (or_introl eq_refl)).
  vm_compute in H. discriminate H.
Qed.

(** C3, amended: for every well-formed mode, [eye_width * 2 = buffer_width]
    for SideBySideFull and [buffer_height = total_height + active_height]
    for FramePacking; for SideBySideHalf [eye_width * 2] is the buffer
    width less the remainder of the active width by two, and for
    TopAndBottom [eye_height * 2] is the buffer height less the remainder
    of the active height by two: the identities of the halved packings
    hold for even sizes only. *)
Theorem layout_size_identities_exact (m : drmModeModeInfo) (l : mode_layout) :
  mode_ok m ->
  get_layout_for_mode m = Ret l ->
  (has_packing m SideBySideFull -> eye_width l * 2 = buffer_width l) /\
  (has_packing m FramePacking -> buffer_height l = vtotal m + vdisplay m) /\
  (has_packing m SideBySideHalf ->
   eye_width l * 2 = buffer_width l - hdisplay m mod 2 /\
   (eye_width l * 2 = buffer_width l <-> hdisplay m mod 2 = 0)) /\
  (has_packing m TopAndBottom ->
   eye_height l * 2 = buffer_height l - vdisplay m mod 2 /\
   (eye_height l * 2 = buffer_height l <-> vdisplay m mod 2 = 0)).
Proof.
  intros W E.
  destruct (sizes_fit m W) as (Fh & Fv & Ft & Fh2 & Ftv & Qh & Qv).
  layout_cases m l E; cbn [eye_width eye_height buffer_width buffer_height];
    rewrite ?Fh, ?Fv, ?Ft, ?Fh2, ?Ftv, ?Qh, ?Qv;
    (conjs; intros Q;
     try (pose proof (has_packing_unique m _ _ P Q); discriminate);
     Z.to_euclidean_division_equations; lia).
Qed.

Lemma layout_size_identities_exact_witness :
  eye_width
    {| buffer_width := 1920; buffer_height := 1080;
       eye_width := 960; eye_height := 1080;
       virtual_eye_width := 1920; virtual_eye_height := 1080;
       right_eye_x := 960; left_eye_y := 0 |} * 2
  = 1920 - 1920 mod 2.
Proof.
  refine (proj1 (proj1 (proj2 (proj2
    (layout_size_identities_exact (timing 1920 1080 1125 SideBySideHalf) _
       _ eq_refl))) eq_refl)).
  unfold mode_ok, in_u16, in_u32; cbn; lia.
Defined.

(** C10: for a well-formed mode of packing SideBySideHalf, SideBySideFull,
    TopAndBottom or FramePacking both viewports of [set_eye] lie inside the
    buffer, [right_eye_x + eye_width <= buffer_width] and
    [left_eye_y + eye_height <= buffer_height]; these four and None are
    the only packings with a layout, and for None the right eye starts at
    [right_eye_x = buffer_width], off the buffer. *)
Theorem eye_viewports_inside_buffer (m : drmModeModeInfo) (l : mode_layout) :
  mode_ok m ->
  get_layout_for_mode m = Ret l ->
  (has_packing m PNone \/ has_packing m SideBySideHalf \/
   has_packing m SideBySideFull \/ has_packing m TopAndBottom \/
   has_packing m FramePacking) /\
  (has_packing m SideBySideHalf \/ has_packing m SideBySideFull \/
   has_packing m TopAndBottom \/ has_packing m FramePacking ->
   right_eye_x l + eye_width l <= buffer_width l /\
   left_eye_y l + eye_height l <= buffer_height l /\
   inside_buffer l (set_eye l 0) /\ inside_buffer l (set_eye l 1)) /\
  (has_packing m PNone ->
   right_eye_x l = buffer_width l /\
   inside_buffer l (set_eye l 0) /\
   (0 < hdisplay m -> ~ inside_buffer l (set_eye l 1))).
Proof.
  intros W E.
  destruct (sizes_fit m W) as (Fh & Fv & Ft & Fh2 & Ftv & Qh & Qv).
  assert (Rg := W). unfold mode_ok, in_u16, in_u32 in Rg.
  pose proof (Z.div_pos (hdisplay m) 2).
  pose proof (Z.div_pos (vdisplay m) 2).
  layout_cases m l E;
    (split; [tauto|]);
    unfold inside_buffer, set_eye;
    cbn [Z.eqb eye_width eye_height buffer_width buffer_height right_eye_x
         left_eye_y vx vy vw vh];
    rewrite ?Fh, ?Fv, ?Ft, ?Fh2, ?Ftv, ?Qh, ?Qv;
    (split; intros Q;
     [ try (destruct Q as [Q|[Q|[Q|Q]]];
            pose proof (has_packing_unique m _ _ P Q); discriminate)
     | try (pose proof (has_packing_unique m _ _ P Q); discriminate) ]);
    try (Z.to_euclidean_division_equations; lia).
Qed.

Lemma eye_viewports_inside_buffer_witness :
  inside_buffer
    {| buffer_width := 1920; buffer_height := 2205;
       eye_width := 1920; eye_height := 1080;
       virtual_eye_width := 1920; virtual_eye_height := 1080;
       right_eye_x := 0; left_eye_y := 1125 |}
    (set_eye
       {| buffer_width := 1920; buffer_height := 2205;
          eye_width := 1920; eye_height := 1080;
          virtual_eye_width := 1920; virtual_eye_height := 1080;
          right_eye_x := 0; left_eye_y := 1125 |} 0).
Proof.
  refine (proj1 (proj2 (proj2 (proj1 (proj2
    (eye_viewports_inside_buffer (timing 1920 1080 1125 FramePacking) _
       _ eq_refl))
    (or_intror (or_intror (or_intror eq_refl))))))).
  unfold mode_ok, in_u16, in_u32; cbn; lia.
Defined.

End LayoutCalculator.

(* ================================================================== *)
(** * ModeSelector: the properties of the specification *)

Module ModeSelector.
Import SelectorFacts.

(** With a layout requested that no mode carries, every round of the loop
    turns its mode down. *)
Lemma find_mode_from_none_requested (options : stereo_options) (want : string)
    (arr : list drmModeModeInfo) :
  stereo_layout options = Some want ->
  forall (rest : list drmModeModeInfo) (i : nat) (d : gbm_dev)
         (old_mode : option nat),
    Forall (fun m => exists s, get_stereo_mode (mode_3d m) = Some s /\
                               short_name s <> want) rest ->
    find_mode_from arr options rest i d old_mode = Ret (d, old_mode).
Proof.
  intros L. induction rest as [|m rest IH]; intros i d old_mode A.
  - reflexivity.
  - inversion A as [|m' rest' (s & G & N) A']. subst m' rest'.
    cbn [find_mode_from]. unfold is_chosen_mode. cbv zeta. rewrite L, G.
    destruct (Z.eqb_spec (strcmp (short_name s) want) 0) as [E|_].
    + now apply strcmp_zero_iff in E.
    + cbn [negb bind]. now apply IH.
Qed.

(** C2: the ranks are None 0, SideBySideHalf 1, TopAndBottom 2,
    SideBySideFull 3, FramePacking 4 and -1 for every other packing and for
    no mode at all; a mode replaces the running best only when its rank is
    not -1 and strictly above the rank of the running best; on every list
    of modes on which the selector is defined it returns, with [-ENOENT]
    when no eligible mode has a rank, and otherwise with an eligible mode
    whose rank no eligible mode exceeds and which comes first among the
    eligible modes of that rank. *)
Theorem find_mode_first_of_highest_rank (d : gbm_dev) (c : drmModeConnector)
    (options : stereo_options) :
  selector_defined options (modes c) ->
  (forall m p, has_packing m p -> get_mode_rank (Some m) = spec_rank p) /\
  get_mode_rank None = -1 /\
  (forall m old_mode,
      is_chosen_mode m options old_mode = Ret true ->
      0 <= get_mode_rank (Some m) /\
      get_mode_rank old_mode < get_mode_rank (Some m)) /\
  exists d' old',
    find_mode_from (modes c) options (modes c) 0 d None = Ret (d', old') /\
    match old' with
    | None =>
        find_mode d c options = Ret (- ENOENT, d) /\
        forall m, In m (modes c) -> candidate options m = true ->
                  get_mode_rank (Some m) = -1
    | Some i =>
        find_mode d c options = Ret (0, d') /\
        exists m,
          nth_error (modes c) i = Some m /\ mode d' = m /\
          candidate options m = true /\ 0 <= get_mode_rank (Some m) /\
          (forall k mk, nth_error (modes c) k = Some mk ->
                        candidate options mk = true ->
                        get_mode_rank (Some mk) <= get_mode_rank (Some m)) /\
          (forall k mk, nth_error (modes c) k = Some mk ->
                        candidate options mk = true ->
                        get_mode_rank (Some mk) = get_mode_rank (Some m) ->
                        (i <= k)%nat)
    end.
Proof.
  intros D. split; [exact get_mode_rank_packing|]. split; [reflexivity|].
  split.
  { intros m old_mode H. now destruct (is_chosen_mode_strict _ _ _ H). }
  destruct (find_mode_best d c options D) as (d' & old' & F & R & B & U).
  exists d', old'. split; [exact F|].
  destruct old' as [i|].
  - split; [exact R|].
    destruct B as (m & N & M & C & P & Le & Lt).
    exists m. repeat (split; [assumption|]).
    intros k mk Hk Ck Ek. destruct (Nat.le_gt_cases i k) as [G|G]; [exact G|].
    specialize (Lt k mk G Hk Ck). lia.
  - rewrite (U eq_refl) in R. split; [exact R|exact B].
Qed.

Lemma find_mode_first_of_highest_rank_witness :
  exists d',
    find_mode_from
      [timing 1920 1080 1125 PNone; timing 1920 1080 1125 TopAndBottom;
       timing 1920 1080 1125 SideBySideHalf; timing 1280 720 750 TopAndBottom]
      no_options
      [timing 1920 1080 1125 PNone; timing 1920 1080 1125 TopAndBottom;
       timing 1920 1080 1125 SideBySideHalf; timing 1280 720 750 TopAndBottom]
      0 (fresh_dev 3 7) None
    = Ret (d', Some 1%nat).
Proof.
  destruct (proj2 (proj2 (proj2
    (find_mode_first_of_highest_rank (fresh_dev 3 7)
       {| connector_id := 7; encoder_id := 0;
          connection := DRM_MODE_CONNECTED;
          modes := [timing 1920 1080 1125 PNone;
                    timing 1920 1080 1125 TopAndBottom;
                    timing 1920 1080 1125 SideBySideHalf;
                    timing 1280 720 750 TopAndBottom];
          encoders := [] |}
       no_options (or_introl eq_refl))))) as (d' & old' & F & _).
  exists d'. cbn [modes] in F. rewrite F. vm_compute in F.
  injection F as _ <-. reflexivity.
Defined.

(** C4: when a layout is requested and every advertised mode carries a
    packing whose short name differs from it, [find_mode] returns
    [-ENOENT] and leaves the device structure as it was, whatever the
    ranks of the modes. *)
Theorem find_mode_requested_layout_absent (d : gbm_dev)
    (c : drmModeConnector) (options : stereo_options) (want : string) :
  stereo_layout options = Some want ->
  Forall (fun m => exists s, get_stereo_mode (mode_3d m) = Some s /\
                             short_name s <> want) (modes c) ->
  find_mode d c options = Ret (- ENOENT, d).
Proof.
  intros L A. unfold find_mode.
  rewrite (find_mode_from_none_requested options want (modes c) L
             (modes c) 0%nat d None A).
  reflexivity.
Qed.

Lemma find_mode_requested_layout_absent_witness :
  find_mode (fresh_dev 3 7)
    {| connector_id := 7; encoder_id := 0; connection := DRM_MODE_CONNECTED;
       modes := [timing 1920 1080 1125 PNone;
                 timing 1920 1080 1125 FramePacking];
       encoders := [] |}
    {| card := None; stereo_layout := Some "tb"; connector := 0 |}
  = Ret (- ENOENT, fresh_dev 3 7).
Proof.
  apply (find_mode_requested_layout_absent (fresh_dev 3 7) _
           {| card := None; stereo_layout := Some "tb"; connector := 0 |}
           "tb" eq_refl).
  repeat constructor.
  - exists {| mode_number := DRM_MODE_FLAG_3D_NONE;
              short_name := "none"; long_name := "none" |}.
    split; [reflexivity|discriminate].
  - exists {| mode_number := DRM_MODE_FLAG_3D_FRAME_PACKING;
              short_name := "fp"; long_name := "frame packing" |}.
    split; [reflexivity|discriminate].
Defined.

End ModeSelector.

(* ================================================================== *)
(** * OutputBinder *)

Module BinderFacts.

Lemma get_connector_from_some (drm : drm_device) (options : stereo_options) :
  forall (ids : list Z) (c : drmModeConnector),
    get_connector_from drm ids options = Some c ->
    exists before id after,
      ids = before ++ id :: after /\
      Forall (skipped drm options) before /\
      drmModeGetConnector drm id = Some c /\ wanted options c = true.
Proof.
  induction ids as [|id ids IH]; intros c H; cbn [get_connector_from] in H.
  - discriminate H.
  - destruct (drmModeGetConnector drm id) as [c0|] eqn:G; [|discriminate H].
    fold (wanted options c0) in H.
    destruct (wanted options c0) eqn:W.
    + injection H as <-. exists [], id, ids. auto.
    + destruct (IH c H) as (before & id' & after & -> & S & G' & W').
      exists (id :: before), id', after. repeat split; trivial.
      constructor; [now exists c0|exact S].
Qed.

Lemma get_connector_from_none (drm : drm_device) (options : stereo_options) :
  forall ids : list Z,
    get_connector_from drm ids options = None ->
    exists before,
      Forall (skipped drm options) before /\
      (ids = before \/
       exists id after,
         ids = before ++ id :: after /\ drmModeGetConnector drm id = None).
Proof.
  induction ids as [|id ids IH]; intros H; cbn [get_connector_from] in H.
  - exists []. auto.
  - destruct (drmModeGetConnector drm id) as [c0|] eqn:G.
    + fold (wanted options c0) in H.
      destruct (wanted options c0) eqn:W; [discriminate H|].
      destruct (IH H) as (before & S & R).
      exists (id :: before). split; [constructor; [now exists c0|exact S]|].
      destruct R as [->|(id' & after & -> & G')]; [now left|right].
      now exists id', after.
    + exists []. split; [constructor|right]. now exists id, ids.
Qed.

(** A connector that is not connected ends the setup at once. *)
Lemma stereo_setup_dev_unconnected (drm : drm_device) (res : drmModeRes)
    (c : drmModeConnector) (options : stereo_options) (d : gbm_dev) :
  connection c <> DRM_MODE_CONNECTED ->
  stereo_setup_dev drm res c options d = Ret (- ENOENT, d).
Proof.
  intros H. unfold stereo_setup_dev.
  destruct (Z.eqb_spec (connection c) DRM_MODE_CONNECTED); [contradiction|].
  reflexivity.
Qed.

End BinderFacts.

Module OutputBinder.
Import BinderFacts.

(** C5 at the failing input: with nothing plugged into the port
    enumerated first and a display on the second, [get_connector] hands
    back the first port and discovery ends without a device; the second
    port is used only when its identifier is asked for. *)
Lemma first_port_unplugged_is_chosen :
  drmModeGetResources two_ports = Some two_ports_res /\
  connectors two_ports_res = [31; 40] /\
  drmModeGetConnector two_ports 31 = Some port_unplugged /\
  drmModeGetConnector two_ports 40 = Some port_display /\
  connection port_unplugged <> DRM_MODE_CONNECTED /\
  connection port_display = DRM_MODE_CONNECTED /\
  get_connector two_ports two_ports_res no_options = Some port_unplugged /\
  stereo_prepare_dev two_ports 3 no_options = Ret None /\
  exists d,
    stereo_prepare_dev two_ports 3 (set_connector no_options 40)
    = Ret (Some d) /\ conn d = 40.
Proof.
  repeat (split; [first [reflexivity | discriminate]|]).
  eexists. split; reflexivity.
Qed.

(** C5 does not hold of the code.  The code means to pass over a
    connector nothing is plugged into: [stereo_setup_dev] reports it as
    ignored and returns [-ENOENT], which [stereo_prepare_dev] takes
    without a message, under a caller that prepares all connectors.  Yet
    [get_connector] picks the connector enumerated first among those
    whose identifier is the one asked for (the very first when the
    identifier is 0), every connector before it having been retrieved and
    passed over, and it does not look at the connection state; it picks
    none when the list ends or a retrieval fails before a match.  When
    the connector picked is not connected, discovery ends with no device:
    no later connector is tried, connected or not. *)
Theorem get_connector_first_wanted (drm : drm_device) (res : drmModeRes)
    (options : stereo_options) (fd0 : Z) :
  drmModeGetResources drm = Some res ->
  match get_connector drm res options with
  | Some c =>
      (exists before id after,
          connectors res = before ++ id :: after /\
          Forall (skipped drm options) before /\
          drmModeGetConnector drm id = Some c /\ wanted options c = true) /\
      (connection c <> DRM_MODE_CONNECTED ->
       stereo_prepare_dev drm fd0 options = Ret None)
  | None =>
      (exists before,
          Forall (skipped drm options) before /\
          (connectors res = before \/
           exists id after,
             connectors res = before ++ id :: after /\
             drmModeGetConnector drm id = None)) /\
      stereo_prepare_dev drm fd0 options = Ret None
  end.
Proof.
  intros R. unfold stereo_prepare_dev. rewrite R.
  destruct (get_connector drm res options) as [c|] eqn:G.
  - split; [now apply get_connector_from_some|].
    intros U. rewrite (stereo_setup_dev_unconnected _ _ _ _ _ U).
    reflexivity.
  - split; [now apply get_connector_from_none|reflexivity].
Qed.

Lemma get_connector_first_wanted_witness :
  (exists before id after,
      connectors two_ports_res = before ++ id :: after /\
      Forall (skipped two_ports no_options) before /\
      drmModeGetConnector two_ports id = Some port_unplugged /\
      wanted no_options port_unplugged = true) /\
  In 40 (connectors two_ports_res) /\
  drmModeGetConnector two_ports 40 = Some port_display /\
  connection port_display = DRM_MODE_CONNECTED /\
  stereo_prepare_dev two_ports 3 no_options = Ret None.
Proof.
  destruct (get_connector_first_wanted two_ports two_ports_res no_options 3
              eq_refl) as [First Ends].
  split; [exact First|].
  split; [right; left; reflexivity|].
  split; [reflexivity|]. split; [reflexivity|].
  apply Ends. discriminate.
Defined.

End OutputBinder.

(* ================================================================== *)
(** * Command line *)

Module CliFacts.

Lemma code_injective (a b : ascii) : code a = code b -> a = b.
Proof.
  unfold code. intros H. apply N2Z.inj in H.
  rewrite <- (ascii_N_embedding a), <- (ascii_N_embedding b). now rewrite H.
Qed.

(** With the option string of the program, an option character comes back
    as itself only when it is one of [c], [l] and [h]. *)
Lemma getopt_char_codes (argv : list string) (c : ascii) (rest : string)
    (st : getopt_state) :
  let r := fst (getopt_char argv "c:l:h" c rest st) in
  r = code "?" \/ r = code "c" \/ r = code "l" \/ r = code "h".
Proof.
  unfold getopt_char. cbn [strchr].
  destruct (Ascii.eqb_spec "c" c) as [<-|Nc].
  { cbn. destruct rest; [destruct (nth_error argv _)|]; cbn; auto. }
  destruct (Ascii.eqb_spec ":" c) as [<-|N1]; [cbn; auto|].
  destruct (Ascii.eqb_spec "l" c) as [<-|Nl].
  { cbn. destruct rest; [destruct (nth_error argv _)|]; cbn; auto. }
  destruct (Ascii.eqb_spec "h" c) as [<-|Nh]; cbn; auto.
Qed.

(** No call of [getopt] with the option string of the program returns
    ['d']: the [case 'd'] of the [switch] is never entered. *)
Lemma getopt_never_d (argv : list string) (st : getopt_state) :
  fst (getopt argv args st) <> code "d".
Proof.
  assert (K : forall c rest,
             fst (getopt_char argv "c:l:h" c rest st) <> code "d").
  { intros c rest. pose proof (getopt_char_codes argv c rest st) as H.
    cbv zeta in H. intros E. rewrite E in H.
    destruct H as [H|[H|[H|H]]]; apply code_injective in H; discriminate H. }
  unfold getopt, args.
  destruct (nextchar st) as [|c rest]; [|apply K].
  destruct (nth_error argv (optind st)) as [arg|]; [|discriminate].
  destruct (String.eqb arg "--"); [discriminate|].
  destruct arg as [|a tail]; [discriminate|].
  destruct (Ascii.eqb_spec a "-") as [->|N].
  - destruct tail as [|c rest]; [discriminate|apply K].
  - destruct a as [[] [] [] [] [] [] [] []];
      try (now contradiction N); destruct tail; discriminate.
Qed.

(** The loop never writes [options->card]. *)
Lemma process_options_from_card (argv : list string) :
  forall (rounds : nat) (st : getopt_state) (options : stereo_options),
    card options = None ->
    match process_options_from rounds argv st options with
    | Parsed _ options' => card options' = None
    | _ => True
    end.
Proof.
  induction rounds as [|rounds IH]; intros st options H;
    cbn [process_options_from]; [exact I|].
  pose proof (getopt_never_d argv st) as D.
  destruct (getopt argv args st) as [opt st'] eqn:G. cbn [fst] in D.
  destruct (opt =? -1); [exact H|].
  destruct (opt =? code "h"); [exact I|].
  destruct (Z.eqb_spec opt (code "d")) as [E|_]; [contradiction|].
  destruct (opt =? code "c").
  { destruct (optarg st'); [|exact I]. now apply IH. }
  destruct (opt =? code "l"); [now apply IH|exact H].
Qed.

(** With [d:] in the option string the flag would be taken, the path as
    its argument. *)
Lemma getopt_with_d_in_option_string (path : string) :
  getopt ["stereo-es2gears"; "-d"; path] "-c:d:l:h" getopt_init
  = (code "d", {| optind := 3; nextchar := ""; optarg := Some path |}).
Proof. reflexivity. Qed.

Lemma chars_from_step (argv : list string) :
  forall (i : nat) (a : string),
    nth_error argv i = Some a ->
    chars_from argv i = (S (String.length a) + chars_from argv (S i))%nat.
Proof.
  unfold chars_from. induction argv as [|b argv IH]; intros [|i] a H;
    try discriminate H.
  - injection H as ->. reflexivity.
  - cbn [skipn]. apply (IH i a H).
Qed.

Lemma chars_from_end (argv : list string) :
  forall i : nat, nth_error argv i = None -> chars_from argv i = 0%nat.
Proof.
  unfold chars_from. induction argv as [|b argv IH]; intros [|i] H;
    try reflexivity; try discriminate H.
  cbn [skipn]. apply (IH i H).
Qed.

Lemma chars_from_succ (argv : list string) (i : nat) :
  (chars_from argv (S i) <= chars_from argv i)%nat.
Proof.
  destruct (nth_error argv i) as [a|] eqn:E.
  - rewrite (chars_from_step argv i a E). lia.
  - assert (E' : nth_error argv (S i) = None).
    { apply nth_error_None. apply nth_error_None in E. lia. }
    rewrite (chars_from_end argv _ E'). lia.
Qed.

(** A call of [getopt] at an option character leaves no more to do than
    what followed the character. *)
Lemma getopt_char_progress (argv : list string) (c : ascii) (rest : string)
    (st : getopt_state) :
  (work_left argv (snd (getopt_char argv "c:l:h" c rest st))
   <= String.length rest + chars_from argv (S (optind st)))%nat.
Proof.
  pose proof (chars_from_succ argv (S (optind st))) as M1.
  pose proof (chars_from_succ argv (S (S (optind st)))) as M2.
  assert (Plain : (work_left argv
                     {| optind := match rest with
                                  | EmptyString => S (optind st)
                                  | _ => optind st
                                  end;
                        nextchar := rest; optarg := None |}
                   <= String.length rest + chars_from argv (S (optind st)))%nat).
  { unfold work_left. cbn [nextchar optind]. destruct rest; cbn; lia. }
  assert (Arg : (work_left argv
                   (snd match rest with
                        | EmptyString =>
                            match nth_error argv (S (optind st)) with
                            | None =>
                                (code "?",
                                 {| optind := S (optind st); nextchar := "";
                                    optarg := None |})
                            | Some a =>
                                (code c,
                                 {| optind := S (S (optind st)); nextchar := "";
                                    optarg := Some a |})
                            end
                        | String _ _ =>
                            (code c,
                             {| optind := S (optind st); nextchar := "";
                                optarg := Some rest |})
                        end)
                 <= String.length rest + chars_from argv (S (optind st)))%nat).
  { unfold work_left. destruct rest;
      [destruct (nth_error argv (S (optind st)))|];
      cbn [snd nextchar optind String.length]; lia. }
  unfold getopt_char. cbn [strchr].
  destruct (Ascii.eqb_spec "c" c) as [<-|Nc].
  { cbn [Ascii.eqb Bool.eqb orb andb]. destruct rest; exact Arg. }
  destruct (Ascii.eqb_spec ":" c) as [<-|N1]; [exact Plain|].
  destruct (Ascii.eqb_spec "l" c) as [<-|Nl].
  { cbn [Ascii.eqb Bool.eqb orb andb]. destruct rest; exact Arg. }
  destruct (Ascii.eqb_spec "h" c) as [<-|Nh]; [|exact Plain].
  cbn [Ascii.eqb Bool.eqb orb andb]. exact Plain.
Qed.

(** Unless it reports the end of the options, a call of [getopt] leaves
    less to do than it found. *)
Lemma getopt_progress (argv : list string) (st : getopt_state) :
  fst (getopt argv args st) <> -1 ->
  (work_left argv (snd (getopt argv args st)) < work_left argv st)%nat.
Proof.
  unfold getopt, args. intros H.
  destruct (nextchar st) as [|c rest] eqn:Nx.
  - destruct (nth_error argv (optind st)) as [arg|] eqn:E;
      [|now contradiction H].
    destruct (String.eqb arg "--"); [now contradiction H|].
    unfold work_left at 2. rewrite Nx. cbn [String.length plus].
    rewrite (chars_from_step argv _ arg E).
    assert (NonOpt : (work_left argv
                        {| optind := S (optind st); nextchar := "";
                           optarg := Some arg |}
                      < S (String.length arg)
                        + chars_from argv (S (optind st)))%nat).
    { unfold work_left. cbn [nextchar optind String.length]. lia. }
    destruct arg as [|a tail]; [exact NonOpt|].
    destruct (Ascii.eqb_spec a "-") as [->|N].
    + destruct tail as [|c rest]; [exact NonOpt|].
      pose proof (getopt_char_progress argv c rest st) as P.
      cbn [String.length]. lia.
    + destruct a as [[] [] [] [] [] [] [] []];
        try (now contradiction N); destruct tail; exact NonOpt.
  - pose proof (getopt_char_progress argv c rest st) as P.
    unfold work_left at 2. rewrite Nx. cbn [String.length]. lia.
Qed.

(** The rounds allowed are enough: the loop comes to an end by itself. *)
Lemma process_options_from_finishes (argv : list string) :
  forall (rounds : nat) (st : getopt_state) (options : stereo_options),
    (work_left argv st < rounds)%nat ->
    process_options_from rounds argv st options <> Unfinished.
Proof.
  induction rounds as [|rounds IH]; intros st options L; [lia|].
  cbn [process_options_from].
  pose proof (getopt_progress argv st) as P.
  destruct (getopt argv args st) as [opt st'] eqn:G. cbn [fst snd] in P.
  destruct (Z.eqb_spec opt (-1)) as [|Ne]; [discriminate|].
  specialize (P Ne).
  destruct (opt =? code "h"); [discriminate|].
  destruct (opt =? code "d"); [apply IH; lia|].
  destruct (opt =? code "c").
  { destruct (optarg st'); [apply IH; lia|discriminate]. }
  destruct (opt =? code "l"); [apply IH; lia|discriminate].
Qed.

Lemma process_options_finishes (argv : list string) :
  process_options argv <> Unfinished.
Proof.
  unfold process_options, rounds_for.
  apply process_options_from_finishes.
  unfold work_left, getopt_init. cbn [nextchar optind String.length plus].
  pose proof (chars_from_succ argv 0). lia.
Qed.

End CliFacts.

Module CommandLine.
Import CliFacts.

(** C6 does not hold of the code: [-d] is missing from the option string
    ["-c:l:h"], so [getopt] reports it as unknown.  [-d] followed by any
    path makes [process_options] return [EXIT_FAILURE] with no device set;
    [process_options] comes to an end on every argument vector, and on
    none of them does it set the device: the path opened is always the
    default one. *)
Theorem device_flag_is_rejected :
  (forall path : string,
      process_options ["stereo-es2gears"; "-d"; path]
      = Parsed EXIT_FAILURE no_options) /\
  (forall argv : list string, process_options argv <> Unfinished) /\
  (forall (argv : list string) (ret : Z) (options : stereo_options),
      process_options argv = Parsed ret options ->
      card options = None /\ device_path options = "/dev/dri/card0").
Proof.
  split; [|split].
  - intros path. reflexivity.
  - exact process_options_finishes.
  - intros argv ret options H.
    assert (C : match process_options argv with
                | Parsed _ options' => card options' = None
                | _ => True
                end)
      by exact (process_options_from_card argv (rounds_for argv) getopt_init
                  no_options eq_refl).
    rewrite H in C.
    split; [exact C|]. unfold device_path. now rewrite C.
Qed.

Lemma device_flag_is_rejected_witness :
  process_options ["stereo-es2gears"; "-d"; "/dev/dri/card1"]
  = Parsed EXIT_FAILURE no_options /\
  card no_options = None /\ device_path no_options = "/dev/dri/card0".
Proof.
  split.
  - exact (proj1 device_flag_is_rejected "/dev/dri/card1").
  - exact (proj2 (proj2 device_flag_is_rejected)
             ["stereo-es2gears"; "-d"; "/dev/dri/card1"] EXIT_FAILURE
             no_options eq_refl).
Defined.

End CommandLine.

(* ================================================================== *)
(** * Presenter *)

Module PresenterFacts.

Lemma count_app (p : call -> bool) (a b : list call) :
  count p (a ++ b) = (count p a + count p b)%nat.
Proof. unfold count. now rewrite filter_app, length_app. Qed.

Lemma count_none (p : call -> bool) (t : list call) :
  Forall (fun c => p c = false) t -> count p t = 0%nat.
Proof.
  unfold count. induction 1 as [|c t H _ IH]; [reflexivity|].
  cbn [filter]. now rewrite H.
Qed.

Lemma count_none_inv (p : call -> bool) (t : list call) :
  count p t = 0%nat -> Forall (fun c => p c = false) t.
Proof.
  unfold count. induction t as [|c t IH]; intros H; [constructor|].
  cbn [filter] in H. destruct (p c) eqn:E; [discriminate H|].
  constructor; [exact E|now apply IH].
Qed.

Lemma only_events_count (p : call -> bool) (t : list call) :
  (forall completed, p (HandleEvent completed) = false) ->
  only_events t -> count p t = 0%nat.
Proof.
  intros P H. apply count_none. unfold only_events in H.
  rewrite Forall_forall in *. intros c I. destruct (H c I) as [b ->]. apply P.
Qed.

(** An element chosen by [p] in [a ++ b] sits in [b] when [p] chooses
    nothing in [a]. *)
Lemma split_past_prefix (p : call -> bool) :
  forall (a b before after : list call) (e : call),
    a ++ b = before ++ e :: after ->
    count p a = 0%nat -> p e = true ->
    exists b1, before = a ++ b1 /\ b = b1 ++ e :: after.
Proof.
  induction a as [|x a IH]; intros b before after e H C P.
  - exists before. auto.
  - unfold count in C. cbn [filter] in C.
    destruct (p x) eqn:X; [discriminate C|].
    destruct before as [|y before]; cbn [app] in H; injection H as -> H.
    + congruence.
    + destruct (IH b before after e H C P) as (b1 & -> & ->).
      exists b1. auto.
Qed.

Lemma set_pending_swap_twice (d : gbm_dev) (p q : Z) :
  set_pending_swap (set_pending_swap d p) q = set_pending_swap d q.
Proof. reflexivity. Qed.

Lemma set_pending_swap_same (d : gbm_dev) :
  set_pending_swap d (pending_swap d) = d.
Proof. now destruct d. Qed.

(** [wait_swap] calls nothing but [drmHandleEvent] and writes nothing but
    [pending_swap]. *)
Lemma wait_swap_frame :
  forall (evs : list bool) (d d' : gbm_dev) (s : status) (t : list call),
    wait_swap evs d = (s, d', t) ->
    only_events t /\ d' = set_pending_swap d (pending_swap d').
Proof.
  induction evs as [|completed evs IH]; intros d d' s t H;
    cbn [wait_swap] in H.
  - assert (d' = d /\ t = []) as [-> ->]
      by (destruct (pending_swap d =? 0); injection H; auto).
    split; [constructor|now rewrite set_pending_swap_same].
  - destruct (pending_swap d =? 0).
    { injection H as _ -> <-.
      split; [constructor|now rewrite set_pending_swap_same]. }
    destruct (wait_swap evs (if completed then page_flip_handler d else d))
      as [[s1 d1] t1] eqn:W.
    injection H as _ <- <-. destruct (IH _ _ _ _ W) as [O E].
    split; [constructor; [now exists completed|exact O]|].
    rewrite E. destruct completed; [|reflexivity].
    unfold page_flip_handler. now rewrite set_pending_swap_twice.
Qed.

(** [wait_swap] comes back from a pending flip only past a round of
    [drmHandleEvent] that ran the flip handler. *)
Lemma wait_swap_completes :
  forall (evs : list bool) (d d' : gbm_dev) (t : list call),
    pending_swap d <> 0 ->
    wait_swap evs d = (Returned, d', t) ->
    In (HandleEvent true) t /\ pending_swap d' = 0.
Proof.
  induction evs as [|completed evs IH]; intros d d' t P H;
    cbn [wait_swap] in H;
    destruct (Z.eqb_spec (pending_swap d) 0) as [|_]; try contradiction.
  - discriminate H.
  - destruct (wait_swap evs (if completed then page_flip_handler d else d))
      as [[s1 d1] t1] eqn:W.
    injection H as -> <- <-. destruct completed.
    + split; [now left|].
      destruct evs; cbn [wait_swap page_flip_handler set_pending_swap
                         pending_swap Z.eqb] in W; now injection W as <- _.
    + destruct (IH _ _ _ P W) as [I Q]. split; [now right|exact Q].
Qed.

(** With events enough for the flip to complete, [wait_swap] returns. *)
Lemma wait_swap_returns (evs : list bool) (d : gbm_dev) :
  In true evs -> exists d' t, wait_swap evs d = (Returned, d', t).
Proof.
  revert d. induction evs as [|completed evs IH]; intros d I; [destruct I|].
  cbn [wait_swap]. destruct (pending_swap d =? 0); [eauto|].
  destruct completed.
  - destruct evs; cbn [wait_swap page_flip_handler set_pending_swap
                       pending_swap Z.eqb]; eauto.
  - destruct I as [I|I]; [discriminate I|].
    destruct (IH d I) as (d' & t & ->). eauto.
Qed.

(** What [free_current_bo] calls: it unregisters the framebuffer and hands
    back the buffer that were current, and nothing else. *)
Lemma free_current_bo_calls (ctx ctx' : gbm_context) (t : list call) :
  free_current_bo ctx = (ctx', t) ->
  Forall (fun e => e = RmFB (current_fb_id ctx) \/
                   exists bo, current_bo ctx = Some bo /\
                              e = ReleaseBuffer bo) t /\
  count is_modeset t = 0%nat /\ count is_capture t = 0%nat /\
  count is_flip t = 0%nat.
Proof.
  unfold free_current_bo. intros H.
  destruct (negb (current_fb_id ctx =? 0));
    cbn [current_bo current_fb_id] in H;
    destruct (current_bo ctx) as [bo|]; injection H as _ <-;
    (split; [|split; [|split]; reflexivity]);
    repeat (apply Forall_cons || apply Forall_nil);
    first [left; reflexivity | right; eexists; split; reflexivity].
Qed.

(** The first half of [swap] past a registration that succeeded: the
    device structure and the calls once the modeset question is settled. *)
Lemma set_initial_crtc_calls (env : swap_env) (d : gbm_dev) (fb : Z) :
  exists ret log,
    set_initial_crtc env d fb
    = (ret, set_saved_crtc d (get_crtc env),
       capture_and_modeset env d fb ++ log) /\
    count is_modeset log = 0%nat /\ count is_capture log = 0%nat /\
    count is_release log = 0%nat /\ count is_flip log = 0%nat.
Proof.
  unfold set_initial_crtc. cbv zeta.
  destruct (negb (set_crtc_ret env =? 0)).
  - do 2 eexists. split; [reflexivity|]. repeat split; reflexivity.
  - exists 0, []. rewrite app_nil_r. repeat split; reflexivity.
Qed.

(** Every way a call of [swap] can go. *)
Lemma swap_outcomes (env : swap_env) (w w' : stereo_winsys) (s : status)
    (t : list call) :
  swap env w = (s, w', t) ->
  (add_fb env = None /\ s = Returned /\ w' = w /\
   t = registration env
       ++ [Stderr "Failed to create new back buffer handle: %m\n"]) \/
  exists fb d1 t1,
    add_fb env = Some fb /\
    ((exists cfg, saved_crtc (dev w) = Some cfg /\ d1 = dev w /\ t1 = []) \/
     (exists log,
         saved_crtc (dev w) = None /\
         d1 = set_saved_crtc (dev w) (get_crtc env) /\
         t1 = capture_and_modeset env (dev w) fb ++ log /\
         count is_modeset log = 0%nat /\ count is_capture log = 0%nat /\
         count is_release log = 0%nat /\ count is_flip log = 0%nat)) /\
    ((saved_crtc (dev w) = None /\ s = Returned /\
      w' = {| dev := d1; context := context w |} /\
      t = registration env ++ t1) \/
     (page_flip_ret env <> 0 /\ s = Returned /\
      w' = {| dev := d1; context := context w |} /\
      t = registration env ++ t1
          ++ [flip_request env d1 fb; Stderr "Failed to page flip: %m\n"]) \/
     (exists d2 t3,
         page_flip_ret env = 0 /\
         wait_swap (events env) (set_pending_swap d1 1) = (Blocked, d2, t3) /\
         s = Blocked /\ w' = {| dev := d2; context := context w |} /\
         t = registration env ++ t1 ++ [flip_request env d1 fb] ++ t3) \/
     (exists d2 t3 ctx t4,
         page_flip_ret env = 0 /\
         wait_swap (events env) (set_pending_swap d1 1) = (Returned, d2, t3) /\
         free_current_bo (context w) = (ctx, t4) /\
         s = Returned /\
         w' = {| dev := d2;
                 context := {| current_fb_id := fb;
                               current_bo := Some (front_buffer env) |} |} /\
         t = registration env ++ t1 ++ [flip_request env d1 fb] ++ t3 ++ t4)).
Proof.
  unfold swap. cbv zeta. fold (registration env).
  destruct (add_fb env) as [fb|]; [|intros H; injection H as <- <- <-; now left].
  intros H. right.
  assert (exists ret d1 t1,
             match saved_crtc (dev w) with
             | Some _ => (0, dev w, [])
             | None => set_initial_crtc env (dev w) fb
             end = (ret, d1, t1) /\
             (saved_crtc (dev w) <> None -> ret = 0) /\
             ((exists cfg, saved_crtc (dev w) = Some cfg /\ d1 = dev w /\
                           t1 = []) \/
              (exists log,
                  saved_crtc (dev w) = None /\
                  d1 = set_saved_crtc (dev w) (get_crtc env) /\
                  t1 = capture_and_modeset env (dev w) fb ++ log /\
                  count is_modeset log = 0%nat /\
                  count is_capture log = 0%nat /\
                  count is_release log = 0%nat /\
                  count is_flip log = 0%nat)))
    as (ret & d1 & t1 & E & Z0 & Sh).
  { destruct (saved_crtc (dev w)) as [cfg|].
    - exists 0, (dev w), []. split; [reflexivity|]. split; [reflexivity|].
      left. now exists cfg.
    - destruct (set_initial_crtc_calls env (dev w) fb)
        as (ret & log & -> & C).
      do 3 eexists. split; [reflexivity|]. split; [congruence|].
      right. exists log. auto. }
  rewrite E in H. exists fb, d1, t1. split; [reflexivity|]. split; [exact Sh|].
  destruct (Z.eqb_spec ret 0) as [->|Nz]; cbn [negb] in H.
  2:{ left. injection H as <- <- <-.
      destruct (saved_crtc (dev w)); [now specialize (Z0 ltac:(discriminate))|].
      auto. }
  right. fold (flip_request env d1 fb) in H.
  destruct (Z.eqb_spec (page_flip_ret env) 0) as [Pz|Pn]; cbn [negb] in H.
  2:{ left. injection H as <- <- <-. auto. }
  right.
  destruct (wait_swap (events env) (set_pending_swap d1 1))
    as [[s2 d2] t3] eqn:W.
  destruct s2.
  - right. destruct (free_current_bo (context w)) as [ctx t4] eqn:F.
    injection H as <- <- <-. exists d2, t3, ctx, t4. auto 10.
  - left. injection H as <- <- <-. exists d2, t3. auto 10.
Qed.

Lemma count_absent (p : call -> bool) (t before after : list call)
    (e : call) :
  count p t = 0%nat -> p e = true -> t <> before ++ e :: after.
Proof.
  intros C P ->. rewrite count_app in C. unfold count in C.
  cbn [filter] in C. rewrite P in C. cbn [List.length] in C. lia.
Qed.

(** Put the counts of a trace together from those of its parts. *)
Ltac count_parts :=
  rewrite ?count_app;
  repeat match goal with
         | H : count ?p ?t = 0%nat |- context [count ?p ?t] => rewrite H
         | H : only_events ?t |- context [count ?p ?t] =>
             rewrite (only_events_count p t (fun _ => eq_refl) H)
         end;
  try reflexivity.

(** Once a configuration is captured, [swap] leaves it alone, sets no
    mode, and flips whenever the registration succeeds. *)
Lemma swap_keeps_capture (env : swap_env) (w w' : stereo_winsys) (s : status)
    (t : list call) (cfg : drmModeCrtc) :
  saved_crtc (dev w) = Some cfg ->
  swap env w = (s, w', t) ->
  saved_crtc (dev w') = Some cfg /\
  count is_modeset t = 0%nat /\ count is_capture t = 0%nat /\
  (forall fb, add_fb env = Some fb -> In (flip_request env (dev w) fb) t).
Proof.
  intros S H.
  destruct (swap_outcomes env w w' s t H)
    as [(A & -> & -> & ->)|(fb & d1 & t1 & A & Sh & O)].
  { repeat split; trivial; try reflexivity. intros fb A'. congruence. }
  destruct Sh as [(cfg' & _ & -> & ->)|(log & S' & _)]; [|congruence].
  assert (Fl : forall fb', add_fb env = Some fb' -> fb' = fb) by congruence.
  destruct O as [(S' & _)|[(Pn & -> & -> & ->)|
                 [(d2 & t3 & Pz & W & -> & -> & ->)|
                  (d2 & t3 & ctx & t4 & Pz & W & F & -> & -> & ->)]]].
  - congruence.
  - repeat split; trivial; try reflexivity.
    intros fb' A'. rewrite (Fl fb' A'). apply in_or_app. right. now left.
  - destruct (wait_swap_frame _ _ _ _ _ W) as [Ev E].
    repeat split.
    + cbn [dev]. rewrite E. exact S.
    + count_parts.
    + count_parts.
    + intros fb' A'. rewrite (Fl fb' A').
      apply in_or_app. right. now left.
  - destruct (wait_swap_frame _ _ _ _ _ W) as [Ev E].
    destruct (free_current_bo_calls _ _ _ F) as (_ & M4 & C4 & _).
    repeat split.
    + cbn [dev]. rewrite E. exact S.
    + count_parts.
    + count_parts.
    + intros fb' A'. rewrite (Fl fb' A').
      apply in_or_app. right. now left.
Qed.

(** With nothing captured, a [swap] whose registration succeeds captures
    and sets the mode right after the registration, once. *)
Lemma swap_first_display (env : swap_env) (w w' : stereo_winsys) (s : status)
    (t : list call) (fb : Z) :
  saved_crtc (dev w) = None ->
  add_fb env = Some fb ->
  swap env w = (s, w', t) ->
  exists rest,
    t = registration env ++ capture_and_modeset env (dev w) fb ++ rest /\
    saved_crtc (dev w') = get_crtc env /\
    count is_modeset rest = 0%nat /\ count is_capture rest = 0%nat.
Proof.
  intros S A H.
  destruct (swap_outcomes env w w' s t H)
    as [(A' & _)|(fb' & d1 & t1 & A' & Sh & O)]; [congruence|].
  assert (fb' = fb) by congruence. subst fb'.
  destruct Sh as [(cfg & S' & _)|(log & _ & -> & -> & M & C & _)];
    [congruence|].
  destruct O as [(_ & -> & -> & ->)|[(Pn & -> & -> & ->)|
                 [(d2 & t3 & Pz & W & -> & -> & ->)|
                  (d2 & t3 & ctx & t4 & Pz & W & F & -> & -> & ->)]]].
  - exists log. repeat split; trivial.
  - eexists. rewrite <- !app_assoc. split; [reflexivity|].
    repeat split; count_parts.
  - destruct (wait_swap_frame _ _ _ _ _ W) as [Ev E].
    eexists. rewrite <- !app_assoc. split; [reflexivity|].
    split; [cbn [dev]; rewrite E; reflexivity|].
    split; count_parts.
  - destruct (wait_swap_frame _ _ _ _ _ W) as [Ev E].
    destruct (free_current_bo_calls _ _ _ F) as (_ & M4 & C4 & _).
    eexists. rewrite <- !app_assoc. split; [reflexivity|].
    split; [cbn [dev]; rewrite E; reflexivity|].
    split; count_parts.
Qed.

Lemma swap_not_displayed (env : swap_env) (w : stereo_winsys) :
  add_fb env = None ->
  swap env w
  = (Returned, w,
     registration env
     ++ [Stderr "Failed to create new back buffer handle: %m\n"]).
Proof.
  intros A. unfold swap, registration. cbv zeta. rewrite A. reflexivity.
Qed.

(** A run that starts with a configuration captured keeps it and sets no
    mode. *)
Lemma main_loop_keeps_capture (cfg : drmModeCrtc) :
  forall (frames : list swap_env) (w w' : stereo_winsys) (s : status)
         (t : list call),
    saved_crtc (dev w) = Some cfg ->
    main_loop frames w = (s, w', t) ->
    saved_crtc (dev w') = Some cfg /\
    count is_modeset t = 0%nat /\ count is_capture t = 0%nat.
Proof.
  induction frames as [|env frames IH]; intros w w' s t S H;
    cbn [main_loop] in H.
  - injection H as _ <- <-. auto.
  - destruct (swap env w) as [[s1 w1] t1] eqn:E.
    destruct (swap_keeps_capture env w w1 s1 t1 cfg S E) as (S1 & M1 & C1 & _).
    destruct s1.
    + destruct (main_loop frames w1) as [[s2 w2] t2] eqn:L.
      injection H as _ <- <-.
      destruct (IH w1 w2 s2 t2 S1 L) as (S2 & M2 & C2).
      repeat split; trivial; count_parts.
    + injection H as _ <- <-. auto.
Qed.

(** A run that starts with nothing captured, on a device that answers
    [drmModeGetCrtc]: one modeset and one capture when some frame reaches
    the display step, none otherwise. *)
Lemma main_loop_modesets :
  forall (frames : list swap_env) (w w' : stereo_winsys) (s : status)
         (t : list call),
    saved_crtc (dev w) = None ->
    Forall (fun env => get_crtc env <> None) frames ->
    main_loop frames w = (s, w', t) ->
    count is_modeset t
    = (if existsb reaches_display frames then 1 else 0)%nat /\
    count is_capture t
    = (if existsb reaches_display frames then 1 else 0)%nat.
Proof.
  induction frames as [|env frames IH]; intros w w' s t S G H;
    cbn [main_loop] in H.
  - injection H as <- <- <-. auto.
  - inversion G as [|env' frames' Ge G']. subst env' frames'.
    cbn [existsb]. unfold reaches_display at 1 3.
    destruct (add_fb env) as [fb|] eqn:A; cbn [orb].
    + destruct (swap env w) as [[s1 w1] t1] eqn:E.
      destruct (swap_first_display env w w1 s1 t1 fb S A E)
        as (rest & -> & S1 & M1 & C1).
      destruct (get_crtc env) as [cfg|] eqn:Gc; [|congruence].
      assert (K : count is_modeset (capture_and_modeset env (dev w) fb)
                  = 1%nat /\
                  count is_capture (capture_and_modeset env (dev w) fb)
                  = 1%nat) by (split; reflexivity).
      destruct K as [K1 K2].
      destruct s1.
      * destruct (main_loop frames w1) as [[s2 w2] t2] eqn:L.
        assert (Et : t = (registration env
                          ++ capture_and_modeset env (dev w) fb ++ rest) ++ t2)
          by (injection H; intros; symmetry; assumption).
        destruct (main_loop_keeps_capture cfg frames w1 w2 s2 t2 S1 L)
          as (_ & M2 & C2).
        rewrite Et, !count_app, K1, K2, M1, C1, M2, C2. split; reflexivity.
      * assert (Et : t = registration env
                         ++ capture_and_modeset env (dev w) fb ++ rest)
          by (injection H; intros; symmetry; assumption).
        rewrite Et, !count_app, K1, K2, M1, C1. split; reflexivity.
    + rewrite (swap_not_displayed env w A) in H.
      destruct (main_loop frames w) as [[s2 w2] t2] eqn:L.
      assert (Et : t = (registration env
                        ++ [Stderr "Failed to create new back buffer handle: %m\n"])
                       ++ t2)
        by (injection H; intros; symmetry; assumption).
      destruct (IH w w2 s2 t2 S G' L) as (M2 & C2).
      rewrite Et, !count_app, M2, C2. split; reflexivity.
Qed.

(** In a run that starts with nothing captured, the presents that do not
    reach the display step leave everything as it is, and the first one
    that does captures and sets the mode; nothing before it and nothing
    after it in the run does. *)
Lemma main_loop_first_display :
  forall (before : list swap_env) (env : swap_env) (after : list swap_env)
         (w w' : stereo_winsys) (s : status) (t : list call) (fb : Z),
    saved_crtc (dev w) = None ->
    Forall (fun e => add_fb e = None) before ->
    add_fb env = Some fb ->
    get_crtc env <> None ->
    main_loop (before ++ env :: after) w = (s, w', t) ->
    exists t0 rest,
      t = t0 ++ registration env ++ capture_and_modeset env (dev w) fb
             ++ rest /\
      count is_modeset t0 = 0%nat /\ count is_capture t0 = 0%nat /\
      count is_modeset rest = 0%nat /\ count is_capture rest = 0%nat /\
      saved_crtc (dev w') = get_crtc env.
Proof.
  induction before as [|e before IH]; intros env after w w' s t fb S B A G H.
  - cbn [app main_loop] in H.
    destruct (swap env w) as [[s1 w1] t1] eqn:E.
    destruct (swap_first_display env w w1 s1 t1 fb S A E)
      as (rest & -> & S1 & M1 & C1).
    destruct (get_crtc env) as [cfg|] eqn:Gc; [|congruence].
    destruct s1.
    + destruct (main_loop after w1) as [[s2 w2] t2] eqn:L.
      assert (Et : t = [] ++ registration env
                       ++ capture_and_modeset env (dev w) fb ++ rest ++ t2).
      { rewrite !app_assoc. cbn [app]. rewrite <- !app_assoc.
        injection H; intros; symmetry; assumption. }
      assert (Ew : w' = w2) by (injection H; intros; symmetry; assumption).
      destruct (main_loop_keeps_capture cfg after w1 w2 s2 t2 S1 L)
        as (S2 & M2 & C2).
      exists [], (rest ++ t2). rewrite Ew.
      repeat split; trivial; count_parts.
    + assert (Et : t = [] ++ registration env
                       ++ capture_and_modeset env (dev w) fb ++ rest)
        by (injection H; intros; symmetry; assumption).
      assert (Ew : w' = w1) by (injection H; intros; symmetry; assumption).
      exists [], rest. rewrite Ew. repeat split; trivial.
  - inversion B as [|e' before' Ae B']. subst e' before'.
    cbn [app main_loop] in H. rewrite (swap_not_displayed e w Ae) in H.
    destruct (main_loop (before ++ env :: after) w) as [[s2 w2] t2] eqn:L.
    destruct (IH env after w w2 s2 t2 fb S B' A G L)
      as (t0 & rest & -> & M0 & C0 & M1 & C1 & S2).
    assert (Et : t = ((registration e
                       ++ [Stderr "Failed to create new back buffer handle: %m\n"])
                      ++ t0)
                     ++ registration env
                     ++ capture_and_modeset env (dev w) fb ++ rest).
    { rewrite <- !app_assoc.
      injection H; intros; symmetry; assumption. }
    assert (Ew : w' = w2) by (injection H; intros; symmetry; assumption).
    eexists _, rest. rewrite Ew. split; [exact Et|].
    repeat split; trivial; count_parts.
Qed.

(** A present in which every call succeeds and the flip completes makes
    the new framebuffer and buffer the current pair. *)
Lemma swap_shows_frame (env : swap_env) (w : stereo_winsys) (fb : Z) :
  add_fb env = Some fb ->
  saved_crtc (dev w) <> None \/ set_crtc_ret env = 0 ->
  page_flip_ret env = 0 ->
  In true (events env) ->
  exists d' t,
    swap env w
    = (Returned,
       {| dev := d';
          context := {| current_fb_id := fb;
                        current_bo := Some (front_buffer env) |} |}, t).
Proof.
  intros A M P E. unfold swap. cbv zeta. rewrite A.
  assert (exists d1 t1,
             match saved_crtc (dev w) with
             | Some _ => (0, dev w, [])
             | None => set_initial_crtc env (dev w) fb
             end = (0, d1, t1)) as (d1 & t1 & ->).
  { destruct (saved_crtc (dev w)); [eauto|].
    destruct M as [M|M]; [congruence|].
    unfold set_initial_crtc. cbv zeta. rewrite M. cbn [Z.eqb negb]. eauto. }
  rewrite P. cbn [Z.eqb negb].
  destruct (wait_swap_returns (events env) (set_pending_swap d1 1) E)
    as (d2 & t3 & ->).
  destruct (free_current_bo (context w)) as [ctx t4]. eauto.
Qed.

End PresenterFacts.

Module Presenter.
Import PresenterFacts.

(** C7, as stated, fails: when [drmModeAddFB] fails, the buffer that
    [gbm_surface_lock_front_buffer] has just locked is never handed back;
    the trace of the call holds the lock and no release. *)
Lemma failed_registration_leaves_buffer_locked :
  add_fb frame_rejected = None /\
  front_buffer frame_rejected = sample_bo 2 /\
  exists t,
    swap frame_rejected showing_winsys = (Returned, showing_winsys, t) /\
    In (LockFrontBuffer (sample_bo 2)) t /\
    ~ In (ReleaseBuffer (sample_bo 2)) t /\
    count is_release t = 0%nat.
Proof.
  split; [reflexivity|]. split; [reflexivity|].
  eexists. split; [reflexivity|]. split; [right; left; reflexivity|].
  split; [|reflexivity].
  intros [H|[H|[H|[H|[]]]]]; discriminate H.
Qed.

(** C7, amended: when the registration of the locked buffer fails, [swap]
    writes the failure to the error stream and returns with the device
    structure and the current framebuffer and buffer unchanged; it sets no
    mode, requests no flip and releases nothing, the buffer it has just
    locked included. *)
Theorem failed_registration_keeps_state (env : swap_env)
    (w : stereo_winsys) :
  add_fb env = None ->
  swap env w
  = (Returned, w,
     [EglSwapBuffers; LockFrontBuffer (front_buffer env);
      AddFB (bo_width (front_buffer env)) (bo_height (front_buffer env)) 24 32
            (bo_stride (front_buffer env)) (bo_handle (front_buffer env)) None;
      Stderr "Failed to create new back buffer handle: %m\n"]) /\
  forall s w' t,
    swap env w = (s, w', t) ->
    s = Returned /\ dev w' = dev w /\ context w' = context w /\
    count is_release t = 0%nat /\ count is_modeset t = 0%nat /\
    count is_capture t = 0%nat /\ count is_flip t = 0%nat.
Proof.
  intros A.
  assert (E : swap env w
              = (Returned, w,
                 [EglSwapBuffers; LockFrontBuffer (front_buffer env);
                  AddFB (bo_width (front_buffer env))
                        (bo_height (front_buffer env)) 24 32
                        (bo_stride (front_buffer env))
                        (bo_handle (front_buffer env)) None;
                  Stderr "Failed to create new back buffer handle: %m\n"])).
  { unfold swap. cbv zeta. rewrite A. reflexivity. }
  split; [exact E|].
  intros s w' t H. rewrite E in H. injection H as <- <- <-.
  repeat split; reflexivity.
Qed.

Lemma failed_registration_keeps_state_witness :
  swap frame_rejected showing_winsys
  = (Returned, showing_winsys,
     [EglSwapBuffers; LockFrontBuffer (sample_bo 2);
      AddFB 1920 1080 24 32 7680 2 None;
      Stderr "Failed to create new back buffer handle: %m\n"]).
Proof.
  exact (proj1 (failed_registration_keeps_state frame_rejected showing_winsys
                  eq_refl)).
Defined.

(** C8: in every call of [swap], a framebuffer is unregistered or a buffer
    handed back only after the page flip was requested with success and a
    round of [drmHandleEvent] has run its completion handler; what is
    released then is the pair that was current when the call began, and a
    call that is still waiting has released nothing. *)
Theorem release_only_after_flip_completion (env : swap_env)
    (w w' : stereo_winsys) (s : status) (t before after : list call)
    (e : call) :
  swap env w = (s, w', t) ->
  t = before ++ e :: after ->
  is_release e = true ->
  s = Returned /\
  (e = RmFB (current_fb_id (context w)) \/
   exists bo, current_bo (context w) = Some bo /\ e = ReleaseBuffer bo) /\
  exists fb t1 t2 t3,
    add_fb env = Some fb /\
    before = t1 ++ PageFlip (crtc (dev w)) fb DRM_MODE_PAGE_FLIP_EVENT 0
                :: t2 ++ HandleEvent true :: t3.
Proof.
  intros H T R.
  assert (Reg : count is_release (registration env) = 0%nat) by reflexivity.
  destruct (swap_outcomes env w w' s t H)
    as [(A & -> & -> & Et)|(fb & d1 & t1 & A & Sh & O)].
  { exfalso. apply (count_absent is_release t before after e); trivial.
    rewrite Et. reflexivity. }
  assert (R1 : count is_release t1 = 0%nat /\ crtc d1 = crtc (dev w)).
  { destruct Sh as [(cfg & _ & -> & ->)|(log & _ & -> & -> & _ & _ & L & _)].
    - split; reflexivity.
    - split; [|reflexivity]. rewrite count_app, L. reflexivity. }
  destruct R1 as [R1 Cr].
  destruct O as [(_ & -> & -> & Et)|[(Pn & -> & -> & Et)|
                 [(d2 & t3 & Pz & W & -> & -> & Et)|
                  (d2 & t3 & ctx & t4 & Pz & W & F & -> & -> & Et)]]].
  - exfalso. apply (count_absent is_release t before after e); trivial.
    rewrite Et, count_app, Reg, R1. reflexivity.
  - exfalso. apply (count_absent is_release t before after e); trivial.
    rewrite Et, !count_app, Reg, R1. reflexivity.
  - exfalso. apply (count_absent is_release t before after e); trivial.
    destruct (wait_swap_frame _ _ _ _ _ W) as [Ev _].
    rewrite Et, !count_app, Reg, R1.
    rewrite (only_events_count is_release t3 (fun _ => eq_refl) Ev).
    reflexivity.
  - split; [reflexivity|].
    destruct (wait_swap_frame _ _ _ _ _ W) as [Ev _].
    assert (Pend : pending_swap (set_pending_swap d1 1) <> 0)
      by (cbn [pending_swap set_pending_swap]; discriminate).
    destruct (wait_swap_completes _ _ _ _ Pend W) as [Done _].
    destruct (free_current_bo_calls _ _ _ F) as (Sh4 & _).
    assert (Et' : (registration env ++ t1 ++ [flip_request env d1 fb] ++ t3)
                  ++ t4 = before ++ e :: after).
    { rewrite <- T, Et, <- !app_assoc. reflexivity. }
    destruct (split_past_prefix is_release _ _ _ _ _ Et') as (b1 & -> & E4);
      trivial.
    { rewrite !count_app, Reg, R1.
      rewrite (only_events_count is_release t3 (fun _ => eq_refl) Ev).
      reflexivity. }
    split.
    + rewrite Forall_forall in Sh4. apply Sh4. rewrite E4.
      apply in_or_app. right. now left.
    + apply in_split in Done as (x & y & ->).
      exists fb, (registration env ++ t1), x, (y ++ b1).
      split; [exact A|]. unfold flip_request. rewrite Pz, Cr.
      rewrite <- !app_assoc. reflexivity.
Qed.

Lemma release_only_after_flip_completion_witness :
  exists fb t1 t2 t3,
    add_fb frame_shown = Some fb /\
    [EglSwapBuffers; LockFrontBuffer (sample_bo 2);
     AddFB 1920 1080 24 32 7680 2 (Some 71);
     PageFlip 60 71 DRM_MODE_PAGE_FLIP_EVENT 0;
     HandleEvent false; HandleEvent true]
    = t1 ++ PageFlip (crtc (dev showing_winsys)) fb DRM_MODE_PAGE_FLIP_EVENT 0
         :: t2 ++ HandleEvent true :: t3.
Proof.
  exact (proj2 (proj2
    (release_only_after_flip_completion frame_shown showing_winsys
       {| dev := set_pending_swap (dev showing_winsys) 0;
          context := {| current_fb_id := 71;
                        current_bo := Some (sample_bo 2) |} |}
       Returned
       [EglSwapBuffers; LockFrontBuffer (sample_bo 2);
        AddFB 1920 1080 24 32 7680 2 (Some 71);
        PageFlip 60 71 DRM_MODE_PAGE_FLIP_EVENT 0;
        HandleEvent false; HandleEvent true;
        RmFB 70; ReleaseBuffer (sample_bo 1)]
       [EglSwapBuffers; LockFrontBuffer (sample_bo 2);
        AddFB 1920 1080 24 32 7680 2 (Some 71);
        PageFlip 60 71 DRM_MODE_PAGE_FLIP_EVENT 0;
        HandleEvent false; HandleEvent true]
       [ReleaseBuffer (sample_bo 1)]
       (RmFB 70) eq_refl eq_refl eq_refl))).
Defined.

(** C9, as stated, fails: when [drmModeGetCrtc] answers [NULL] in the
    first present that reaches the display step, nothing is captured and
    the next present sets the mode once more, capturing then. *)
Lemma second_present_sets_mode_again :
  saved_crtc (dev connected_winsys) = None /\
  reaches_display frame_uncaptured = true /\
  reaches_display frame_shown = true /\
  exists w' t,
    main_loop [frame_uncaptured; frame_shown] connected_winsys
    = (Returned, w', t) /\
    count is_modeset t = 2%nat /\ count is_capture t = 2%nat /\
    saved_crtc (dev w') = Some console_config.
Proof.
  repeat (split; [reflexivity|]).
  do 2 eexists. split; [reflexivity|]. repeat split; reflexivity.
Qed.

(** C9, amended: a present that reaches the display step while nothing is
    captured asks for the configuration of the controller and sets the
    chosen mode right after the registration, in that order, and keeps
    what [drmModeGetCrtc] answered; a present that begins with a
    configuration captured leaves it as it is, sets no mode, and requests
    a page flip whenever it reaches the display step; a present that does
    not reach the display step does neither.  So in every run of presents
    that begins with nothing captured and in which [drmModeGetCrtc]
    answers with a configuration, there is one modeset and one capture
    when some present reaches the display step and none otherwise, and
    they are those of the first present that reaches the display step. *)
Theorem modeset_while_nothing_captured :
  (forall env w w' s t fb,
      saved_crtc (dev w) = None ->
      add_fb env = Some fb ->
      swap env w = (s, w', t) ->
      exists rest,
        t = registration env ++ capture_and_modeset env (dev w) fb ++ rest /\
        saved_crtc (dev w') = get_crtc env /\
        count is_modeset rest = 0%nat /\ count is_capture rest = 0%nat) /\
  (forall env w w' s t cfg,
      saved_crtc (dev w) = Some cfg ->
      swap env w = (s, w', t) ->
      saved_crtc (dev w') = Some cfg /\
      count is_modeset t = 0%nat /\ count is_capture t = 0%nat /\
      (forall fb, add_fb env = Some fb -> In (flip_request env (dev w) fb) t)) /\
  (forall env w w' s t,
      add_fb env = None ->
      swap env w = (s, w', t) ->
      w' = w /\ count is_modeset t = 0%nat /\ count is_capture t = 0%nat) /\
  (forall frames w w' s t,
      saved_crtc (dev w) = None ->
      Forall (fun env => get_crtc env <> None) frames ->
      main_loop frames w = (s, w', t) ->
      count is_modeset t
      = (if existsb reaches_display frames then 1 else 0)%nat /\
      count is_capture t
      = (if existsb reaches_display frames then 1 else 0)%nat) /\
  (forall before env after w w' s t fb,
      saved_crtc (dev w) = None ->
      Forall (fun e => add_fb e = None) before ->
      add_fb env = Some fb ->
      get_crtc env <> None ->
      main_loop (before ++ env :: after) w = (s, w', t) ->
      exists t0 rest,
        t = t0 ++ registration env ++ capture_and_modeset env (dev w) fb
               ++ rest /\
        count is_modeset t0 = 0%nat /\ count is_capture t0 = 0%nat /\
        count is_modeset rest = 0%nat /\ count is_capture rest = 0%nat /\
        saved_crtc (dev w') = get_crtc env).
Proof.
  split; [|split; [|split; [|split]]]; [| | | |exact main_loop_first_display].
  - intros env w w' s t fb. apply swap_first_display.
  - intros env w w' s t cfg. apply swap_keeps_capture.
  - intros env w w' s t A H. rewrite (swap_not_displayed env w A) in H.
    injection H as _ <- <-. repeat split; reflexivity.
  - exact main_loop_modesets.
Qed.

Lemma modeset_while_nothing_captured_witness :
  count is_modeset
    (snd (main_loop [frame_rejected; frame_shown; frame_shown]
            connected_winsys)) = 1%nat /\
  saved_crtc
    (dev (snd (fst (swap frame_shown showing_winsys))))
  = Some console_config.
Proof.
  split.
  - refine (proj1 (proj1 (proj2 (proj2 (proj2 modeset_while_nothing_captured)))
             [frame_rejected; frame_shown; frame_shown] connected_winsys
             _ _ _ eq_refl _ eq_refl)).
    repeat constructor; discriminate.
  - exact (proj1 (proj1 (proj2 modeset_while_nothing_captured)
             frame_shown showing_winsys _ _ _ console_config
             eq_refl eq_refl)).
Defined.

End Presenter.

(* ================================================================== *)
(** * Controllers *)

Module CrtcFacts.

Lemma land_bit (a j : Z) :
  0 <= j < 32 ->
  (Z.land a (u32 (Z.shiftl 1 (j mod 32))) =? 0) = negb (Z.testbit a j).
Proof.
  intros Hj. rewrite Z.mod_small by exact Hj. rewrite Z.shiftl_1_l.
  unfold u32, wrap.
  rewrite (Z.mod_small (2 ^ j))
    by (split; [apply Z.pow_nonneg; lia|apply Z.pow_lt_mono_r; lia]).
  destruct (Z.testbit a j) eqn:B; cbn [negb].
  - apply Z.eqb_neq. intros E.
    assert (T : Z.testbit (Z.land a (2 ^ j)) j = true).
    { rewrite Z.land_spec, B, Z.pow2_bits_true by lia. reflexivity. }
    rewrite E, Z.bits_0 in T. discriminate.
  - apply Z.eqb_eq. apply Z.bits_inj'. intros n Hn.
    rewrite Z.land_spec, Z.bits_0, Z.pow2_bits_eqb by lia.
    destruct (Z.eqb_spec j n) as [->|]; [now rewrite B|apply andb_false_r].
Qed.

(** The inner loop, started at index [j] with [rest] the controllers from
    there on: the first index it can use, or none. *)
Lemma scan_crtcs_some (enc : drmModeEncoder) :
  forall (rest seen : list Z) (id : Z),
    (List.length (seen ++ rest) <= 32)%nat ->
    scan_crtcs enc rest (Z.of_nat (List.length seen)) = Some id ->
    exists k,
      nth_error (seen ++ rest) k = Some id /\ drives enc k /\ 0 < id /\
      (List.length seen <= k)%nat /\
      forall k' id',
        (List.length seen <= k' < k)%nat ->
        nth_error (seen ++ rest) k' = Some id' ->
        drives enc k' -> id' <= 0.
Proof.
  induction rest as [|c rest IH]; intros seen id Hl H; cbn [scan_crtcs] in H.
  - discriminate H.
  - assert (Hl' : (List.length ((seen ++ [c]) ++ rest) <= 32)%nat)
      by (rewrite <- app_assoc; exact Hl).
    rewrite length_app in Hl. cbn [List.length] in Hl.
    rewrite land_bit in H by lia.
    assert (Next : scan_crtcs enc rest (Z.of_nat (List.length (seen ++ [c])))
                   = scan_crtcs enc rest (Z.of_nat (List.length seen) + 1)).
    { rewrite length_app. cbn [List.length]. f_equal. lia. }
    assert (Here : nth_error (seen ++ c :: rest) (List.length seen) = Some c).
    { rewrite nth_error_app2, Nat.sub_diag by lia. reflexivity. }
    assert (Step : scan_crtcs enc rest (Z.of_nat (List.length seen) + 1)
                   = Some id ->
                   Z.testbit (possible_crtcs enc) (Z.of_nat (List.length seen))
                   = false \/ c <= 0 ->
                   exists k,
                     nth_error (seen ++ c :: rest) k = Some id /\
                     drives enc k /\ 0 < id /\ (List.length seen <= k)%nat /\
                     forall k' id',
                       (List.length seen <= k' < k)%nat ->
                       nth_error (seen ++ c :: rest) k' = Some id' ->
                       drives enc k' -> id' <= 0).
    { intros S Skip. rewrite <- Next in S.
      destruct (IH (seen ++ [c]) id Hl' S) as (k & N & D & P & L & F).
      rewrite <- app_assoc in N. cbn [app] in N.
      rewrite length_app in L. cbn [List.length] in L.
      exists k. repeat split; trivial; [lia|].
      intros k' id' R N' D'.
      destruct (Nat.eq_dec k' (List.length seen)) as [->|Ne].
      - rewrite Here in N'. injection N' as <-.
        destruct Skip as [B|B]; [unfold drives in D'; congruence|exact B].
      - apply (F k' id'); trivial.
        + rewrite length_app. cbn [List.length]. lia.
        + rewrite <- app_assoc. exact N'. }
    destruct (Z.testbit (possible_crtcs enc) (Z.of_nat (List.length seen)))
      eqn:B; cbn [negb] in H.
    + destruct (Z.ltb_spec 0 c) as [P|P].
      * injection H as <-. exists (List.length seen).
        repeat split; trivial. intros k' id' R. lia.
      * apply Step; [exact H|right; lia].
    + apply Step; [exact H|now left].
Qed.

Lemma scan_crtcs_none (enc : drmModeEncoder) :
  forall (rest seen : list Z),
    (List.length (seen ++ rest) <= 32)%nat ->
    scan_crtcs enc rest (Z.of_nat (List.length seen)) = None ->
    forall k id,
      (List.length seen <= k)%nat ->
      nth_error (seen ++ rest) k = Some id -> drives enc k -> id <= 0.
Proof.
  induction rest as [|c rest IH]; intros seen Hl H k id L N D;
    cbn [scan_crtcs] in H.
  - rewrite app_nil_r in N. apply SelectorFacts.nth_error_in_range in N. lia.
  - assert (Hl' : (List.length ((seen ++ [c]) ++ rest) <= 32)%nat)
      by (rewrite <- app_assoc; exact Hl).
    rewrite length_app in Hl. cbn [List.length] in Hl.
    rewrite land_bit in H by lia.
    assert (Next : scan_crtcs enc rest (Z.of_nat (List.length (seen ++ [c])))
                   = scan_crtcs enc rest (Z.of_nat (List.length seen) + 1)).
    { rewrite length_app. cbn [List.length]. f_equal. lia. }
    assert (Here : nth_error (seen ++ c :: rest) (List.length seen) = Some c).
    { rewrite nth_error_app2, Nat.sub_diag by lia. reflexivity. }
    assert (Later : scan_crtcs enc rest (Z.of_nat (List.length seen) + 1) = None ->
                    k <> List.length seen -> id <= 0).
    { intros S Ne. rewrite <- Next in S.
      apply (IH (seen ++ [c]) Hl' S k id); trivial.
      - rewrite length_app. cbn [List.length]. lia.
      - rewrite <- app_assoc. exact N. }
    destruct (Nat.eq_dec k (List.length seen)) as [->|Ne].
    + rewrite Here in N. injection N as <-. unfold drives in D.
      rewrite D in H. cbn [negb] in H.
      destruct (Z.ltb_spec 0 c); [discriminate H|lia].
    + destruct (Z.testbit (possible_crtcs enc) (Z.of_nat (List.length seen)));
        cbn [negb] in H; [destruct (0 <? c); [discriminate H|]|]; now apply Later.
Qed.

(** The outer loop: the first encoder of the list that gives a controller,
    and the first controller it gives. *)
Lemma scan_encoders_some (drm : drm_device) (res : drmModeRes) :
  (List.length (crtcs res) <= 32)%nat ->
  forall (rest : list Z) (id : Z),
    scan_encoders drm res rest = Some id ->
    exists pre e post k,
      rest = pre ++ e :: post /\
      usable_through drm res e k id /\
      (forall k' id', (k' < k)%nat -> ~ usable_through drm res e k' id') /\
      (forall e' k' id', In e' pre -> ~ usable_through drm res e' k' id').
Proof.
  intros Hl.
  induction rest as [|e rest IH]; intros id H; cbn [scan_encoders] in H.
  - discriminate H.
  - assert (Skip : scan_encoders drm res rest = Some id ->
                   (forall k' id', ~ usable_through drm res e k' id') ->
                   exists pre e0 post k,
                     e :: rest = pre ++ e0 :: post /\
                     usable_through drm res e0 k id /\
                     (forall k' id', (k' < k)%nat ->
                                     ~ usable_through drm res e0 k' id') /\
                     (forall e' k' id', In e' pre ->
                                        ~ usable_through drm res e' k' id')).
    { intros S No. destruct (IH id S) as (pre & e0 & post & k & -> & U & F & P).
      exists (e :: pre), e0, post, k. repeat split; trivial.
      intros e' k' id' [<-|I]; [apply No|now apply P]. }
    destruct (drmModeGetEncoder drm e) as [enc|] eqn:G.
    + destruct (scan_crtcs enc (crtcs res) 0) as [c|] eqn:S.
      * injection H as ->.
        destruct (scan_crtcs_some enc (crtcs res) [] id Hl S)
          as (k & N & D & P & _ & F).
        exists [], e, rest, k. cbn [app] in *. repeat split.
        -- exists enc. auto.
        -- intros k' id' L (enc' & G' & N' & D' & P').
           assert (enc' = enc) by congruence. subst enc'.
           specialize (F k' id' (conj (Nat.le_0_l _) L) N' D'). lia.
        -- intros e' k' id' [].
      * apply Skip; [exact H|].
        intros k' id' (enc' & G' & N' & D' & P').
        assert (enc' = enc) by congruence. subst enc'.
        pose proof (scan_crtcs_none enc (crtcs res) [] Hl S k' id'
                      (Nat.le_0_l _) N' D'). lia.
    + apply Skip; [exact H|].
      intros k' id' (enc' & G' & _). congruence.
Qed.

Lemma scan_encoders_none (drm : drm_device) (res : drmModeRes) :
  (List.length (crtcs res) <= 32)%nat ->
  forall rest : list Z,
    scan_encoders drm res rest = None ->
    forall e k id, In e rest -> ~ usable_through drm res e k id.
Proof.
  intros Hl.
  induction rest as [|e0 rest IH]; intros H e k id I; [destruct I|].
  cbn [scan_encoders] in H.
  destruct (drmModeGetEncoder drm e0) as [enc|] eqn:G.
  - destruct (scan_crtcs enc (crtcs res) 0) as [c|] eqn:S; [discriminate H|].
    destruct I as [<-|I]; [|now apply IH].
    intros (enc' & G' & N' & D' & P').
    assert (enc' = enc) by congruence. subst enc'.
    pose proof (scan_crtcs_none enc (crtcs res) [] Hl S k id
                  (Nat.le_0_l _) N' D'). lia.
  - destruct I as [<-|I]; [|now apply IH].
    intros (enc' & G' & _). congruence.
Qed.

(** A controller the scan gives is not 0. *)
Lemma scan_crtcs_positive (enc : drmModeEncoder) :
  forall (rest : list Z) (j id : Z), scan_crtcs enc rest j = Some id -> 0 < id.
Proof.
  induction rest as [|c rest IH]; intros j id H; cbn [scan_crtcs] in H.
  - discriminate H.
  - destruct (Z.land (possible_crtcs enc) (u32 (Z.shiftl 1 (j mod 32))) =? 0);
      [exact (IH _ _ H)|].
    destruct (Z.ltb_spec 0 c); [injection H as <-; assumption|exact (IH _ _ H)].
Qed.

Lemma scan_encoders_positive (drm : drm_device) (res : drmModeRes) :
  forall (rest : list Z) (id : Z), scan_encoders drm res rest = Some id -> 0 < id.
Proof.
  induction rest as [|e rest IH]; intros id H; cbn [scan_encoders] in H.
  - discriminate H.
  - destruct (drmModeGetEncoder drm e) as [enc|]; [|exact (IH _ H)].
    destruct (scan_crtcs enc (crtcs res) 0) as [c|] eqn:S; [|exact (IH _ H)].
    injection H as <-. exact (scan_crtcs_positive _ _ _ _ S).
Qed.

(** An attached encoder with a controller, in terms of [attached_crtc]. *)
Lemma attached_crtc_some (drm : drm_device) (c : drmModeConnector)
    (enc : drmModeEncoder) :
  encoder_id c <> 0 -> drmModeGetEncoder drm (encoder_id c) = Some enc ->
  0 < enc_crtc_id enc ->
  attached_crtc drm c = Some (enc_crtc_id enc).
Proof.
  intros E G P. unfold attached_crtc.
  destruct (Z.eqb_spec (encoder_id c) 0); [contradiction|].
  rewrite G, (proj2 (Z.ltb_lt _ _) P). reflexivity.
Qed.

(** [stereo_find_crtc] in terms of the attached encoder and the scan. *)
Lemma stereo_find_crtc_cases (drm : drm_device) (res : drmModeRes)
    (c : drmModeConnector) (d : gbm_dev) :
  (encoder_id c <> 0 /\ drmModeGetEncoder drm (encoder_id c) = None /\
   stereo_find_crtc drm res c d = Fault) \/
  (exists enc,
      encoder_id c <> 0 /\ drmModeGetEncoder drm (encoder_id c) = Some enc /\
      0 < enc_crtc_id enc /\
      stereo_find_crtc drm res c d
      = Ret (0, set_crtc d (crtc_id_after_free drm enc))) \/
  (attached_crtc drm c = None /\
   (encoder_id c = 0 \/ drmModeGetEncoder drm (encoder_id c) <> None) /\
   stereo_find_crtc drm res c d
   = match scan_encoders drm res (encoders c) with
     | Some id => Ret (0, set_crtc d id)
     | None => Ret (- ENOENT, d)
     end).
Proof.
  unfold stereo_find_crtc, attached_crtc.
  destruct (Z.eqb_spec (encoder_id c) 0) as [E|E].
  - right. right. cbn [bind]. auto.
  - destruct (drmModeGetEncoder drm (encoder_id c)) as [enc|].
    + destruct (Z.ltb_spec 0 (enc_crtc_id enc)) as [P|P]; cbn [bind].
      * right. left. exists enc. auto.
      * right. right. repeat split; trivial. right. discriminate.
    + left. auto.
Qed.

Lemma stereo_find_crtc_never_aborts (drm : drm_device) (res : drmModeRes)
    (c : drmModeConnector) (d : gbm_dev) :
  stereo_find_crtc drm res c d <> Abort.
Proof.
  destruct (stereo_find_crtc_cases drm res c d)
    as [(_ & _ & F)|[(enc & _ & _ & _ & F)|(_ & _ & F)]]; rewrite F;
    try discriminate.
  destruct (scan_encoders drm res (encoders c)); discriminate.
Qed.

End CrtcFacts.

Module Controllers.
Import CrtcFacts.

(** X1: with at most 31 controllers listed, so that every [1 << j] of the
    scan is a shift C defines, [stereo_find_crtc] returns 0 in two cases.
    When the connector is attached to an encoder that has a controller,
    what it stores in [dev->crtc] is what [enc->crtc_id] reads after
    [drmModeFreeEncoder] has freed the encoder, whatever the controller
    was.  When no encoder with a controller is attached, it stores a
    controller that is not 0, listed in [res->crtcs] at an index one of
    the connector's encoders can drive.  It returns [-ENOENT] with the
    device structure untouched exactly when there is neither. *)
Theorem find_crtc_attached_or_usable (drm : drm_device) (res : drmModeRes)
    (c : drmModeConnector) (d d' : gbm_dev) (ret : Z) :
  (List.length (crtcs res) <= 31)%nat ->
  stereo_find_crtc drm res c d = Ret (ret, d') ->
  (ret = 0 /\ d' = set_crtc d (crtc d') /\
   ((exists enc,
        encoder_id c <> 0 /\
        drmModeGetEncoder drm (encoder_id c) = Some enc /\
        0 < enc_crtc_id enc /\
        crtc d' = crtc_id_after_free drm enc) \/
    (attached_crtc drm c = None /\ 0 < crtc d' /\
     usable_crtc drm res c (crtc d')))) \/
  (ret = - ENOENT /\ d' = d /\ attached_crtc drm c = None /\
   forall id, ~ usable_crtc drm res c id).
Proof.
  intros Hl' H.
  assert (Hl : (List.length (crtcs res) <= 32)%nat) by lia.
  destruct (stereo_find_crtc_cases drm res c d)
    as [(_ & _ & F)|[(enc & E & G & P & F)|(A & _ & F)]]; rewrite F in H.
  - discriminate H.
  - injection H as <- <-. left. cbn [crtc set_crtc].
    conjs; trivial. left. exists enc. auto.
  - destruct (scan_encoders drm res (encoders c)) as [id|] eqn:S;
      injection H as <- <-.
    + left. cbn [crtc set_crtc].
      destruct (scan_encoders_some drm res Hl _ id S)
        as (pre & e & post & k & E & U & _).
      assert (P : 0 < id) by (destruct U as (enc & _ & _ & _ & P); exact P).
      conjs; trivial. right. conjs; trivial.
      exists e, k. split; [|exact U]. rewrite E. apply in_or_app.
      right. now left.
    + right. conjs; trivial.
      intros id (e & k & I & U).
      exact (scan_encoders_none drm res Hl _ S e k id I U).
Qed.

Lemma find_crtc_attached_or_usable_witness :
  exists enc,
    drmModeGetEncoder attached_device (encoder_id port_attached) = Some enc /\
    enc_crtc_id enc = 60 /\
    stereo_find_crtc attached_device attached_res port_attached
      (fresh_dev 3 40)
    = Ret (0, set_crtc (fresh_dev 3 40) 2863311530) /\
    2863311530 = crtc_id_after_free attached_device enc.
Proof.
  destruct (find_crtc_attached_or_usable attached_device attached_res
              port_attached (fresh_dev 3 40)
              (set_crtc (fresh_dev 3 40) 2863311530) 0
              ltac:(cbn; lia) eq_refl)
    as [(_ & _ & [(enc & _ & G & _ & C)|(A & _)])|(E & _)].
  - exists enc. split; [exact G|].
    split; [cbn in G; injection G as <-; reflexivity|].
    split; [reflexivity|exact C].
  - discriminate A.
  - discriminate E.
Defined.

(** X2: with at most 31 controllers listed and no encoder with a
    controller attached, the controller [stereo_find_crtc] takes is the
    first in the order of the search: no encoder earlier in
    [conn->encoders] gives any controller, and the encoder that does gives
    none at a smaller index of [res->crtcs]. *)
Theorem find_crtc_takes_first (drm : drm_device) (res : drmModeRes)
    (c : drmModeConnector) (d d' : gbm_dev) :
  (List.length (crtcs res) <= 31)%nat ->
  attached_crtc drm c = None ->
  stereo_find_crtc drm res c d = Ret (0, d') ->
  exists pre e post k,
    encoders c = pre ++ e :: post /\
    usable_through drm res e k (crtc d') /\
    (forall k' id', (k' < k)%nat -> ~ usable_through drm res e k' id') /\
    (forall e' k' id', In e' pre -> ~ usable_through drm res e' k' id').
Proof.
  intros Hl' A H.
  assert (Hl : (List.length (crtcs res) <= 32)%nat) by lia.
  destruct (stereo_find_crtc_cases drm res c d)
    as [(_ & _ & F)|[(enc & E & G & P & _)|(_ & _ & F)]].
  - rewrite F in H. discriminate H.
  - exfalso. unfold attached_crtc in A.
    destruct (Z.eqb_spec (encoder_id c) 0); [contradiction|].
    rewrite G in A. rewrite (proj2 (Z.ltb_lt _ _) P) in A. discriminate A.
  - rewrite F in H.
    destruct (scan_encoders drm res (encoders c)) as [id|] eqn:S;
      [|discriminate H].
    injection H as <-. cbn [crtc set_crtc].
    exact (scan_encoders_some drm res Hl _ id S).
Qed.

Lemma find_crtc_takes_first_witness :
  exists pre e post k,
    encoders port_display = pre ++ e :: post /\
    usable_through two_ports two_ports_res e k 60 /\
    (forall k' id', (k' < k)%nat ->
                    ~ usable_through two_ports two_ports_res e k' id') /\
    (forall e' k' id', In e' pre ->
                       ~ usable_through two_ports two_ports_res e' k' id').
Proof.
  exact (find_crtc_takes_first two_ports two_ports_res port_display
           (fresh_dev 3 40) (set_crtc (fresh_dev 3 40) 60)
           ltac:(cbn; lia) eq_refl eq_refl).
Defined.

(** X3: [stereo_find_crtc] reads through a [NULL] encoder exactly when the
    connector names an attached encoder that [drmModeGetEncoder] does not
    give; it never runs into an assertion. *)
Theorem find_crtc_faults_on_missing_attached_encoder (drm : drm_device)
    (res : drmModeRes) (c : drmModeConnector) (d : gbm_dev) :
  (stereo_find_crtc drm res c d = Fault <->
   encoder_id c <> 0 /\ drmModeGetEncoder drm (encoder_id c) = None) /\
  stereo_find_crtc drm res c d <> Abort.
Proof.
  destruct (stereo_find_crtc_cases drm res c d)
    as [(E & G & F)|[(enc & E & G & P & F)|(A & E & F)]]; rewrite F.
  - split; [tauto|discriminate].
  - split; [|discriminate]. split; [discriminate|].
    intros [_ G']. rewrite G' in G. discriminate G.
  - split.
    + split.
      * destruct (scan_encoders drm res (encoders c)); discriminate.
      * intros [E' G]. destruct E as [E|E]; contradiction.
    + destruct (scan_encoders drm res (encoders c)); discriminate.
Qed.

End Controllers.

(* ================================================================== *)
(** * Discovery as a whole *)

Module DiscoveryFacts.
Import SelectorFacts LayoutFacts CrtcFacts.

Lemma is_chosen_mode_ret (m : drmModeModeInfo) (options : stereo_options)
    (old_mode : option drmModeModeInfo) (b : bool) :
  is_chosen_mode m options old_mode = Ret b ->
  stereo_layout options = None \/ known_tag m.
Proof.
  unfold is_chosen_mode, known_tag. cbv zeta.
  destruct (stereo_layout options); [|now left].
  destruct (get_stereo_mode (mode_3d m)); [right; discriminate|discriminate].
Qed.

Lemma is_chosen_mode_never_aborts (m : drmModeModeInfo)
    (options : stereo_options) (old_mode : option drmModeModeInfo) :
  is_chosen_mode m options old_mode <> Abort.
Proof.
  unfold is_chosen_mode. cbv zeta.
  destruct (stereo_layout options);
    [destruct (get_stereo_mode (mode_3d m)); cbn [bind]|cbn [bind]];
    try discriminate;
    match goal with |- context [if ?b then _ else _] => destruct b end;
    discriminate.
Qed.

(** A loop that came back has not read through a [NULL] table entry. *)
Lemma find_mode_from_ret_defined (options : stereo_options)
    (arr : list drmModeModeInfo) :
  forall (rest : list drmModeModeInfo) (i : nat) (d : gbm_dev)
         (old_mode : option nat) (r : gbm_dev * option nat),
    find_mode_from arr options rest i d old_mode = Ret r ->
    stereo_layout options = None \/ Forall known_tag rest.
Proof.
  induction rest as [|m rest IH]; intros i d old_mode r H.
  - right. constructor.
  - cbn [find_mode_from] in H.
    destruct (is_chosen_mode m options (deref arr old_mode)) as [b| |] eqn:E;
      cbn [bind] in H; try discriminate H.
    apply is_chosen_mode_ret in E.
    assert (R : stereo_layout options = None \/ Forall known_tag rest)
      by (destruct b; eapply IH; exact H).
    destruct E as [E|E]; [now left|].
    destruct R as [R|R]; [now left|right]. now constructor.
Qed.

Lemma find_mode_from_never_aborts (options : stereo_options)
    (arr : list drmModeModeInfo) :
  forall (rest : list drmModeModeInfo) (i : nat) (d : gbm_dev)
         (old_mode : option nat),
    find_mode_from arr options rest i d old_mode <> Abort.
Proof.
  induction rest as [|m rest IH]; intros i d old_mode; cbn [find_mode_from].
  - discriminate.
  - pose proof (is_chosen_mode_never_aborts m options (deref arr old_mode)).
    destruct (is_chosen_mode m options (deref arr old_mode)) as [[|]| |];
      cbn [bind]; try apply IH; try discriminate; contradiction.
Qed.

(** [find_mode] writes [dev->mode] and nothing else. *)
Lemma find_mode_from_frame (options : stereo_options)
    (arr : list drmModeModeInfo) :
  forall (rest : list drmModeModeInfo) (i : nat) (d d' : gbm_dev)
         (old_mode old' : option nat),
    find_mode_from arr options rest i d old_mode = Ret (d', old') ->
    d' = set_mode d (mode d').
Proof.
  induction rest as [|m rest IH]; intros i d d' old_mode old' H;
    cbn [find_mode_from] in H.
  - injection H as <- _. now destruct d.
  - destruct (is_chosen_mode m options (deref arr old_mode)) as [[|]| |];
      cbn [bind] in H; try discriminate H.
    + apply IH in H. rewrite H. reflexivity.
    + now apply IH in H.
Qed.

(** A [find_mode] that came back with 0: the mode it chose. *)
Lemma find_mode_chosen (d d' : gbm_dev) (c : drmModeConnector)
    (options : stereo_options) :
  find_mode d c options = Ret (0, d') ->
  d' = set_mode d (mode d') /\
  exists i,
    nth_error (modes c) i = Some (mode d') /\
    candidate options (mode d') = true /\
    0 <= get_mode_rank (Some (mode d')).
Proof.
  intros H. unfold find_mode in H.
  destruct (find_mode_from (modes c) options (modes c) 0 d None)
    as [[d1 old1]| |] eqn:F; cbn [bind] in H; try discriminate H.
  assert (D : selector_defined options (modes c))
    by exact (find_mode_from_ret_defined _ _ _ _ _ _ _ F).
  destruct (find_mode_best d c options D) as (d2 & old2 & F2 & _ & B & _).
  rewrite F in F2. injection F2 as <- <-.
  destruct old1 as [i|]; [|discriminate H]. injection H as <-.
  split; [exact (find_mode_from_frame _ _ _ _ _ _ _ _ F)|].
  destruct B as (m & N & M & C & R & _). subst m. exists i. auto.
Qed.

Lemma bind_never_aborts {A B : Type} (c : outcome A) (k : A -> outcome B) :
  c <> Abort -> (forall a, c = Ret a -> k a <> Abort) -> bind c k <> Abort.
Proof.
  intros C K. destruct c as [a| |]; cbn [bind];
    [now apply K|contradiction|discriminate].
Qed.

Lemma find_mode_never_aborts (d : gbm_dev) (c : drmModeConnector)
    (options : stereo_options) :
  find_mode d c options <> Abort.
Proof.
  unfold find_mode. apply bind_never_aborts.
  - apply find_mode_from_never_aborts.
  - intros [d' old'] _. discriminate.
Qed.

(** The assertion of [get_layout_for_mode] is out of reach of the set-up
    of a connector. *)
Lemma stereo_setup_dev_never_aborts (drm : drm_device) (res : drmModeRes)
    (c : drmModeConnector) (options : stereo_options) (d : gbm_dev) :
  stereo_setup_dev drm res c options d <> Abort.
Proof.
  unfold stereo_setup_dev.
  destruct (negb (connection c =? DRM_MODE_CONNECTED)); [discriminate|].
  apply bind_never_aborts; [apply find_mode_never_aborts|].
  intros [ret d1] F.
  destruct (Z.eqb_spec ret 0) as [->|Nz]; cbn [negb]; [|discriminate].
  apply bind_never_aborts.
  - pose proof (find_mode_success_ranked _ _ _ _ F) as R.
    apply layout_defined_iff_rank in R as [l L]. rewrite L. discriminate.
  - intros l _. apply bind_never_aborts.
    + destruct (get_stereo_mode _); discriminate.
    + intros _ _. apply stereo_find_crtc_never_aborts.
Qed.

End DiscoveryFacts.

Module Discovery.
Import DiscoveryFacts SelectorFacts LayoutFacts CrtcFacts.

(** X4: when [stereo_prepare_dev] gives a device structure, the structure
    is complete: it is bound to the connector [get_connector] picked, and
    that connector is connected; its mode is one of the modes of the
    connector, passes the requested layout and has a rank; its layout is
    the one [get_layout_for_mode] computes for that mode; no configuration
    is captured and no flip is pending.  Its controller is not 0 when the
    connector is attached to no encoder with a controller; when it is
    attached to one, the controller is what [enc->crtc_id] reads after the
    encoder has been freed. *)
Theorem prepared_device_is_bound (drm : drm_device) (fd0 : Z)
    (options : stereo_options) (d : gbm_dev) :
  stereo_prepare_dev drm fd0 options = Ret (Some d) ->
  exists res c i,
    drmModeGetResources drm = Some res /\
    get_connector drm res options = Some c /\
    connection c = DRM_MODE_CONNECTED /\
    fd d = fd0 /\ conn d = connector_id c /\
    nth_error (modes c) i = Some (mode d) /\
    candidate options (mode d) = true /\
    0 <= get_mode_rank (Some (mode d)) /\
    get_layout_for_mode (mode d) = Ret (layout d) /\
    (attached_crtc drm c = None -> 0 < crtc d) /\
    (forall enc,
        encoder_id c <> 0 ->
        drmModeGetEncoder drm (encoder_id c) = Some enc ->
        0 < enc_crtc_id enc ->
        crtc d = crtc_id_after_free drm enc) /\
    saved_crtc d = None /\ pending_swap d = 0.
Proof.
  unfold stereo_prepare_dev. intros H.
  destruct (drmModeGetResources drm) as [res|]; [|discriminate H].
  destruct (get_connector drm res options) as [c|] eqn:G; [|discriminate H].
  unfold stereo_setup_dev in H.
  destruct (Z.eqb_spec (connection c) DRM_MODE_CONNECTED) as [Cn|Cn];
    cbn [negb bind] in H; [|discriminate H].
  destruct (find_mode (fresh_dev fd0 (connector_id c)) c options)
    as [[ret d1]| |] eqn:F; cbn [bind] in H; try discriminate H.
  destruct (Z.eqb_spec ret 0) as [->|Nz]; cbn [negb bind Z.eqb] in H;
    [|rewrite (proj2 (Z.eqb_neq _ _) Nz) in H; discriminate H].
  destruct (find_mode_chosen _ _ _ _ F) as (E1 & i & N & C & R).
  destruct (get_layout_for_mode (mode d1)) as [l| |] eqn:L; cbn [bind] in H;
    try discriminate H.
  change (mode (set_layout d1 l)) with (mode d1) in H.
  destruct (get_stereo_mode (mode_3d (mode d1))); cbn [bind] in H;
    [|discriminate H].
  destruct (stereo_find_crtc drm res c (set_layout d1 l))
    as [[ret2 d2]| |] eqn:K; cbn [bind] in H; try discriminate H.
  destruct (Z.eqb_spec ret2 0) as [->|Nz]; cbn [negb Z.eqb] in H;
    [|discriminate H].
  injection H as <-.
  destruct (stereo_find_crtc_cases drm res c (set_layout d1 l))
    as [(_ & _ & K')|[(enc & Ee & Ge & Pe & K')|(A & _ & K')]];
    rewrite K' in K; try discriminate K.
  - injection K as <-. exists res, c, i. rewrite E1.
    cbn -[get_layout_for_mode get_mode_rank candidate].
    cbn [mode set_mode] in N, C, R, L.
    conjs; trivial.
    + intros A. rewrite (attached_crtc_some _ _ _ Ee Ge Pe) in A.
      discriminate A.
    + intros enc' _ Ge' _. congruence.
  - destruct (scan_encoders drm res (encoders c)) as [id|] eqn:S;
      [|discriminate K].
    injection K as <-.
    pose proof (scan_encoders_positive _ _ _ _ S) as P.
    exists res, c, i. rewrite E1.
    cbn -[get_layout_for_mode get_mode_rank candidate].
    cbn [mode set_mode] in N, C, R, L.
    conjs; trivial.
    intros enc Ee Ge Pe. rewrite (attached_crtc_some _ _ _ Ee Ge Pe) in A.
    discriminate A.
Qed.

Lemma prepared_device_is_bound_witness :
  exists d,
    stereo_prepare_dev attached_device 3 no_options = Ret (Some d) /\
    crtc d = 2863311530 /\
    exists res c i,
      drmModeGetResources attached_device = Some res /\
      get_connector attached_device res no_options = Some c /\
      connection c = DRM_MODE_CONNECTED /\
      fd d = 3 /\ conn d = connector_id c /\
      nth_error (modes c) i = Some (mode d) /\
      candidate no_options (mode d) = true /\
      0 <= get_mode_rank (Some (mode d)) /\
      get_layout_for_mode (mode d) = Ret (layout d) /\
      (attached_crtc attached_device c = None -> 0 < crtc d) /\
      (forall enc,
          encoder_id c <> 0 ->
          drmModeGetEncoder attached_device (encoder_id c) = Some enc ->
          0 < enc_crtc_id enc ->
          crtc d = crtc_id_after_free attached_device enc) /\
      saved_crtc d = None /\ pending_swap d = 0.
Proof.
  eexists. split; [reflexivity|]. split; [reflexivity|].
  exact (prepared_device_is_bound attached_device 3 no_options _ eq_refl).
Defined.

(** X5: discovery never runs into the assertion of [get_layout_for_mode],
    whatever the device reports and whatever is asked for; and it gives no
    device structure whenever the resources cannot be had, no connector is
    picked, or the connector picked advertises no mode. *)
Theorem discovery_never_aborts (drm : drm_device) (fd0 : Z)
    (options : stereo_options) :
  stereo_prepare_dev drm fd0 options <> Abort /\
  (drmModeGetResources drm = None ->
   stereo_prepare_dev drm fd0 options = Ret None) /\
  (forall res,
      drmModeGetResources drm = Some res ->
      get_connector drm res options = None ->
      stereo_prepare_dev drm fd0 options = Ret None) /\
  (forall res c,
      drmModeGetResources drm = Some res ->
      get_connector drm res options = Some c ->
      modes c = [] ->
      stereo_prepare_dev drm fd0 options = Ret None).
Proof.
  split; [|split; [|split]].
  - unfold stereo_prepare_dev.
    destruct (drmModeGetResources drm) as [res|]; [|discriminate].
    destruct (get_connector drm res options) as [c|]; [|discriminate].
    apply bind_never_aborts; [apply stereo_setup_dev_never_aborts|].
    intros [ret d1] _. destruct (negb (ret =? 0)); discriminate.
  - intros R. unfold stereo_prepare_dev. now rewrite R.
  - intros res R G. unfold stereo_prepare_dev. now rewrite R, G.
  - intros res c R G M. unfold stereo_prepare_dev. rewrite R, G.
    unfold stereo_setup_dev, find_mode. rewrite M.
    destruct (negb (connection c =? DRM_MODE_CONNECTED)); reflexivity.
Qed.

Lemma discovery_never_aborts_witness :
  stereo_prepare_dev two_ports 3 no_options = Ret None.
Proof.
  exact (proj2 (proj2 (proj2 (discovery_never_aborts two_ports 3 no_options)))
           two_ports_res port_unplugged eq_refl eq_refl eq_refl).
Defined.

End Discovery.

(* ================================================================== *)
(** * Selection by name *)

Module SelectionFacts.
Import SelectorFacts.

(** Stereo bits the table knows are those of a packing. *)
Lemma known_tag_has_packing (m : drmModeModeInfo) :
  known_tag m -> exists p, has_packing m p.
Proof.
  unfold known_tag, has_packing, get_stereo_mode, stereo_modes.
  cbn [find mode_number]. intros K.
  repeat match goal with
         | K : context [if ?x =? mode_3d m then _ else _] |- _ =>
             destruct (Z.eqb_spec x (mode_3d m)) as [E|_];
             [clear K | ]
         end;
    try (now contradiction K).
  - now exists PNone.
  - now exists FramePacking.
  - now exists FieldAlternative.
  - now exists LineAlternative.
  - now exists SideBySideFull.
  - now exists LDepth.
  - now exists LDepthGfxGfxDepth.
  - now exists TopAndBottom.
  - now exists SideBySideHalf.
Qed.

(** No two packings share a short name. *)
Lemma packing_name_injective (p q : packing) :
  packing_name p = packing_name q -> p = q.
Proof. destruct p, q; intros H; try reflexivity; discriminate H. Qed.

(** With the name of a packing requested, the modes that pass the filter
    are the modes of that packing. *)
Lemma candidate_by_name (options : stereo_options) (p : packing)
    (m : drmModeModeInfo) :
  stereo_layout options = Some (packing_name p) ->
  known_tag m ->
  (candidate options m = true <-> has_packing m p).
Proof.
  intros L K. destruct (known_tag_has_packing m K) as [q Q].
  unfold candidate. rewrite L. unfold has_packing in *. rewrite Q.
  assert (G : get_stereo_mode (packing_flag q)
              = Some {| mode_number := packing_flag q;
                        short_name := packing_name q;
                        long_name := match get_stereo_mode (packing_flag q) with
                                     | Some s => long_name s
                                     | None => ""
                                     end |})
    by (destruct q; reflexivity).
  rewrite G. cbn [short_name]. split.
  - intros H. apply Z.eqb_eq, strcmp_zero_iff, packing_name_injective in H.
    now subst q.
  - intros H. apply packing_flag_injective in H. subst q.
    apply Z.eqb_eq, strcmp_zero_iff. reflexivity.
Qed.

End SelectionFacts.

Module Selection.
Import SelectorFacts SelectionFacts DiscoveryFacts.

(** X6: with the short name of a packing requested and every mode carrying
    a tag of the table, [find_mode] takes the first advertised mode of that
    packing when the packing has a rank, writing that mode and nothing
    else into the device structure; it returns [-ENOENT] and writes
    nothing when no mode has the packing, and always when the packing has
    no rank (fa, la, ld, ldggd). *)
Theorem requested_layout_takes_first_of_packing (d : gbm_dev)
    (c : drmModeConnector) (options : stereo_options) (p : packing) :
  stereo_layout options = Some (packing_name p) ->
  Forall known_tag (modes c) ->
  (ranked p = true /\
   exists i m,
     nth_error (modes c) i = Some m /\ has_packing m p /\
     (forall k mk, (k < i)%nat -> nth_error (modes c) k = Some mk ->
                   ~ has_packing mk p) /\
     find_mode d c options = Ret (0, set_mode d m)) \/
  ((ranked p = false \/ forall m, In m (modes c) -> ~ has_packing m p) /\
   find_mode d c options = Ret (- ENOENT, d)).
Proof.
  intros L K.
  assert (Kn : forall k mk, nth_error (modes c) k = Some mk -> known_tag mk).
  { intros k mk N. rewrite Forall_forall in K. apply K.
    exact (nth_error_In _ _ N). }
  destruct (find_mode_best d c options (or_intror K))
    as (d' & old' & F & R & B & U).
  destruct old' as [i|].
  - left. destruct B as (m & N & M & C & P & _ & Lt).
    apply (candidate_by_name options p m L (Kn i m N)) in C.
    pose proof (get_mode_rank_packing m p C) as Rk.
    split; [unfold ranked; apply Z.leb_le; lia|].
    exists i, m. repeat split; trivial.
    + intros k mk Lk Nk Pk.
      pose proof (get_mode_rank_packing mk p Pk) as Rk'.
      apply (candidate_by_name options p mk L (Kn k mk Nk)) in Pk.
      specialize (Lt k mk Lk Nk Pk). lia.
    + rewrite R. rewrite (find_mode_from_frame _ _ _ _ _ _ _ _ F), M.
      reflexivity.
  - right. rewrite R, (U eq_refl). split; [|reflexivity].
    destruct (ranked p) eqn:Rp; [right|now left].
    intros m I Pm.
    pose proof (get_mode_rank_packing m p Pm) as Rk.
    rewrite Forall_forall in K.
    apply (candidate_by_name options p m L (K m I)) in Pm.
    specialize (B m I Pm). unfold ranked in Rp. apply Z.leb_le in Rp. lia.
Qed.

Lemma requested_layout_takes_first_of_packing_witness :
  (ranked TopAndBottom = true /\
   exists i m,
     nth_error [timing 1920 1080 1125 FramePacking;
                timing 1920 1080 1125 TopAndBottom;
                timing 1280 720 750 TopAndBottom] i = Some m /\
     has_packing m TopAndBottom /\
     (forall k mk, (k < i)%nat ->
        nth_error [timing 1920 1080 1125 FramePacking;
                   timing 1920 1080 1125 TopAndBottom;
                   timing 1280 720 750 TopAndBottom] k = Some mk ->
        ~ has_packing mk TopAndBottom) /\
     find_mode (fresh_dev 3 7)
       {| connector_id := 7; encoder_id := 0;
          connection := DRM_MODE_CONNECTED;
          modes := [timing 1920 1080 1125 FramePacking;
                    timing 1920 1080 1125 TopAndBottom;
                    timing 1280 720 750 TopAndBottom];
          encoders := [] |}
       {| card := None; stereo_layout := Some "tb"; connector := 0 |}
     = Ret (0, set_mode (fresh_dev 3 7) m)) \/
  ((ranked TopAndBottom = false \/
    forall m,
      In m [timing 1920 1080 1125 FramePacking;
            timing 1920 1080 1125 TopAndBottom;
            timing 1280 720 750 TopAndBottom] ->
      ~ has_packing m TopAndBottom) /\
   find_mode (fresh_dev 3 7)
     {| connector_id := 7; encoder_id := 0;
        connection := DRM_MODE_CONNECTED;
        modes := [timing 1920 1080 1125 FramePacking;
                  timing 1920 1080 1125 TopAndBottom;
                  timing 1280 720 750 TopAndBottom];
        encoders := [] |}
     {| card := None; stereo_layout := Some "tb"; connector := 0 |}
   = Ret (- ENOENT, fresh_dev 3 7)).
Proof.
  apply (requested_layout_takes_first_of_packing (fresh_dev 3 7)
           {| connector_id := 7; encoder_id := 0;
              connection := DRM_MODE_CONNECTED;
              modes := [timing 1920 1080 1125 FramePacking;
                        timing 1920 1080 1125 TopAndBottom;
                        timing 1280 720 750 TopAndBottom];
              encoders := [] |}
           {| card := None; stereo_layout := Some "tb"; connector := 0 |}
           TopAndBottom eq_refl).
  repeat constructor; discriminate.
Defined.

End Selection.

(* ================================================================== *)
(** * The flip cycle *)

Module FlipFacts.
Import PresenterFacts.

(** [wait_swap] with a flip pending, on the events up to the first
    completion and on events without one. *)
Lemma wait_swap_first_completion (d : gbm_dev) :
  pending_swap d <> 0 ->
  forall before after : list bool,
    Forall (fun e => e = false) before ->
    wait_swap (before ++ true :: after) d
    = (Returned, set_pending_swap d 0, map HandleEvent (before ++ [true])).
Proof.
  intros P. induction before as [|e before IH]; intros after F.
  - cbn [app wait_swap map]. destruct (Z.eqb_spec (pending_swap d) 0);
      [contradiction|].
    destruct after; cbn [wait_swap page_flip_handler set_pending_swap
                         pending_swap Z.eqb]; reflexivity.
  - inversion F as [|e' before' Pe F']. subst.
    cbn [app wait_swap map]. destruct (Z.eqb_spec (pending_swap d) 0);
      [contradiction|].
    rewrite (IH after F'). reflexivity.
Qed.

Lemma wait_swap_no_completion (d : gbm_dev) :
  pending_swap d <> 0 ->
  forall evs : list bool,
    Forall (fun e => e = false) evs ->
    wait_swap evs d = (Blocked, d, map HandleEvent evs).
Proof.
  intros P. induction evs as [|e evs IH]; intros F; cbn [wait_swap map];
    destruct (Z.eqb_spec (pending_swap d) 0); try contradiction;
    [reflexivity|].
  inversion F as [|e' evs' Pe F']. subst.
  rewrite (IH F'). reflexivity.
Qed.

(** Every list of events has a completion first, or none at all. *)
Lemma first_completion (evs : list bool) :
  Forall (fun e => e = false) evs \/
  exists before after,
    evs = before ++ true :: after /\ Forall (fun e => e = false) before.
Proof.
  induction evs as [|[|] evs IH].
  - left. constructor.
  - right. exists [], evs. split; [reflexivity|constructor].
  - destruct IH as [F|(before & after & -> & F)].
    + left. now constructor.
    + right. exists (false :: before), after. split; [reflexivity|].
      now constructor.
Qed.

Lemma in_true_first_completion (evs : list bool) :
  In true evs ->
  exists before after,
    evs = before ++ true :: after /\ Forall (fun e => e = false) before.
Proof.
  intros I. destruct (first_completion evs) as [F|E]; [|exact E].
  rewrite Forall_forall in F. discriminate (F true I).
Qed.

(** A present in the steady state, every call succeeding. *)
Lemma swap_steady (env : swap_env) (w : stereo_winsys) (cfg : drmModeCrtc)
    (fb : Z) (before after : list bool) :
  saved_crtc (dev w) = Some cfg ->
  add_fb env = Some fb ->
  page_flip_ret env = 0 ->
  events env = before ++ true :: after ->
  Forall (fun e => e = false) before ->
  swap env w
  = (Returned,
     {| dev := set_pending_swap (dev w) 0;
        context := {| current_fb_id := fb;
                      current_bo := Some (front_buffer env) |} |},
     registration env ++ [flip_request env (dev w) fb]
     ++ map HandleEvent (before ++ [true])
     ++ snd (free_current_bo (context w))).
Proof.
  intros S A P E F. unfold swap, registration, flip_request. cbv zeta.
  rewrite A, S, P, E. cbn [Z.eqb negb].
  rewrite (wait_swap_first_completion (set_pending_swap (dev w) 1)
             ltac:(cbn; discriminate) before after F).
  destruct (free_current_bo (context w)) as [ctx t4]. reflexivity.
Qed.

Lemma registered_app (a b : list call) :
  registered (a ++ b) = registered a ++ registered b.
Proof. apply flat_map_app. Qed.

Lemma unregistered_app (a b : list call) :
  unregistered (a ++ b) = unregistered a ++ unregistered b.
Proof. apply flat_map_app. Qed.

Lemma locked_app (a b : list call) : locked (a ++ b) = locked a ++ locked b.
Proof. apply flat_map_app. Qed.

Lemma handed_back_app (a b : list call) :
  handed_back (a ++ b) = handed_back a ++ handed_back b.
Proof. apply flat_map_app. Qed.

(** Rounds of [drmHandleEvent] register, lock and give back nothing. *)
Lemma events_touch_nothing (evs : list bool) :
  registered (map HandleEvent evs) = [] /\
  unregistered (map HandleEvent evs) = [] /\
  locked (map HandleEvent evs) = [] /\
  handed_back (map HandleEvent evs) = [].
Proof.
  induction evs as [|e evs (A & B & C & D)]; [repeat split; reflexivity|].
  cbn [map]. repeat split; assumption.
Qed.

(** What [free_current_bo] gives back when a pair is current. *)
Lemma free_current_pair (fb : Z) (bo : gbm_bo) :
  fb <> 0 ->
  snd (free_current_bo {| current_fb_id := fb; current_bo := Some bo |})
  = [RmFB fb; ReleaseBuffer bo].
Proof.
  intros N. unfold free_current_bo. cbn [current_fb_id current_bo].
  destruct (Z.eqb_spec fb 0); [contradiction|]. reflexivity.
Qed.

End FlipFacts.

Module FlipCycle.
Import PresenterFacts FlipFacts.

(** X7: [wait_swap] with no flip pending returns at once and handles no
    event; with a flip pending it handles the events one by one up to the
    first that completes the flip, clears [pending_swap] and returns,
    leaving the events after it alone; and it does not return as long as no
    completion has come. *)
Theorem wait_swap_until_first_completion (d : gbm_dev) :
  (pending_swap d = 0 ->
   forall evs, wait_swap evs d = (Returned, d, [])) /\
  (pending_swap d <> 0 ->
   (forall before after,
       Forall (fun e => e = false) before ->
       wait_swap (before ++ true :: after) d
       = (Returned, set_pending_swap d 0,
          map HandleEvent (before ++ [true]))) /\
   (forall evs,
       Forall (fun e => e = false) evs ->
       wait_swap evs d = (Blocked, d, map HandleEvent evs))).
Proof.
  split.
  - intros P evs. destruct evs; cbn [wait_swap]; rewrite P; reflexivity.
  - intros P. split.
    + exact (wait_swap_first_completion d P).
    + exact (wait_swap_no_completion d P).
Qed.

Lemma wait_swap_until_first_completion_witness :
  wait_swap ([false; false] ++ true :: [false])
    (set_pending_swap bound_dev 1)
  = (Returned, set_pending_swap (set_pending_swap bound_dev 1) 0,
     map HandleEvent ([false; false] ++ [true])).
Proof.
  apply (proj1 (proj2 (wait_swap_until_first_completion
                         (set_pending_swap bound_dev 1))
                  ltac:(cbn; discriminate))).
  repeat constructor.
Defined.

(** X8: in a run of presents that begins with a configuration captured
    and a pair current, and in which every frame succeeds, the loop
    returns, and every framebuffer it registers and every buffer it locks
    is given back by the present after it, in the same order: the
    framebuffers unregistered followed by the one current at the end are
    the one current at the start followed by those registered, and
    likewise for the buffers handed back and locked. *)
Theorem steady_run_gives_back_all_but_current :
  forall (frames : list swap_env) (w : stereo_winsys) (cfg : drmModeCrtc)
         (bo : gbm_bo),
    saved_crtc (dev w) = Some cfg ->
    current_fb_id (context w) <> 0 ->
    current_bo (context w) = Some bo ->
    Forall frame_succeeds frames ->
    exists w' t bo',
      main_loop frames w = (Returned, w', t) /\
      current_fb_id (context w') <> 0 /\
      current_bo (context w') = Some bo' /\
      unregistered t ++ [current_fb_id (context w')]
      = current_fb_id (context w) :: registered t /\
      handed_back t ++ [bo'] = bo :: locked t.
Proof.
  induction frames as [|env frames IH]; intros w cfg bo S N B F.
  - exists w, [], bo. cbn [main_loop]. repeat split; trivial.
  - inversion F as [|env' frames' ((fb & A & Nf) & P & E) F']. subst env' frames'.
    destruct (in_true_first_completion _ E) as (before & after & Ev & Fb).
    pose proof (swap_steady env w cfg fb before after S A P Ev Fb) as Sw.
    destruct w as [d [f0 b0]]. cbn [dev context current_fb_id current_bo] in *.
    subst b0. rewrite (free_current_pair f0 bo N) in Sw.
    destruct (IH {| dev := set_pending_swap d 0;
                    context := {| current_fb_id := fb;
                                  current_bo := Some (front_buffer env) |} |}
                 cfg (front_buffer env) S Nf eq_refl F')
      as (w' & t & bo' & L & N' & B' & U & H).
    cbn [dev context current_fb_id current_bo] in *.
    exists w', ((registration env ++ [flip_request env d fb]
                 ++ map HandleEvent (before ++ [true])
                 ++ [RmFB f0; ReleaseBuffer bo]) ++ t), bo'.
    split; [cbn [main_loop]; rewrite Sw, L; reflexivity|].
    split; [exact N'|]. split; [exact B'|].
    destruct (events_touch_nothing (before ++ [true])) as (R1 & R2 & R3 & R4).
    rewrite !unregistered_app, !registered_app, !handed_back_app, !locked_app.
    rewrite R1, R2, R3, R4.
    unfold registration. rewrite A. cbn [registered unregistered locked
      handed_back flat_map app flip_request].
    split; [rewrite U|rewrite H]; reflexivity.
Qed.

Lemma steady_run_gives_back_all_but_current_witness :
  exists w' t bo',
    main_loop [frame_shown; frame_shown] showing_winsys = (Returned, w', t) /\
    current_fb_id (context w') <> 0 /\
    current_bo (context w') = Some bo' /\
    unregistered t ++ [current_fb_id (context w')]
    = current_fb_id (context showing_winsys) :: registered t /\
    handed_back t ++ [bo'] = sample_bo 1 :: locked t.
Proof.
  apply (steady_run_gives_back_all_but_current [frame_shown; frame_shown]
           showing_winsys console_config (sample_bo 1) eq_refl).
  - discriminate.
  - reflexivity.
  - assert (Ok : frame_succeeds frame_shown).
    { split; [exists 71; split; [reflexivity|discriminate]|].
      split; [reflexivity|right; left; reflexivity]. }
    exact (Forall_cons _ Ok (Forall_cons _ Ok (Forall_nil _))).
Defined.

(** X9: when the page flip is refused in the steady state, [swap] returns
    with the device structure and the current pair exactly as they were:
    the framebuffer it has just registered and the buffer it has just
    locked are recorded nowhere and given back by no call. *)
Theorem refused_flip_loses_frame (env : swap_env) (w : stereo_winsys)
    (cfg : drmModeCrtc) (fb : Z) :
  saved_crtc (dev w) = Some cfg ->
  add_fb env = Some fb ->
  page_flip_ret env <> 0 ->
  exists t,
    swap env w = (Returned, w, t) /\
    registered t = [fb] /\ locked t = [front_buffer env] /\
    unregistered t = [] /\ handed_back t = [] /\
    In (flip_request env (dev w) fb) t.
Proof.
  intros S A P. unfold swap. cbv zeta. rewrite A, S.
  destruct (Z.eqb_spec (page_flip_ret env) 0) as [|_]; [contradiction|].
  cbn [Z.eqb negb]. eexists. split; [destruct w; reflexivity|].
  repeat split. right. right. right. now left.
Qed.

Lemma refused_flip_loses_frame_witness :
  exists t,
    swap frame_flip_refused showing_winsys = (Returned, showing_winsys, t) /\
    registered t = [71] /\ locked t = [front_buffer frame_flip_refused] /\
    unregistered t = [] /\ handed_back t = [] /\
    In (flip_request frame_flip_refused (dev showing_winsys) 71) t.
Proof.
  apply (refused_flip_loses_frame frame_flip_refused showing_winsys
           console_config 71 eq_refl eq_refl).
  discriminate.
Defined.



End FlipCycle.

(* ================================================================== *)
(** * Geometry of the eyes *)

Module Geometry.
Import LayoutFacts.

Ltac layout_by_packing m l E :=
  let p := fresh "p" in
  let R := fresh "R" in
  let P := fresh "P" in
  destruct (layout_inversion m l E) as (p & R & P);
  destruct p; try discriminate R;
  [ rewrite (layout_none m P) in E
  | rewrite (layout_frame_packing m P) in E
  | rewrite (layout_side_by_side_full m P) in E
  | rewrite (layout_top_and_bottom m P) in E
  | rewrite (layout_side_by_side_half m P) in E ];
  injection E as <-.

(** X11: for every well-formed mode whose total height is not below its
    active height, the viewport of the left eye and the viewport of the
    right eye that [set_eye] sets share no pixel, in each of the five
    packings that have a layout. *)
Theorem eye_viewports_never_overlap (m : drmModeModeInfo) (l : mode_layout) :
  mode_ok m ->
  vdisplay m <= vtotal m ->
  get_layout_for_mode m = Ret l ->
  apart (set_eye l 0) (set_eye l 1).
Proof.
  intros W T E.
  destruct (sizes_fit m W) as (Fh & Fv & Ft & Fh2 & Ftv & Qh & Qv).
  assert (Rg := W). unfold mode_ok, in_u16, in_u32 in Rg.
  layout_by_packing m l E; unfold apart, set_eye;
    cbn [Z.eqb eye_width eye_height right_eye_x left_eye_y vx vy vw vh];
    rewrite ?Fh, ?Fv, ?Ft, ?Fh2, ?Ftv, ?Qh, ?Qv; lia.
Qed.

Lemma eye_viewports_never_overlap_witness :
  apart
    (set_eye {| buffer_width := 1920; buffer_height := 2205;
                eye_width := 1920; eye_height := 1080;
                virtual_eye_width := 1920; virtual_eye_height := 1080;
                right_eye_x := 0; left_eye_y := 1125 |} 0)
    (set_eye {| buffer_width := 1920; buffer_height := 2205;
                eye_width := 1920; eye_height := 1080;
                virtual_eye_width := 1920; virtual_eye_height := 1080;
                right_eye_x := 0; left_eye_y := 1125 |} 1).
Proof.
  refine (eye_viewports_never_overlap (timing 1920 1080 1125 FramePacking) _
            _ _ eq_refl).
  - unfold mode_ok, in_u16, in_u32; cbn; lia.
  - cbn; lia.
Defined.

(** X12: for every well-formed mode, the virtual eye size of the layout,
    the size [create_renderer] takes the aspect ratio from, is the active
    size of the mode in every packing; the eye itself has that size too,
    but for its width in SideBySideHalf and its height in TopAndBottom,
    which are the halves rounded down. *)
Theorem virtual_eye_is_active_size (m : drmModeModeInfo) (l : mode_layout) :
  mode_ok m ->
  get_layout_for_mode m = Ret l ->
  virtual_eye_width l = hdisplay m /\ virtual_eye_height l = vdisplay m /\
  eye_width l
  = (if mode_3d m =? DRM_MODE_FLAG_3D_SIDE_BY_SIDE_HALF
     then hdisplay m / 2 else hdisplay m) /\
  eye_height l
  = (if mode_3d m =? DRM_MODE_FLAG_3D_TOP_AND_BOTTOM
     then vdisplay m / 2 else vdisplay m).
Proof.
  intros W E.
  destruct (sizes_fit m W) as (Fh & Fv & Ft & Fh2 & Ftv & Qh & Qv).
  layout_by_packing m l E; unfold has_packing in P; rewrite P;
    cbn [eye_width eye_height virtual_eye_width virtual_eye_height];
    rewrite ?Fh, ?Fv, ?Ft, ?Fh2, ?Ftv, ?Qh, ?Qv;
    repeat split; reflexivity.
Qed.

Lemma virtual_eye_is_active_size_witness :
  virtual_eye_width
    {| buffer_width := 1920; buffer_height := 1080;
       eye_width := 960; eye_height := 1080;
       virtual_eye_width := 1920; virtual_eye_height := 1080;
       right_eye_x := 960; left_eye_y := 0 |} = 1920.
Proof.
  refine (proj1 (virtual_eye_is_active_size
                   (timing 1920 1080 1125 SideBySideHalf) _ _ eq_refl)).
  unfold mode_ok, in_u16, in_u32; cbn; lia.
Defined.

End Geometry.

(* ================================================================== *)
(** * Command lines that are taken and that are turned down *)

Module ArgumentFacts.
Import CliFacts.

(** Rounds beyond those the loop needs change nothing. *)
Lemma process_options_from_more (argv : list string) :
  forall (rounds rounds' : nat) (st : getopt_state) (options : stereo_options),
    (rounds <= rounds')%nat ->
    process_options_from rounds argv st options <> Unfinished ->
    process_options_from rounds' argv st options
    = process_options_from rounds argv st options.
Proof.
  induction rounds as [|rounds IH]; intros rounds' st options L H.
  - now contradiction H.
  - destruct rounds' as [|rounds']; [lia|].
    cbn [process_options_from] in *.
    destruct (getopt argv args st) as [opt st'].
    destruct (opt =? -1); [reflexivity|].
    destruct (opt =? code "h"); [reflexivity|].
    destruct (opt =? code "d"); [apply IH; [lia|exact H]|].
    destruct (opt =? code "c").
    { destruct (optarg st'); [apply IH; [lia|exact H]|reflexivity]. }
    destruct (opt =? code "l"); [apply IH; [lia|exact H]|reflexivity].
Qed.

(** [process_options] is what the loop gives with any number of rounds
    that lets it finish. *)
Lemma process_options_by_rounds (argv : list string) (rounds : nat)
    (r : cli_result) :
  process_options_from rounds argv getopt_init no_options = r ->
  r <> Unfinished ->
  process_options argv = r.
Proof.
  intros H N. subst r.
  pose proof (process_options_finishes argv) as T.
  unfold process_options in *. fold no_options in *.
  destruct (Nat.le_ge_cases rounds (rounds_for argv)) as [L|L].
  - now apply process_options_from_more.
  - symmetry. now apply process_options_from_more.
Qed.

Lemma nth_error_after {A : Type} (pre : list A) (x : A) (post : list A) :
  nth_error (pre ++ x :: post) (List.length pre) = Some x.
Proof. rewrite nth_error_app2, Nat.sub_diag by lia. reflexivity. Qed.

Lemma nth_error_after_next {A : Type} (pre : list A) (x y : A)
    (post : list A) :
  nth_error (pre ++ x :: y :: post) (S (List.length pre)) = Some y.
Proof.
  rewrite nth_error_app2 by lia.
  replace (S (List.length pre) - List.length pre)%nat with 1%nat by lia.
  reflexivity.
Qed.

(** [getopt] at an option spelt with its argument as the next word. *)
Lemma getopt_spelt (pre : list string) (o : cli_option) (post : list string)
    (oa : option string) :
  getopt (pre ++ spell o ++ post) args
    {| optind := List.length pre; nextchar := ""; optarg := oa |}
  = (match o with Connector _ => code "c" | Layout _ => code "l" end,
     {| optind := S (S (List.length pre)); nextchar := "";
        optarg := Some match o with Connector a => a | Layout n => n end |}).
Proof.
  destruct o as [a|n]; unfold getopt, args; cbn [nextchar optind spell app];
    rewrite nth_error_after; cbn [String.eqb Ascii.eqb Bool.eqb andb];
    unfold getopt_char; cbn [strchr Ascii.eqb Bool.eqb andb orb optind];
    rewrite nth_error_after_next; reflexivity.
Qed.

(** The loop over a run of options spelt that way: it applies them in
    order and goes on with what follows them. *)
Lemma process_options_from_spelt (rounds : nat) (post : list string) :
  forall (opts : list cli_option) (pre : list string) (oa : option string)
         (options : stereo_options),
    exists oa',
      process_options_from (List.length opts + rounds)
        (pre ++ flat_map spell opts ++ post)
        {| optind := List.length pre; nextchar := ""; optarg := oa |} options
      = process_options_from rounds
          (pre ++ flat_map spell opts ++ post)
          {| optind := List.length (pre ++ flat_map spell opts);
             nextchar := ""; optarg := oa' |}
          (fold_left apply_option opts options).
Proof.
  induction opts as [|o opts IH]; intros pre oa options.
  - exists oa. cbn [flat_map List.length plus fold_left app].
    rewrite app_nil_r. reflexivity.
  - destruct (IH (pre ++ spell o)
                 (Some match o with Connector a => a | Layout n => n end)
                 (apply_option options o)) as (oa' & E).
    exists oa'.
    assert (Ln : List.length (pre ++ spell o) = S (S (List.length pre)))
      by (rewrite length_app; destruct o; cbn [spell List.length]; lia).
    assert (Ar : (pre ++ spell o) ++ flat_map spell opts ++ post
                 = pre ++ flat_map spell (o :: opts) ++ post)
      by (cbn [flat_map]; now rewrite <- !app_assoc).
    assert (Ap : (pre ++ spell o) ++ flat_map spell opts
                 = pre ++ flat_map spell (o :: opts))
      by (cbn [flat_map]; now rewrite <- !app_assoc).
    rewrite Ln, Ar, Ap in E.
    cbn [List.length plus fold_left process_options_from].
    assert (G : getopt (pre ++ flat_map spell (o :: opts) ++ post) args
                  {| optind := List.length pre; nextchar := ""; optarg := oa |}
                = (match o with Connector _ => code "c" | Layout _ => code "l" end,
                   {| optind := S (S (List.length pre)); nextchar := "";
                      optarg := Some match o with
                                     | Connector a => a
                                     | Layout n => n
                                     end |})).
    { cbn [flat_map]. rewrite <- app_assoc. apply getopt_spelt. }
    rewrite G.
    destruct o as [a|n]; cbn [Z.eqb code optarg apply_option] in *;
      exact E.
Qed.

(** [atoi] on arguments at the ends of its range: a number beyond [long]
    comes out as what [LONG_MAX] or [LONG_MIN] is as an [int], a number
    beyond [int] as its low 32 bits, and what follows the digits is left. *)
Lemma atoi_at_the_ends :
  atoi "99999999999999999999" = -1 /\
  atoi "-99999999999999999999" = 0 /\
  atoi "4294967297" = 1 /\
  atoi "2147483648" = -2147483648 /\
  atoi " +42abc" = 42 /\
  u32 (atoi "99999999999999999999") = 4294967295.
Proof. conjs; reflexivity. Qed.

End ArgumentFacts.

Module OptionParsing.
Import CliFacts ArgumentFacts.

(** X13: every command line made of [-c] and [-l] options, each with its
    argument as the next word, is taken, whatever the arguments are:
    [process_options] returns 0, the options applied from left to right,
    so that a later option overrides an earlier one of its kind; the
    connector is [atoi] of its argument, as glibc computes it, stored as a
    [uint32_t], and the layout name is stored as it is written. *)
Theorem spelt_options_are_taken (prog : string) (opts : list cli_option) :
  process_options (prog :: flat_map spell opts)
  = Parsed 0 (fold_left apply_option opts no_options).
Proof.
  destruct (process_options_from_spelt 1 [] opts [prog] None no_options)
    as (oa' & E).
  rewrite !app_nil_r in E. cbn [app List.length] in E.
  apply (process_options_by_rounds _ (List.length opts + 1)).
  - unfold getopt_init. rewrite E. cbn [process_options_from].
    unfold getopt. cbn [nextchar optind].
    replace (nth_error (prog :: flat_map spell opts)
               (S (List.length (flat_map spell opts)))) with (@None string)
      by (symmetry; apply nth_error_None; cbn [List.length]; lia).
    reflexivity.
  - discriminate.
Qed.

(** X14: [-h] after options that are taken ends the process with status 0
    and nothing after it is looked at; a word that is no option, an option
    letter that is none of c, l and h, and a [-c] or [-l] that is the last
    word make [process_options] return [EXIT_FAILURE], the options before
    them staying applied; the word [--] ends the options with success, and
    nothing after it is looked at. *)
Theorem other_command_lines (prog : string) (opts : list cli_option) :
  (forall rest,
      process_options (prog :: flat_map spell opts ++ "-h" :: rest)
      = Exited 0) /\
  (forall word rest,
      plain_word word ->
      process_options (prog :: flat_map spell opts ++ word :: rest)
      = Parsed EXIT_FAILURE (fold_left apply_option opts no_options)) /\
  (forall c tail rest,
      c <> "c"%char -> c <> "l"%char -> c <> "h"%char -> c <> "-"%char ->
      process_options
        (prog :: flat_map spell opts ++ String "-" (String c tail) :: rest)
      = Parsed EXIT_FAILURE (fold_left apply_option opts no_options)) /\
  process_options (prog :: flat_map spell opts ++ ["-c"])
  = Parsed EXIT_FAILURE (fold_left apply_option opts no_options) /\
  process_options (prog :: flat_map spell opts ++ ["-l"])
  = Parsed EXIT_FAILURE (fold_left apply_option opts no_options) /\
  (forall rest,
      process_options (prog :: flat_map spell opts ++ "--" :: rest)
      = Parsed 0 (fold_left apply_option opts no_options)).
Proof.
  assert (Step : forall post r,
             (forall oa,
                 process_options_from 1
                   (prog :: flat_map spell opts ++ post)
                   {| optind := S (List.length (flat_map spell opts));
                      nextchar := ""; optarg := oa |}
                   (fold_left apply_option opts no_options) = r) ->
             r <> Unfinished ->
             process_options (prog :: flat_map spell opts ++ post) = r).
  { intros post r H N.
    destruct (process_options_from_spelt 1 post opts [prog] None no_options)
      as (oa' & E).
    cbn [app List.length] in E.
    apply (process_options_by_rounds _ (List.length opts + 1)); [|exact N].
    unfold getopt_init. rewrite E. apply H. }
  assert (Here : forall post x,
             nth_error (prog :: flat_map spell opts ++ x :: post)
               (S (List.length (flat_map spell opts))) = Some x).
  { intros post x. cbn [nth_error]. apply nth_error_after. }
  assert (Last : forall x,
             nth_error (prog :: flat_map spell opts ++ [x])
               (S (S (List.length (flat_map spell opts)))) = None).
  { intros x. apply nth_error_None. cbn [List.length].
    rewrite length_app. cbn [List.length]. lia. }
  split; [|split; [|split; [|split; [|split]]]].
  - intros rest. apply Step; [|discriminate]. intros oa.
    cbn [process_options_from]. unfold getopt. cbn [nextchar optind].
    rewrite Here. reflexivity.
  - intros word rest Pw. apply Step; [|discriminate]. intros oa.
    cbn [process_options_from]. unfold getopt. cbn [nextchar optind].
    rewrite Here.
    destruct word as [|c tail]; [reflexivity|].
    destruct Pw as [->|Nd].
    + destruct c as [[] [] [] [] [] [] [] []]; reflexivity.
    + destruct tail as [|c2 tail];
        destruct c as [[] [] [] [] [] [] [] []]; try reflexivity;
        now contradiction Nd.
  - intros c tail rest Nc Nl Nh Nd. apply Step; [|discriminate]. intros oa.
    cbn [process_options_from]. unfold getopt. cbn [nextchar optind].
    rewrite Here.
    assert (Dd : String.eqb (String "-" (String c tail)) "--" = false).
    { apply String.eqb_neq. intros E. injection E as E _. contradiction. }
    rewrite Dd.
    unfold getopt_char, args. cbn [strchr].
    destruct (Ascii.eqb_spec "c" c) as [|_]; [congruence|].
    destruct (Ascii.eqb_spec ":" c) as [<-|_]; [destruct tail; reflexivity|].
    destruct (Ascii.eqb_spec "l" c) as [|_]; [congruence|].
    destruct (Ascii.eqb_spec ":" c) as [<-|_]; [destruct tail; reflexivity|].
    destruct (Ascii.eqb_spec "h" c) as [|_]; [congruence|].
    destruct tail; reflexivity.
  - apply Step; [|discriminate]. intros oa.
    cbn [process_options_from]. unfold getopt. cbn [nextchar optind].
    rewrite Here. cbn [String.eqb Ascii.eqb Bool.eqb andb].
    unfold getopt_char. cbn [strchr Ascii.eqb Bool.eqb andb orb optind].
    rewrite Last. reflexivity.
  - apply Step; [|discriminate]. intros oa.
    cbn [process_options_from]. unfold getopt. cbn [nextchar optind].
    rewrite Here. cbn [String.eqb Ascii.eqb Bool.eqb andb].
    unfold getopt_char. cbn [strchr Ascii.eqb Bool.eqb andb orb optind].
    rewrite Last. reflexivity.
  - intros rest. apply Step; [|discriminate]. intros oa.
    cbn [process_options_from]. unfold getopt. cbn [nextchar optind].
    rewrite Here. reflexivity.
Qed.

Lemma other_command_lines_witness :
  process_options
    ("stereo-es2gears" :: flat_map spell [Layout "fp"] ++ "card1" :: [])
  = Parsed EXIT_FAILURE (fold_left apply_option [Layout "fp"] no_options).
Proof.
  apply (proj1 (proj2 (other_command_lines "stereo-es2gears" [Layout "fp"]))
           "card1" []).
  right. discriminate.
Defined.

End OptionParsing.

(* ================================================================== *)
(** * Set-up and tear-down give back what they take *)

Module TeardownFacts.

Lemma acquired_app (a b : list sys_call) :
  acquired (a ++ b) = acquired a ++ acquired b.
Proof. apply flat_map_app. Qed.

Lemma given_up_app (a b : list sys_call) :
  given_up (a ++ b) = given_up a ++ given_up b.
Proof. apply flat_map_app. Qed.

Lemma restored_app (a b : list sys_call) :
  restored (a ++ b) = restored a ++ restored b.
Proof. apply flat_map_app. Qed.

Lemma acquired_shown (t : list call) : acquired (map Shown t) = [].
Proof. induction t as [|c t IH]; [reflexivity|exact IH]. Qed.

Lemma given_up_shown (t : list call) : given_up (map Shown t) = [].
Proof. induction t as [|c t IH]; [reflexivity|exact IH]. Qed.

Lemma restored_shown (t : list call) : restored (map Shown t) = [].
Proof. induction t as [|c t IH]; [reflexivity|exact IH]. Qed.

Lemma display_calls_app (a b : list sys_call) :
  display_calls (a ++ b) = display_calls a ++ display_calls b.
Proof. apply flat_map_app. Qed.

Lemma display_calls_shown (t : list call) : display_calls (map Shown t) = t.
Proof.
  induction t as [|c t IH]; [reflexivity|].
  cbn [map]. change (display_calls (Shown c :: map Shown t))
    with (c :: display_calls (map Shown t)). now rewrite IH.
Qed.

Ltac traces :=
  rewrite ?acquired_app, ?given_up_app, ?restored_app, ?display_calls_app,
          ?acquired_shown, ?given_up_shown, ?restored_shown,
          ?display_calls_shown.

(** [restore_saved_crtc] takes and gives back none of the handles. *)
Lemma restore_saved_crtc_holds_nothing (te : teardown_env) (d : gbm_dev) :
  acquired (snd (restore_saved_crtc te d)) = [] /\
  given_up (snd (restore_saved_crtc te d)) = [].
Proof.
  unfold restore_saved_crtc. destruct (saved_crtc d); split; reflexivity.
Qed.

Lemma restore_saved_crtc_restored (te : teardown_env) (d : gbm_dev) :
  restored (snd (restore_saved_crtc te d))
  = match saved_crtc d with Some s => [s] | None => [] end /\
  saved_crtc (fst (restore_saved_crtc te d)) = None.
Proof.
  unfold restore_saved_crtc.
  destruct (saved_crtc d) eqn:S; split; try reflexivity. exact S.
Qed.

Lemma restore_saved_crtc_nothing (te : teardown_env) (d : gbm_dev) :
  saved_crtc d = None -> restore_saved_crtc te d = (d, []).
Proof. unfold restore_saved_crtc. now intros ->. Qed.

(** Every way [stereo_prepare_context] ends. *)
Lemma stereo_prepare_context_cases (env : egl_env) (d : gbm_dev) :
  match stereo_prepare_context env d with
  | (None, t) =>
      given_up t = rev (acquired t) /\ restored t = [] /\ display_calls t = []
  | (Some ctx, t) =>
      given_up t = [] /\ acquired t = held (handles ctx) /\
      restored t = [] /\ display_calls t = [] /\ shown ctx = heap env /\
      gbm (handles ctx) <> 0 /\ edpy (handles ctx) <> 0 /\
      gbm_surface (handles ctx) <> 0 /\ egl_surface (handles ctx) <> 0 /\
      egl_context (handles ctx) <> 0
  end.
Proof.
  unfold stereo_prepare_context, EGL_NO_DISPLAY, EGL_NO_SURFACE,
    EGL_NO_CONTEXT, error_egl_context, error_egl_surface, error_gbm_surface,
    error_egl_display, error_gbm_device.
  cbv zeta.
  cbn [gbm edpy gbm_surface egl_config egl_surface egl_context].
  destruct (Z.eqb_spec (gbm_create_device env) 0) as [E1|E1].
  { cbn. rewrite E1. cbn. auto. }
  destruct (Z.eqb_spec (eglGetDisplay env) 0) as [E2|E2].
  { cbn. rewrite (proj2 (Z.eqb_neq _ _) E1). cbn. auto. }
  destruct (eglInitialize env) eqn:E3; cbn [negb];
    [|cbn; rewrite (proj2 (Z.eqb_neq _ _) E1); cbn; auto].
  destruct (Z.eqb_spec (gbm_surface_create env) 0) as [E4|E4].
  { cbn. rewrite (proj2 (Z.eqb_neq _ _) E1), E4. cbn. auto. }
  destruct (eglChooseConfig env) eqn:E5; cbn [negb orb];
    [|cbn; rewrite (proj2 (Z.eqb_neq _ _) E1), (proj2 (Z.eqb_neq _ _) E4);
      cbn; auto].
  destruct (config_count env <? 1) eqn:E6;
    [cbn; rewrite (proj2 (Z.eqb_neq _ _) E1), (proj2 (Z.eqb_neq _ _) E4);
     cbn; auto|].
  destruct (Z.eqb_spec (eglCreateWindowSurface env) 0) as [E7|E7].
  { cbn. rewrite (proj2 (Z.eqb_neq _ _) E1), (proj2 (Z.eqb_neq _ _) E4), E7.
    cbn. auto. }
  destruct (Z.eqb_spec (eglCreateContext env) 0) as [E8|E8].
  { cbn. rewrite (proj2 (Z.eqb_neq _ _) E1), (proj2 (Z.eqb_neq _ _) E4),
      (proj2 (Z.eqb_neq _ _) E7), E8.
    cbn. auto. }
  destruct (eglMakeCurrent env) eqn:E9; cbn [negb];
    cbn; rewrite (proj2 (Z.eqb_neq _ _) E1), (proj2 (Z.eqb_neq _ _) E4),
      (proj2 (Z.eqb_neq _ _) E7), (proj2 (Z.eqb_neq _ _) E8);
    cbn; auto 10.
Qed.

(** What [stereo_cleanup_context] gives back. *)
Lemma stereo_cleanup_context_gives (te : teardown_env) (d : gbm_dev)
    (ctx : full_context) :
  given_up (snd (stereo_cleanup_context te d ctx)) = rev (held (handles ctx)) /\
  acquired (snd (stereo_cleanup_context te d ctx)) = [] /\
  restored (snd (stereo_cleanup_context te d ctx))
  = match saved_crtc d with Some s => [s] | None => [] end /\
  saved_crtc (fst (stereo_cleanup_context te d ctx)) = None.
Proof.
  unfold stereo_cleanup_context.
  destruct (restore_saved_crtc_holds_nothing te d) as (A & G).
  destruct (restore_saved_crtc_restored te d) as (R & S).
  destruct (restore_saved_crtc te d) as [d' t1].
  destruct (free_current_bo (shown ctx)) as [c' t2].
  cbn [fst snd] in *. traces. rewrite A, G, R.
  conjs; try reflexivity; try exact S.
  now rewrite app_nil_r.
Qed.

(** What [winsys_disconnect] gives back. *)
Lemma winsys_disconnect_gives (te : teardown_env) (w : winsys) :
  fst (winsys_disconnect te w) = unconnected /\
  acquired (snd (winsys_disconnect te w)) = [] /\
  given_up (snd (winsys_disconnect te w))
  = match winsys_bound w with
    | Some (_, Some ctx) => rev (held (handles ctx))
    | _ => []
    end ++ (if winsys_fd w =? -1 then [] else [RFile (winsys_fd w)]) /\
  restored (snd (winsys_disconnect te w))
  = match winsys_bound w with
    | Some (d, _) => match saved_crtc d with Some s => [s] | None => [] end
    | None => []
    end.
Proof.
  unfold winsys_disconnect, stereo_cleanup_dev. cbn [fst snd].
  split; [reflexivity|].
  assert (F : acquired (if winsys_fd w =? -1 then [] else [Close (winsys_fd w)])
              = [] /\
              given_up (if winsys_fd w =? -1 then [] else [Close (winsys_fd w)])
              = (if winsys_fd w =? -1 then [] else [RFile (winsys_fd w)]) /\
              restored (if winsys_fd w =? -1 then []
                        else [Close (winsys_fd w)]) = [])
    by (destruct (winsys_fd w =? -1); auto).
  destruct F as (Fa & Fg & Fr). traces. rewrite Fa, Fg, Fr, !app_nil_r.
  destruct (winsys_bound w) as [[d [ctx|]]|]; [| |auto].
  - destruct (stereo_cleanup_context_gives te d ctx) as (G & A & R & S).
    destruct (stereo_cleanup_context te d ctx) as [d' t1].
    cbn [fst snd] in *.
    destruct (restore_saved_crtc_holds_nothing te d') as (A' & G').
    destruct (restore_saved_crtc_restored te d') as (R' & _).
    traces. rewrite A, A', G, G', R, R', S, !app_nil_r. auto.
  - destruct (restore_saved_crtc_holds_nothing te d) as (A' & G').
    destruct (restore_saved_crtc_restored te d) as (R' & _).
    cbn [app]. rewrite A', G', R'. auto.
Qed.

(** A device structure that discovery hands out has captured nothing. *)
Lemma stereo_prepare_dev_fresh (drm : drm_device) (fd0 : Z)
    (options : stereo_options) (d : gbm_dev) :
  stereo_prepare_dev drm fd0 options = Ret (Some d) ->
  saved_crtc d = None /\ fd d = fd0.
Proof.
  unfold stereo_prepare_dev. intros H.
  destruct (drmModeGetResources drm) as [res|]; [|discriminate H].
  destruct (get_connector drm res options) as [c|] eqn:G; [|discriminate H].
  unfold stereo_setup_dev in H.
  destruct (Z.eqb_spec (connection c) DRM_MODE_CONNECTED) as [Cn|Cn];
    cbn [negb bind] in H; [|discriminate H].
  destruct (find_mode (fresh_dev fd0 (connector_id c)) c options)
    as [[ret d1]| |] eqn:F; cbn [bind] in H; try discriminate H.
  destruct (Z.eqb_spec ret 0) as [->|Nz]; cbn [negb bind Z.eqb] in H;
    [|rewrite (proj2 (Z.eqb_neq _ _) Nz) in H; discriminate H].
  destruct (DiscoveryFacts.find_mode_chosen _ _ _ _ F) as (E1 & _).
  destruct (get_layout_for_mode (mode d1)) as [l| |] eqn:L; cbn [bind] in H;
    try discriminate H.
  change (mode (set_layout d1 l)) with (mode d1) in H.
  destruct (get_stereo_mode (mode_3d (mode d1))); cbn [bind] in H;
    [|discriminate H].
  destruct (stereo_find_crtc drm res c (set_layout d1 l))
    as [[ret2 d2]| |] eqn:K; cbn [bind] in H; try discriminate H.
  destruct (Z.eqb_spec ret2 0) as [->|Nz]; cbn [negb Z.eqb] in H;
    [|discriminate H].
  injection H as <-.
  destruct (CrtcFacts.stereo_find_crtc_cases drm res c (set_layout d1 l))
    as [(_ & _ & K')|[(enc & _ & _ & _ & K')|(_ & _ & K')]];
    rewrite K' in K; try discriminate K.
  - injection K as <-. rewrite E1. split; reflexivity.
  - destruct (scan_encoders drm res (encoders c)) as [id|] eqn:S;
      [|discriminate K].
    injection K as <-. rewrite E1. split; reflexivity.
Qed.

(** Every way [winsys_connect] ends, from a window system that holds
    nothing and with [errno] set by the calls that fail. *)
Lemma winsys_connect_cases (sys : os) (drm : drm_device) (env : egl_env)
    (te : teardown_env) (options : stereo_options) (ret : Z) (w : winsys)
    (t : list sys_call) :
  open_errno sys <> 0 -> cap_errno sys <> 0 ->
  winsys_connect sys drm env te options unconnected = Ret (ret, w, t) ->
  (ret <> 0 /\ w = unconnected /\
   given_up t = rev (acquired t) /\ restored t = [] /\ display_calls t = [])
  \/
  (ret = 0 /\
   exists d ctx,
     w = {| winsys_fd := sys_open sys (device_path options);
            winsys_bound := Some (d, Some ctx) |} /\
     0 <= sys_open sys (device_path options) /\
     stereo_prepare_dev drm (sys_open sys (device_path options)) options
     = Ret (Some d) /\
     shown ctx = heap env /\
     acquired t = RFile (sys_open sys (device_path options))
                  :: held (handles ctx) /\
     given_up t = [] /\ restored t = [] /\ display_calls t = []).
Proof.
  intros Eo Ec. unfold winsys_connect, stereo_open, stereo_open_calls.
  cbv zeta.
  destruct (Z.ltb_spec (sys_open sys (device_path options)) 0) as [Lt|Ge].
  { (* open fails *)
    assert (Nz : negb (- open_errno sys =? 0) = true)
      by (apply negb_true_iff, Z.eqb_neq; lia).
    rewrite Nz. cbn. intros H. injection H as <- <- <-. left.
    conjs; try reflexivity; [lia|].
    unfold acquired. cbn [flat_map app].
    rewrite (proj2 (Z.ltb_lt _ _) Lt). reflexivity. }
  destruct (Z.eqb_spec (drmSetClientCap sys (sys_open sys (device_path options))) 0)
    as [Cap|Cap]; cbn [negb].
  2:{ (* the capability is refused *)
    assert (Nz : negb (- cap_errno sys =? 0) = true)
      by (apply negb_true_iff, Z.eqb_neq; lia).
    rewrite Nz. cbn. intros H. injection H as <- <- <-. left.
    conjs; try reflexivity; [lia|].
    unfold acquired. cbn [flat_map app].
    rewrite (proj2 (Z.ltb_ge _ _) Ge). reflexivity. }
  cbn [Z.eqb negb winsys_fd winsys_bound unconnected].
  set (fd0 := sys_open sys (device_path options)) in *.
  assert (Op : forall rest,
             acquired (Open (device_path options) fd0
                       :: SetClientCap fd0 (drmSetClientCap sys fd0) :: rest)
             = RFile fd0 :: acquired rest)
    by (intros rest; unfold acquired; cbn [flat_map app];
        now rewrite (proj2 (Z.ltb_ge _ _) Ge)).
  assert (Og : forall rest,
             given_up (Open (device_path options) fd0
                       :: SetClientCap fd0 (drmSetClientCap sys fd0) :: rest)
             = given_up rest) by reflexivity.
  assert (Or : forall rest,
             restored (Open (device_path options) fd0
                       :: SetClientCap fd0 (drmSetClientCap sys fd0) :: rest)
             = restored rest) by reflexivity.
  assert (Od : forall rest,
             display_calls (Open (device_path options) fd0
                            :: SetClientCap fd0 (drmSetClientCap sys fd0)
                            :: rest)
             = display_calls rest) by reflexivity.
  assert (Fd : (fd0 =? -1) = false) by (apply Z.eqb_neq; lia).
  destruct (stereo_prepare_dev drm fd0 options) as [[d|]| |] eqn:P;
    cbn [bind]; try discriminate.
  2:{ (* no device structure *)
    unfold winsys_disconnect. cbn [winsys_bound winsys_fd app]. rewrite Fd.
    intros H. injection H as <- <- <-. left.
    rewrite Op, Og, Or, Od.
    conjs; try reflexivity. unfold ENOENT. lia. }
  destruct (stereo_prepare_dev_fresh _ _ _ _ P) as (Sv & _).
  pose proof (stereo_prepare_context_cases env d) as C.
  destruct (stereo_prepare_context env d) as [[ctx|] tc].
  - (* connected *)
    destruct C as (G & A & R & D & Sh & _).
    intros H. injection H as <- <- <-. right. split; [reflexivity|].
    exists d, ctx.
    rewrite Op, Og, Or, Od, G, A, R, D.
    conjs; try reflexivity; assumption.
  - (* no context *)
    destruct C as (G & R & D).
    unfold winsys_disconnect, stereo_cleanup_dev.
    cbn [winsys_bound winsys_fd]. rewrite (restore_saved_crtc_nothing _ _ Sv).
    cbn [snd app]. rewrite Fd.
    intros H. injection H as <- <- <-. left.
    rewrite Op, Og, Or, Od. traces. rewrite G, R, D.
    conjs; try reflexivity.
    + unfold ENOENT. lia.
    + change (acquired [Close fd0]) with (@nil resource).
      rewrite app_nil_r. reflexivity.
Qed.

End TeardownFacts.

Module Lifecycle.
Import TeardownFacts.

(** X15: [stereo_prepare_context] either gives a context that holds a gbm
    device, an initialised display, a gbm surface, an EGL surface and an
    EGL context, none of them null, taken in this order and none given
    back; or it gives no context and has given back everything it had
    taken, in the reverse order of taking.  It leaves the current
    framebuffer and buffer of the new context as the memory held them. *)
Theorem context_setup_unwinds_in_reverse (env : egl_env) (d : gbm_dev) :
  match stereo_prepare_context env d with
  | (None, t) => given_up t = rev (acquired t)
  | (Some ctx, t) =>
      acquired t = held (handles ctx) /\ given_up t = [] /\
      gbm (handles ctx) <> 0 /\ edpy (handles ctx) <> 0 /\
      gbm_surface (handles ctx) <> 0 /\ egl_surface (handles ctx) <> 0 /\
      egl_context (handles ctx) <> 0 /\
      shown ctx = heap env
  end.
Proof.
  pose proof (stereo_prepare_context_cases env d) as C.
  destruct (stereo_prepare_context env d) as [[ctx|] t].
  - destruct C as (G & A & _ & _ & Sh & N1 & N2 & N3 & N4 & N5).
    auto 10.
  - apply C.
Qed.



(** X17: [winsys_disconnect] leaves a window system that holds nothing,
    and a second call on it makes no call at all.  The captured
    configuration is put back once, although [stereo_cleanup_context] and
    [stereo_cleanup_dev] both restore; the context's handles are given
    back before the descriptor is closed, and the descriptor is closed
    unless it is -1. *)
Theorem disconnect_restores_once_and_is_idempotent (te te' : teardown_env)
    (w : winsys) :
  fst (winsys_disconnect te w) = unconnected /\
  winsys_disconnect te' (fst (winsys_disconnect te w)) = (unconnected, []) /\
  restored (snd (winsys_disconnect te w))
  = match winsys_bound w with
    | Some (d, _) => match saved_crtc d with Some s => [s] | None => [] end
    | None => []
    end /\
  given_up (snd (winsys_disconnect te w))
  = match winsys_bound w with
    | Some (_, Some ctx) => rev (held (handles ctx))
    | _ => []
    end ++ (if winsys_fd w =? -1 then [] else [RFile (winsys_fd w)]) /\
  acquired (snd (winsys_disconnect te w)) = [].
Proof.
  destruct (winsys_disconnect_gives te w) as (U & A & G & R).
  rewrite U. conjs; auto.
Qed.

(** X18: [create_winsys] takes all or nothing.  When it gives a window
    system, that holds the descriptor [open] gave, which is not negative,
    the device structure of discovery on that descriptor and a context
    with its five handles, and nothing was given back.  When it gives
    none, every descriptor and handle taken on the way was given back, in
    the reverse order of taking, also by the second disconnect of
    [winsys_free].  Either way the display was not touched. *)
Theorem create_winsys_all_or_nothing (sys : os) (drm : drm_device)
    (env : egl_env) (te : teardown_env) (options : stereo_options)
    (ow : option winsys) (t : list sys_call) :
  open_errno sys <> 0 -> cap_errno sys <> 0 ->
  create_winsys sys drm env te options = Ret (ow, t) ->
  display_calls t = [] /\ restored t = [] /\
  match ow with
  | None => given_up t = rev (acquired t)
  | Some w =>
      exists d ctx,
        w = {| winsys_fd := sys_open sys (device_path options);
               winsys_bound := Some (d, Some ctx) |} /\
        0 <= sys_open sys (device_path options) /\
        stereo_prepare_dev drm (sys_open sys (device_path options)) options
        = Ret (Some d) /\
        acquired t = RFile (sys_open sys (device_path options))
                     :: held (handles ctx) /\
        given_up t = []
  end.
Proof.
  intros Eo Ec. unfold create_winsys, bind.
  destruct (winsys_connect sys drm env te options
              {| winsys_fd := -1; winsys_bound := None |})
    as [[[ret w] tc]| |] eqn:W; try discriminate.
  destruct (winsys_connect_cases _ _ _ _ _ _ _ _ Eo Ec W)
    as [(Nz & -> & G & R & D)
       |(-> & d & ctx & -> & Ge & Pd & Sh & A & G & R & D)].
  - rewrite (proj2 (Z.eqb_neq _ _) Nz). cbn.
    intros H. injection H as <- <-. rewrite app_nil_r. auto.
  - cbn [Z.eqb negb]. intros H. injection H as <- <-.
    conjs; auto. exists d, ctx. auto.
Qed.

Lemma create_winsys_all_or_nothing_witness :
  exists t,
    create_winsys card0_only two_ports egl_no_config quiet_teardown
      (set_connector no_options 40) = Ret (None, t) /\
    given_up t = rev (acquired t).
Proof.
  eexists. split; [vm_compute; reflexivity|].
  refine (proj2 (proj2 (create_winsys_all_or_nothing card0_only two_ports
                          egl_no_config quiet_teardown
                          (set_connector no_options 40) None _ _ _ _)));
    [discriminate|discriminate|vm_compute; reflexivity].
Defined.

(** X19: a run of [main] that ends has given back every descriptor and
    handle it took, in the reverse order of taking, and has put a captured
    configuration back at most once.  A run that ends with a status other
    than 0 never touched the display, and a command line that
    [process_options] does not take with 0 makes the run end without any
    call.  A run that never ends, inside [wait_swap], holds the descriptor
    and the five handles and has given nothing back. *)
Theorem run_gives_back_what_it_took (sys : os) (drm : drm_device)
    (env : egl_env) (te : teardown_env) (argv : list string)
    (frames : list swap_env) (e : main_end) (t : list sys_call) :
  open_errno sys <> 0 -> cap_errno sys <> 0 ->
  main sys drm env te argv frames = Ret (e, t) ->
  match e with
  | Exit code0 =>
      given_up t = rev (acquired t) /\
      (List.length (restored t) <= 1)%nat /\
      (code0 <> 0 -> display_calls t = [] /\ restored t = []) /\
      ((forall options, process_options argv <> Parsed 0 options) -> t = [])
  | Hangs =>
      given_up t = [] /\ restored t = [] /\
      exists fd0 h, 0 <= fd0 /\ acquired t = RFile fd0 :: held h
  end.
Proof.
  intros Eo Ec. unfold main.
  destruct (process_options argv) as [ret options|code0| |] eqn:P;
    try discriminate.
  2:{ intros H. injection H as <- <-. cbn. conjs; auto. }
  destruct (Z.eqb_spec ret 0) as [->|Nz]; cbn [negb].
  2:{ intros H. injection H as <- <-. cbn. conjs; auto. }
  unfold create_winsys, bind.
  destruct (winsys_connect sys drm env te options
              {| winsys_fd := -1; winsys_bound := None |})
    as [[[ret w] tc]| |] eqn:W; try discriminate.
  destruct (winsys_connect_cases _ _ _ _ _ _ _ _ Eo Ec W)
    as [(Nz & -> & G & R & D)
       |(-> & d & ctx & -> & Ge & Pd & Sh & A & G & R & D)].
  - rewrite (proj2 (Z.eqb_neq _ _) Nz). cbn.
    intros H. injection H as <- <-. rewrite app_nil_r.
    rewrite R. cbn [List.length]. conjs; auto.
    intros N. now contradiction (N options).
  - cbn [Z.eqb negb winsys_bound winsys_fd].
    set (fd0 := sys_open sys (device_path options)) in *.
    destruct (main_loop frames {| dev := d; context := shown ctx |})
      as [[s sw] tl].
    destruct s.
    + (* the loop ends *)
      set (w' := {| winsys_fd := fd0;
                    winsys_bound :=
                      Some (dev sw, Some {| handles := handles ctx;
                                            shown := context sw |}) |}).
      destruct (winsys_disconnect_gives te w') as (_ & A' & G' & R').
      destruct (winsys_disconnect te w') as [w'' td].
      cbn [fst snd winsys_bound winsys_fd w' handles] in *.
      assert (Fd : (fd0 =? -1) = false) by (apply Z.eqb_neq; lia).
      rewrite Fd in G'.
      intros H. injection H as <- <-.
      traces. rewrite A, A', G, G', R, R'.
      change (acquired [CreateRenderer (layout d)]) with (@nil resource).
      change (given_up [CreateRenderer (layout d)]) with (@nil resource).
      change (restored [CreateRenderer (layout d)]) with (@nil drmModeCrtc).
      cbn [app]. rewrite !app_nil_r.
      conjs.
      * change (RFile fd0 :: held (handles ctx))
          with ([RFile fd0] ++ held (handles ctx)).
        now rewrite rev_app_distr.
      * destruct (saved_crtc (dev sw)); cbn [List.length]; lia.
      * intros N. now contradiction N.
      * intros N. now contradiction (N options).
    + (* the loop waits for ever *)
      intros H. injection H as <- <-.
      traces. rewrite A, G, R.
      change (acquired [CreateRenderer (layout d)]) with (@nil resource).
      change (given_up [CreateRenderer (layout d)]) with (@nil resource).
      change (restored [CreateRenderer (layout d)]) with (@nil drmModeCrtc).
      cbn [app]. rewrite !app_nil_r.
      conjs; auto. exists fd0, (handles ctx). auto.
Qed.

Lemma run_gives_back_what_it_took_witness :
  exists t,
    main card0_only two_ports egl_ready quiet_teardown
      ["stereo-es2gears"; "-c"; "40"] [frame_shown; frame_shown]
    = Ret (Exit 0, t) /\
    given_up t = rev (acquired t) /\
    restored t = [console_config].
Proof.
  eexists. split; [vm_compute; reflexivity|].
  split; [|vm_compute; reflexivity].
  refine (proj1 (run_gives_back_what_it_took card0_only two_ports egl_ready
                   quiet_teardown ["stereo-es2gears"; "-c"; "40"]
                   [frame_shown; frame_shown] (Exit 0) _ _ _ _));
    [discriminate|discriminate|vm_compute; reflexivity].
Defined.

End Lifecycle.

(* ================================================================== *)
(** * The strips of a gear wheel *)

Module GearFacts.

Lemma tiles_app (a b : list (Z * Z)) :
  forall from mid upto,
    tiles a from mid -> tiles b mid upto -> tiles (a ++ b) from upto.
Proof.
  induction a as [|[f c] a IH]; intros from mid upto Ha Hb.
  - cbn in Ha. subst mid. exact Hb.
  - destruct Ha as (-> & Pc & Ha). cbn [app tiles].
    conjs; [reflexivity|exact Pc|]. exact (IH _ _ _ Ha Hb).
Qed.

(** The ranges of a tiling lie inside what they cover. *)
Lemma tiles_inside (a : list (Z * Z)) :
  forall from upto,
    tiles a from upto ->
    from <= upto /\
    Forall (fun r => from <= fst r /\ fst r + snd r <= upto) a.
Proof.
  induction a as [|[f c] a IH]; intros from upto H.
  - cbn in H. subst. split; [lia|constructor].
  - destruct H as (-> & Pc & H). destruct (IH _ _ H) as (L & F).
    split; [lia|]. constructor; [cbn; lia|].
    eapply Forall_impl; [|exact F]. cbn. intros r. lia.
Qed.

Lemma bind_step {A B : Type} (c : outcome A) (k : A -> outcome B) (a : A)
    (r : outcome B) :
  c = Ret a -> k a = r -> bind c k = r.
Proof. intros -> <-. reflexivity. Qed.

(** The steps of a round, on a wheel that had room for a whole tooth when
    the round began: [vs] and [ss] are what the round has added so far. *)
Lemma vert_room (f vs : list GearVertex) (vsz : Z) (fin ss : list vertex_strip)
    (ssz st : Z) (i : Z) (n : gear_normal) (p0 s0 : Z) :
  Z.of_nat (List.length f) + VERTICES_PER_TOOTH <= vsz ->
  (List.length vs <? 34)%nat = true ->
  GEAR_VERT {| filled := f ++ vs; vertices_size := vsz;
               finished := fin ++ ss; strips_size := ssz; started := st |}
    i n p0 s0
  = Ret {| filled :=
             f ++ (vs ++ [{| of_tooth := i; point := p0; sign := s0;
                             normal := n |}]);
           vertices_size := vsz;
           finished := fin ++ ss; strips_size := ssz; started := st |}.
Proof.
  unfold VERTICES_PER_TOOTH, GEAR_VERT, vert. intros Hv Hl.
  apply Nat.ltb_lt in Hl. cbn [filled vertices_size finished strips_size started].
  rewrite (proj2 (Z.ltb_lt _ _)) by (rewrite length_app; lia).
  now rewrite app_assoc.
Qed.

Lemma START_room (f vs : list GearVertex) (vsz : Z)
    (fin ss : list vertex_strip) (ssz st : Z) :
  Z.of_nat (List.length fin) + STRIPS_PER_TOOTH <= ssz ->
  (List.length ss <? 7)%nat = true ->
  START_STRIP {| filled := f ++ vs; vertices_size := vsz;
                 finished := fin ++ ss; strips_size := ssz; started := st |}
  = Ret {| filled := f ++ vs; vertices_size := vsz;
           finished := fin ++ ss; strips_size := ssz;
           started := Z.of_nat (List.length f) + Z.of_nat (List.length vs) |}.
Proof.
  unfold STRIPS_PER_TOOTH, START_STRIP. intros Hs Hl.
  apply Nat.ltb_lt in Hl. cbn [filled vertices_size finished strips_size started].
  rewrite (proj2 (Z.ltb_lt _ _)) by (rewrite length_app; lia).
  rewrite length_app, Nat2Z.inj_add. reflexivity.
Qed.

Lemma END_room (f vs : list GearVertex) (vsz : Z) (fin ss : list vertex_strip)
    (ssz off : Z) :
  Z.of_nat (List.length fin) + STRIPS_PER_TOOTH <= ssz ->
  (List.length ss <? 7)%nat = true ->
  END_STRIP {| filled := f ++ vs; vertices_size := vsz;
               finished := fin ++ ss; strips_size := ssz;
               started := Z.of_nat (List.length f) + off |}
  = Ret {| filled := f ++ vs; vertices_size := vsz;
           finished :=
             fin ++ (ss ++ [{| strip_first := Z.of_nat (List.length f) + off;
                               strip_count := Z.of_nat (List.length vs) - off |}]);
           strips_size := ssz; started := 0 |}.
Proof.
  unfold STRIPS_PER_TOOTH, END_STRIP. intros Hs Hl.
  apply Nat.ltb_lt in Hl. cbn [filled vertices_size finished strips_size started].
  rewrite (proj2 (Z.ltb_lt _ _)) by (rewrite length_app; lia).
  rewrite length_app, Nat2Z.inj_add, app_assoc.
  replace (Z.of_nat (List.length f) + Z.of_nat (List.length vs)
           - (Z.of_nat (List.length f) + off))
    with (Z.of_nat (List.length vs) - off) by lia.
  reflexivity.
Qed.

Ltac run_tooth Hv Hs :=
  lazymatch goal with
  | |- bind _ _ = _ =>
      eapply bind_step; [run_tooth Hv Hs|cbv beta; run_tooth Hv Hs]
  | |- QUAD_WITH_NORMAL _ _ _ _ = _ =>
      unfold QUAD_WITH_NORMAL; run_tooth Hv Hs
  | |- GEAR_VERT _ _ _ _ _ = _ => apply vert_room; [exact Hv|reflexivity]
  | |- START_STRIP _ = _ => apply START_room; [exact Hs|reflexivity]
  | |- END_STRIP _ = _ => apply END_room; [exact Hs|reflexivity]
  end.

(** One round of the loop, with room for a tooth in both blocks. *)
Lemma tooth_fills (i : Z) (b : gear_build) :
  Z.of_nat (List.length (filled b)) + VERTICES_PER_TOOTH <= vertices_size b ->
  Z.of_nat (List.length (finished b)) + STRIPS_PER_TOOTH <= strips_size b ->
  exists b' vs ss,
    tooth i b = Ret b' /\
    vertices_size b' = vertices_size b /\
    strips_size b' = strips_size b /\
    started b' = 0 /\
    filled b' = filled b ++ vs /\
    Z.of_nat (List.length vs) = VERTICES_PER_TOOTH /\
    finished b' = finished b ++ ss /\
    Z.of_nat (List.length ss) = STRIPS_PER_TOOTH /\
    tiles (map strip_range ss)
      (Z.of_nat (List.length (filled b)))
      (Z.of_nat (List.length (filled b)) + VERTICES_PER_TOOTH) /\
    Forall (fun s => strip_count s = 4 \/ strip_count s = 7) ss.
Proof.
  destruct b as [f vsz fin ssz st].
  cbn [filled finished vertices_size strips_size].
  intros Hv Hs.
  eexists. eexists. eexists.
  split.
  { replace {| filled := f; vertices_size := vsz; finished := fin;
               strips_size := ssz; started := st |}
      with {| filled := f ++ []; vertices_size := vsz; finished := fin ++ [];
              strips_size := ssz; started := st |}
      by (now rewrite !app_nil_r).
    unfold tooth. run_tooth Hv Hs. }
  cbn [filled finished vertices_size strips_size started].
  split; [reflexivity|]. split; [reflexivity|]. split; [reflexivity|].
  split; [reflexivity|]. split; [reflexivity|].
  split; [reflexivity|]. split; [reflexivity|].
  generalize (Z.of_nat (List.length f)) as n. intros n.
  unfold VERTICES_PER_TOOTH.
  cbn [app List.length map strip_range strip_first strip_count tiles].
  split.
  - lia.
  - repeat constructor; cbn [strip_count]; lia.
Qed.

Lemma bind_fault {A B : Type} (c : outcome A) (k : A -> outcome B) :
  c = Fault -> bind c k = Fault.
Proof. intros ->. reflexivity. Qed.

(** A round on a wheel without room faults at its first store. *)
Lemma tooth_without_strips (i : Z) (b : gear_build) :
  strips_size b <= Z.of_nat (List.length (finished b)) -> tooth i b = Fault.
Proof.
  intros H. unfold tooth. apply bind_fault. unfold START_STRIP.
  rewrite (proj2 (Z.ltb_ge _ _)) by exact H. reflexivity.
Qed.

Lemma tooth_without_vertices (i : Z) (b : gear_build) :
  Z.of_nat (List.length (finished b)) < strips_size b ->
  vertices_size b <= Z.of_nat (List.length (filled b)) ->
  tooth i b = Fault.
Proof.
  intros Hs Hv. unfold tooth.
  eapply bind_step.
  - unfold START_STRIP. rewrite (proj2 (Z.ltb_lt _ _)) by exact Hs.
    reflexivity.
  - cbv beta. apply bind_fault. unfold GEAR_VERT, vert.
    cbn [filled vertices_size].
    rewrite (proj2 (Z.ltb_ge _ _)) by exact Hv. reflexivity.
Qed.

Lemma to_int_small (x : Z) : 0 <= x <= INT_MAX -> to_int x = x.
Proof.
  unfold to_int, wrap, INT_MAX. intros H.
  rewrite Z.mod_small by lia. lia.
Qed.

(** The whole loop. *)
Lemma teeth_from_fills (n : nat) :
  forall (i : Z) (b : gear_build),
    Z.of_nat (List.length (filled b)) + VERTICES_PER_TOOTH * Z.of_nat n
    <= vertices_size b ->
    Z.of_nat (List.length (finished b)) + STRIPS_PER_TOOTH * Z.of_nat n
    <= strips_size b ->
    exists b' vs ss,
      teeth_from n i b = Ret b' /\
      filled b' = filled b ++ vs /\
      Z.of_nat (List.length vs) = VERTICES_PER_TOOTH * Z.of_nat n /\
      finished b' = finished b ++ ss /\
      Z.of_nat (List.length ss) = STRIPS_PER_TOOTH * Z.of_nat n /\
      tiles (map strip_range ss)
        (Z.of_nat (List.length (filled b)))
        (Z.of_nat (List.length (filled b)) + VERTICES_PER_TOOTH * Z.of_nat n) /\
      Forall (fun s => strip_count s = 4 \/ strip_count s = 7) ss.
Proof.
  induction n as [|n IH]; intros i b Hv Hs.
  - exists b, [], []. cbn [teeth_from List.length map tiles].
    rewrite !app_nil_r. conjs; try reflexivity; try lia. constructor.
  - unfold VERTICES_PER_TOOTH, STRIPS_PER_TOOTH in *.
    destruct (tooth_fills i b) as (b1 & vs1 & ss1 & T & Ev & Es & _ & F1 & L1
                                   & S1 & M1 & Ti1 & C1);
      [unfold VERTICES_PER_TOOTH; lia|unfold STRIPS_PER_TOOTH; lia|].
    unfold VERTICES_PER_TOOTH, STRIPS_PER_TOOTH in *.
    destruct (IH (i + 1) b1) as (b2 & vs2 & ss2 & T2 & F2 & L2 & S2 & M2
                                 & Ti2 & C2).
    { rewrite Ev, F1, length_app. lia. }
    { rewrite Es, S1, length_app. lia. }
    exists b2, (vs1 ++ vs2), (ss1 ++ ss2).
    cbn [teeth_from]. rewrite T. cbn [bind].
    conjs.
    + exact T2.
    + now rewrite F2, F1, app_assoc.
    + rewrite length_app. lia.
    + now rewrite S2, S1, app_assoc.
    + rewrite length_app. lia.
    + rewrite map_app.
      apply (tiles_app _ _ _ (Z.of_nat (List.length (filled b)) + 34));
        [exact Ti1|].
      rewrite F1, length_app in Ti2.
      replace (Z.of_nat (List.length (filled b)) + 34 * Z.of_nat (S n))
        with (Z.of_nat (List.length (filled b) + List.length vs1)
              + 34 * Z.of_nat n) by lia.
      replace (Z.of_nat (List.length (filled b)) + 34)
        with (Z.of_nat (List.length (filled b) + List.length vs1)) by lia.
      exact Ti2.
    + apply Forall_app. split; assumption.
Qed.

(** The loop of [draw_gear] over strips that are all there. *)
Lemma draw_strips_from_all (g : gear) :
  forall (todo n : nat),
    (n + todo = List.length (strips g))%nat ->
    draw_strips_from todo n g = Ret (map strip_range (skipn n (strips g))).
Proof.
  induction todo as [|todo IH]; intros n H.
  - cbn [draw_strips_from]. rewrite skipn_all2 by lia. reflexivity.
  - cbn [draw_strips_from].
    destruct (nth_error (strips g) n) as [s|] eqn:N.
    + rewrite (IH (S n)) by lia. cbn [bind].
      assert (E : skipn n (strips g) = s :: skipn (S n) (strips g)).
      { clear IH H. revert n N. generalize (strips g) as l.
        induction l as [|x l IHl]; intros [|n] N; cbn in N; try discriminate.
        - injection N as ->. reflexivity.
        - cbn [skipn]. rewrite (IHl n N). reflexivity. }
      rewrite E. reflexivity.
    + apply nth_error_None in N. lia.
Qed.

End GearFacts.

Module GearWheels.
Import GearFacts.

(** X20: for a number of teeth that is not negative and small enough for
    [VERTICES_PER_TOOTH * teeth] to be an [int], [create_gear] returns
    [NULL] when [malloc] gives no wheel, and stores through [NULL] when
    there is a tooth to make and [calloc] gave no strips or no vertices.
    When all three blocks are given it stays inside them and fills them to
    the last element: the wheel has [STRIPS_PER_TOOTH * teeth] strips and
    [VERTICES_PER_TOOTH * teeth] vertices, and the strips [draw_gear] draws
    follow one another from vertex 0 to the last vertex without gap or
    overlap, each of 4 or 7 vertices, so that every [glDrawArrays] stays
    inside the vertices of the wheel. *)
Theorem gear_strips_tile_the_vertices (mem : gear_memory) (teeth : Z) :
  0 <= teeth ->
  VERTICES_PER_TOOTH * teeth <= INT_MAX ->
  (malloc_gear mem = false -> create_gear mem teeth = Ret None) /\
  (malloc_gear mem = true -> 0 < teeth ->
   calloc_strips mem = false \/ calloc_vertices mem = false ->
   create_gear mem teeth = Fault) /\
  (malloc_gear mem = true -> calloc_strips mem = true ->
   calloc_vertices mem = true ->
   exists g ranges,
     create_gear mem teeth = Ret (Some g) /\
     nstrips g = STRIPS_PER_TOOTH * teeth /\
     Z.of_nat (List.length (strips g)) = nstrips g /\
     nvertices g = VERTICES_PER_TOOTH * teeth /\
     Z.of_nat (List.length (vertices g)) = nvertices g /\
     draw_gear g = Ret ranges /\
     tiles ranges 0 (nvertices g) /\
     Forall (fun r => 0 <= fst r /\ fst r + snd r <= nvertices g /\
                      (snd r = 4 \/ snd r = 7)) ranges).
Proof.
  intros Ht Hi.
  assert (Iv : to_int (VERTICES_PER_TOOTH * teeth) = VERTICES_PER_TOOTH * teeth)
    by (apply to_int_small; unfold VERTICES_PER_TOOTH in *; lia).
  assert (Is : to_int (STRIPS_PER_TOOTH * teeth) = STRIPS_PER_TOOTH * teeth)
    by (apply to_int_small;
        unfold VERTICES_PER_TOOTH, STRIPS_PER_TOOTH in *; lia).
  unfold create_gear. rewrite Iv, Is.
  split; [intros ->; reflexivity|].
  split.
  - intros -> Pt No. cbn [negb].
    destruct (Z.to_nat teeth) as [|n] eqn:En; [lia|].
    cbn [teeth_from].
    destruct (calloc_strips mem) eqn:Cs.
    + destruct No as [No|No]; [discriminate No|]. rewrite No.
      rewrite tooth_without_vertices; [reflexivity| |];
        cbn [finished strips_size filled vertices_size List.length];
        unfold STRIPS_PER_TOOTH; lia.
    + rewrite tooth_without_strips; [reflexivity|].
      cbn [finished strips_size List.length]. lia.
  - intros -> -> ->. cbn [negb].
    destruct (teeth_from_fills (Z.to_nat teeth) 0
                {| filled := [];
                   vertices_size := VERTICES_PER_TOOTH * teeth;
                   finished := [];
                   strips_size := STRIPS_PER_TOOTH * teeth;
                   started := 0 |})
      as (b & vs & ss & T & F & L & S & M & Ti & C);
      cbn [filled finished vertices_size strips_size List.length];
      rewrite ?Z2Nat.id by exact Ht; try lia.
    cbn [filled finished List.length app] in F, S, Ti.
    rewrite Z2Nat.id in L, M, Ti by exact Ht.
    rewrite T. cbn [bind]. rewrite F, S, L, Iv.
    eexists. exists (map strip_range ss).
    split; [reflexivity|].
    cbn [nstrips strips nvertices vertices].
    conjs; try reflexivity; try lia.
    + unfold draw_gear. cbn [nstrips].
      rewrite (draw_strips_from_all _ (Z.to_nat (STRIPS_PER_TOOTH * teeth)) 0).
      * reflexivity.
      * cbn [strips]. lia.
    + exact Ti.
    + destruct (tiles_inside _ _ _ Ti) as (_ & In).
      clear - In C.
      induction ss as [|s ss IH]; [constructor|].
      inversion In as [|? ? [I1 I2] In']. inversion C as [|? ? C1 C']. subst.
      constructor; [|exact (IH C' In')].
      cbn [strip_range fst snd] in *. auto.
Qed.

Lemma gear_strips_tile_the_vertices_witness :
  exists g ranges,
    create_gear memory_enough 20 = Ret (Some g) /\
    nstrips g = STRIPS_PER_TOOTH * 20 /\
    Z.of_nat (List.length (strips g)) = nstrips g /\
    nvertices g = VERTICES_PER_TOOTH * 20 /\
    Z.of_nat (List.length (vertices g)) = nvertices g /\
    draw_gear g = Ret ranges /\
    tiles ranges 0 (nvertices g) /\
    Forall (fun r => 0 <= fst r /\ fst r + snd r <= nvertices g /\
                     (snd r = 4 \/ snd r = 7)) ranges.
Proof.
  apply (gear_strips_tile_the_vertices memory_enough 20);
    first [reflexivity | unfold VERTICES_PER_TOOTH, INT_MAX; lia].
Defined.

End GearWheels.
